(** * Expense tracker: a shallow embedding of [script.js] and its properties

    The script keeps one module-level array [expenses], mirrors it into the
    [localStorage] slot ['expenses'] as JSON text after every mutation, and
    recomputes a filtered view and a summary panel from it.

    The development is organised as the script is:

    - [JS]: the fragment of the ECMAScript run-time the script calls into
      (strings as UTF-16 code units, Numbers as binary64 values, [trim],
      [parseFloat], [Number::toString], [toFixed], ordinary objects with
      their property order, [Array.prototype.sort]);
    - [JSON]: [JSON.stringify] and [JSON.parse] on the values the script
      stores;
    - [App]: the state of the page and the functions of [script.js], one
      definition per source function, in a state-and-exception monad;
    - the lemmas about each layer and the properties of the specification. *)

From Stdlib Require Import ZArith NArith List Bool Lia Floats String Ascii.
Import ListNotations.

Set Implicit Arguments.

(* ================================================================== *)
(** * The ECMAScript fragment used by the script *)
(* ================================================================== *)

Module JS.

Local Open Scope Z_scope.

(** ** Strings: sequences of UTF-16 code units *)

Definition code_unit := N.
Definition jsstring := list code_unit.

(** An ASCII literal as a JavaScript string. *)
Definition str (s : string) : jsstring :=
  List.map N_of_ascii (list_ascii_of_string s).

Fixpoint str_eqb (a b : jsstring) : bool :=
  match a, b with
  | [], [] => true
  | x :: a', y :: b' => N.eqb x y && str_eqb a' b'
  | _, _ => false
  end.

(** ToBoolean on a string: the empty string is the only falsy one. *)
Definition str_truthy (s : jsstring) : bool :=
  match s with [] => false | _ :: _ => true end.

(** WhiteSpace and LineTerminator code points, as [String.prototype.trim]
    and [parseFloat] strip them. *)
Definition is_js_whitespace (c : code_unit) : bool :=
  existsb (N.eqb c)
    [0x0009; 0x000A; 0x000B; 0x000C; 0x000D; 0x0020; 0x00A0; 0x1680;
     0x2000; 0x2001; 0x2002; 0x2003; 0x2004; 0x2005; 0x2006; 0x2007;
     0x2008; 0x2009; 0x200A; 0x2028; 0x2029; 0x202F; 0x205F; 0x3000;
     0xFEFF]%N.

Fixpoint trimStart (s : jsstring) : jsstring :=
  match s with
  | c :: s' => if is_js_whitespace c then trimStart s' else s
  | [] => []
  end.

Definition trimEnd (s : jsstring) : jsstring := rev (trimStart (rev s)).

Definition trim (s : jsstring) : jsstring := trimEnd (trimStart s).

(** [s.split(' ')[0]]: the prefix of [s] before its first space. *)
Fixpoint first_word (s : jsstring) : jsstring :=
  match s with
  | c :: s' => if N.eqb c 0x20 then [] else c :: first_word s'
  | [] => []
  end.

(** ** Numbers: IEEE 754 binary64 *)

Definition number := float.
Bind Scope float_scope with number.

Definition is_finite (x : number) : bool :=
  negb (PrimFloat.is_nan x || PrimFloat.is_infinity x).

(** ToBoolean on a Number: [NaN], [+0] and [-0] are falsy. *)
Definition num_truthy (x : number) : bool :=
  negb (PrimFloat.is_nan x || PrimFloat.is_zero x).

(** [a || b] on Numbers. *)
Definition num_or (a b : number) : number := if num_truthy a then a else b.

(** [a === b] and [a !== b] on Numbers. *)
Definition strict_eq (a b : number) : bool := PrimFloat.eqb a b.
Definition strict_neq (a b : number) : bool := negb (strict_eq a b).

(** The Number nearest to an integer (round to nearest, ties to even). *)
Definition number_of_Z (z : Z) : number :=
  SF2Prim (binary_normalize prec emax z 0 false).

Definition number_of_nat (n : nat) : number := number_of_Z (Z.of_nat n).

(** The Number nearest to [m * 10 ^ e] for [0 <= m]: the rounding that
    StringNumericValue and [JSON.parse] apply to a decimal literal. *)
Definition decimal_to_number (m e : Z) : number :=
  if m <=? 0 then PrimFloat.zero
  else if 0 <=? e then number_of_Z (m * 10 ^ e)
  else
    let '(q, e', l) := SFdiv_core_binary prec emax m 0 (10 ^ (- e)) 0 in
    SF2Prim (binary_round_aux prec emax false q e' l).

(** *** Decimal digits *)

Definition is_digit (c : code_unit) : bool := ((48 <=? c) && (c <=? 57))%N.

Definition digit_value (c : code_unit) : Z := Z.of_N c - 48.

Definition digits_value (ds : list code_unit) : Z :=
  fold_left (fun acc c => 10 * acc + digit_value c) ds 0.

Fixpoint uint_digits (u : Decimal.uint) : jsstring :=
  match u with
  | Decimal.Nil => []
  | Decimal.D0 u' => 48%N :: uint_digits u'
  | Decimal.D1 u' => 49%N :: uint_digits u'
  | Decimal.D2 u' => 50%N :: uint_digits u'
  | Decimal.D3 u' => 51%N :: uint_digits u'
  | Decimal.D4 u' => 52%N :: uint_digits u'
  | Decimal.D5 u' => 53%N :: uint_digits u'
  | Decimal.D6 u' => 54%N :: uint_digits u'
  | Decimal.D7 u' => 55%N :: uint_digits u'
  | Decimal.D8 u' => 56%N :: uint_digits u'
  | Decimal.D9 u' => 57%N :: uint_digits u'
  end.

(** The decimal digits of a non-negative integer, ["0"] for zero. *)
Definition decimal_digits (z : Z) : jsstring :=
  uint_digits (N.to_uint (Z.to_N z)).

Fixpoint span (p : code_unit -> bool) (s : jsstring) : jsstring * jsstring :=
  match s with
  | c :: s' =>
      if p c then let '(a, b) := span p s' in (c :: a, b) else ([], s)
  | [] => ([], [])
  end.

(** *** Number::toString (radix 10) *)

(** The exact value of a positive finite Number [m * 2 ^ e] as a fraction. *)
Definition exact_fraction (m : positive) (e : Z) : Z * Z :=
  if 0 <=? e then (Zpos m * 2 ^ e, 1) else (Zpos m, 2 ^ (- e)).

(** [num / den < 10 ^ n] *)
Definition below_pow10 (num den n : Z) : bool :=
  if 0 <=? n then num <? den * 10 ^ n else num * 10 ^ (- n) <? den.

(** The decimal exponent: the least [n] from [n] on with
    [num / den < 10 ^ n]. *)
Fixpoint decimal_exponent (fuel : nat) (n num den : Z) : Z :=
  match fuel with
  | O => n
  | S fuel' =>
      if below_pow10 num den n then n
      else decimal_exponent fuel' (n + 1) num den
  end.

(** A lower bound of the decimal exponent of [m * 2 ^ e], from its binary
    one: [log10 2] lies between 0.30102 and 0.30103. *)
Definition exponent_estimate (m : positive) (e : Z) : Z :=
  let b := Zpos (digits2_pos m) + e - 1 in
  if 0 <=? b then b * 30102 / 100000 else b * 30103 / 100000.

(** [x / 10 ^ p] as a fraction. *)
Definition scale10 (num den p : Z) : Z * Z :=
  if 0 <=? p then (num, den * 10 ^ p) else (num * 10 ^ (- p), den).

(** The [k]-digit candidates for [x]: the two multiples of [10 ^ (n - k)]
    around [x], that are kept when they read back as [x]; the nearer one
    wins, the even one on a tie.  The result is [(s, n)] with
    [10 ^ (k - 1) <= s < 10 ^ k]. *)
Definition digits_candidate (x : number) (num den n k : Z) : option (Z * Z) :=
  let '(sn, sd) := scale10 num den (n - k) in
  let lo := sn / sd in
  let r := sn mod sd in
  let hi := if r =? 0 then lo else lo + 1 in
  let norm s := if s =? 10 ^ k then (10 ^ (k - 1), n + 1) else (s, n) in
  let reads_back sn :=
    PrimFloat.eqb (decimal_to_number (fst sn) (snd sn - k)) x in
  let clo := norm lo in
  let chi := norm hi in
  match reads_back clo, reads_back chi with
  | true, true =>
      match 2 * r ?= sd with
      | Lt => Some clo
      | Gt => Some chi
      | Eq => if Z.even lo then Some clo else Some chi
      end
  | true, false => Some clo
  | false, true => Some chi
  | false, false => None
  end.

(** The shortest digit string that reads back as [x], trying 1, 2, ...
    digits; 17 significant digits identify every binary64 value. *)
Fixpoint shortest_digits (fuel : nat) (x : number) (num den n k : Z)
  : Z * Z * Z :=
  match fuel with
  | O => let '(sn, sd) := scale10 num den (n - k) in (sn / sd, n, k)
  | S fuel' =>
      match digits_candidate x num den n k with
      | Some (s, n') => (s, n', k)
      | None => shortest_digits fuel' x num den n (k + 1)
      end
  end.

Definition zeros (n : Z) : jsstring := repeat 48%N (Z.to_nat n).

(** Steps 6 to 10 of Number::toString: lay out the digits [s] (there are
    [k] of them) with the decimal point after the [n]-th. *)
Definition layout_digits (s n k : Z) : jsstring :=
  let ds := decimal_digits s in
  if (k <=? n) && (n <=? 21) then ds ++ zeros (n - k)
  else if (0 <? n) && (n <=? 21) then
    firstn (Z.to_nat n) ds ++ str "." ++ skipn (Z.to_nat n) ds
  else if (-6 <? n) && (n <=? 0) then
    str "0." ++ zeros (- n) ++ ds
  else
    let e := n - 1 in
    let sign := if e <? 0 then str "-" else str "+" in
    let mant :=
      if k =? 1 then ds else firstn 1 ds ++ str "." ++ skipn 1 ds in
    mant ++ str "e" ++ sign ++ decimal_digits (Z.abs e).

Definition Number_toString (x : number) : jsstring :=
  match Prim2SF x with
  | S754_nan => str "NaN"
  | S754_zero _ => str "0"
  | S754_infinity s => (if s then str "-" else []) ++ str "Infinity"
  | S754_finite s m e =>
      let '(num, den) := exact_fraction m e in
      let n := decimal_exponent 700 (exponent_estimate m e) num den in
      let '(d, n', k) := shortest_digits 17 (PrimFloat.abs x) num den n 1 in
      (if s then str "-" else []) ++ layout_digits d n' k
  end.

(** *** Number.prototype.toFixed *)

(** [x.toFixed(f)] for [0 <= f]: the integer [n] nearest to [x * 10 ^ f]
    (the larger one on a tie) written with [f] fraction digits; Numbers
    that are not finite or reach [10 ^ 21] are written by
    [Number_toString]. *)
Definition toFixed (x : number) (f : Z) : jsstring :=
  match Prim2SF x with
  | S754_zero _ =>
      str "0" ++ (if 0 <? f then str "." ++ zeros f else [])
  | S754_finite s m e =>
      let '(num, den) := exact_fraction m e in
      if negb (below_pow10 num den 21) then Number_toString x
      else
        let n := (2 * num * 10 ^ f + den) / (2 * den) in
        let ds := decimal_digits n in
        let k := Z.of_nat (List.length ds) in
        let ds := if k <=? f then zeros (f + 1 - k) ++ ds else ds in
        let k := Z.of_nat (List.length ds) in
        (if s then str "-" else []) ++
        (if 0 <? f
         then firstn (Z.to_nat (k - f)) ds ++ str "." ++
              skipn (Z.to_nat (k - f)) ds
         else ds)
  | _ => Number_toString x
  end.

(** *** parseFloat *)

(** DecimalDigits ExponentPart? after the mantissa: the exponent is taken
    only when [e], an optional sign and at least one digit follow. *)
Definition scan_exponent (s : jsstring) : Z * jsstring :=
  match s with
  | c :: s1 =>
      if N.eqb c 101 || N.eqb c 69 then
        let '(neg, s2) :=
          match s1 with
          | d :: s2 =>
              if N.eqb d 45 then (true, s2)
              else if N.eqb d 43 then (false, s2) else (false, s1)
          | [] => (false, s1)
          end in
        let '(ds, s3) := span is_digit s2 in
        match ds with
        | [] => (0, s)
        | _ => ((if neg then - digits_value ds else digits_value ds), s3)
        end
      else (0, s)
  | [] => (0, s)
  end.

(** The longest prefix that is a StrUnsignedDecimalLiteral, as its value. *)
Definition scan_unsigned_literal (s : jsstring) : option number :=
  let inf := str "Infinity" in
  if str_eqb (firstn (List.length inf) s) inf then Some infinity
  else
    let '(ip, s1) := span is_digit s in
    let '(fp, s2) :=
      match s1 with
      | c :: s1' => if N.eqb c 46 then span is_digit s1' else ([], s1)
      | [] => ([], s1)
      end in
    match ip, fp with
    | [], [] => None
    | _, _ =>
        let '(ex, _) := scan_exponent s2 in
        Some (decimal_to_number (digits_value (ip ++ fp))
                (ex - Z.of_nat (List.length fp)))
    end.

Definition parseFloat (s : jsstring) : number :=
  let t := trimStart s in
  let '(neg, u) :=
    match t with
    | c :: t' =>
        if N.eqb c 45 then (true, t')
        else if N.eqb c 43 then (false, t') else (false, t)
    | [] => (false, t)
    end in
  match scan_unsigned_literal u with
  | Some v => if neg then PrimFloat.opp v else v
  | None => nan
  end.

(** ** Ordinary objects

    An object is the list of its own enumerable properties in the order
    [Object.entries] and [JSON.stringify] visit them
    (OrdinaryOwnPropertyKeys): properties whose key is an array index
    first, by ascending index, then the other keys in the order in which
    they were created.  What an object inherits is not in the list: the
    definitions below are the operations on own properties, and a read
    or an assignment that reaches [Object.prototype] is written out
    where the script makes one. *)

Definition object (V : Type) := list (jsstring * V).

(** The names of the properties of [Object.prototype]. *)
Definition Object_prototype_keys : list jsstring :=
  List.map str
    ["constructor"; "__defineGetter__"; "__defineSetter__"; "hasOwnProperty";
     "__lookupGetter__"; "__lookupSetter__"; "isPrototypeOf";
     "propertyIsEnumerable"; "toString"; "valueOf"; "__proto__";
     "toLocaleString"]%string.

(** A key is an array index when it is the canonical decimal form of an
    integer between 0 and 2^32 - 2. *)
Definition array_index (k : jsstring) : option Z :=
  match k with
  | [] => None
  | c :: k' =>
      if forallb is_digit k
         && (negb (N.eqb c 48) || match k' with [] => true | _ => false end)
         && (digits_value k <=? 4294967294)
      then Some (digits_value k) else None
  end.

Fixpoint obj_get {V} (o : object V) (k : jsstring) : option V :=
  match o with
  | [] => None
  | (k', v) :: o' => if str_eqb k' k then Some v else obj_get o' k
  end.

Fixpoint obj_replace {V} (o : object V) (k : jsstring) (v : V) : object V :=
  match o with
  | [] => []
  | (k', v') :: o' =>
      if str_eqb k' k then (k', v) :: o' else (k', v') :: obj_replace o' k v
  end.

Fixpoint obj_insert_index {V} (o : object V) (i : Z) (k : jsstring) (v : V)
  : object V :=
  match o with
  | [] => [(k, v)]
  | (k', v') :: o' =>
      match array_index k' with
      | Some j =>
          if i <? j then (k, v) :: o
          else (k', v') :: obj_insert_index o' i k v
      | None => (k, v) :: o
      end
  end.

(** [o[k] = v] *)
Definition obj_set {V} (o : object V) (k : jsstring) (v : V) : object V :=
  match obj_get o k with
  | Some _ => obj_replace o k v
  | None =>
      match array_index k with
      | Some i => obj_insert_index o i k v
      | None => o ++ [(k, v)]
      end
  end.

Definition Object_entries {V} (o : object V) : list (jsstring * V) := o.

(** ** Array.prototype.sort

    The sort is stable, and SortCompare reads a comparator result that is
    [NaN] as [+0].  When the comparator is consistent every conforming
    sort returns the same array; it is modelled by insertion from the
    right, in which [x] moves behind [y] only when [comparefn x y > 0].
    For a comparator that is not consistent the order is left to the
    implementation, and this definition is one of the orders allowed. *)

Fixpoint sort_insert {A} (comparefn : A -> A -> number) (x : A) (l : list A)
  : list A :=
  match l with
  | [] => [x]
  | y :: l' =>
      if PrimFloat.ltb 0 (comparefn x y) then y :: sort_insert comparefn x l'
      else x :: l
  end.

Definition Array_sort {A} (comparefn : A -> A -> number) (l : list A)
  : list A :=
  fold_right (sort_insert comparefn) [] l.

End JS.

(* ================================================================== *)
(** * JSON.stringify and JSON.parse *)
(* ================================================================== *)

Module JSON.

Import JS.
Local Open Scope N_scope.

Unset Elimination Schemes.
Inductive json :=
| JNull
| JBool (b : bool)
| JNum (x : number)
| JStr (s : jsstring)
| JArr (l : list json)
| JObj (o : list (jsstring * json)).
Set Elimination Schemes.

(** ** JSON.stringify *)

Definition hex_digit (n : N) : code_unit :=
  if n <? 10 then 48 + n else 87 + n.

(** UnicodeEscape: [\uXXXX] with lower-case hexadecimal digits. *)
Definition unicode_escape (c : code_unit) : jsstring :=
  [92; 117; hex_digit (c / 4096 mod 16); hex_digit (c / 256 mod 16);
   hex_digit (c / 16 mod 16); hex_digit (c mod 16)].

Definition is_high_surrogate (c : code_unit) : bool :=
  (0xD800 <=? c) && (c <=? 0xDBFF).
Definition is_low_surrogate (c : code_unit) : bool :=
  (0xDC00 <=? c) && (c <=? 0xDFFF).

(** One code unit that is not part of a surrogate pair. *)
Definition quote_unit (c : code_unit) : jsstring :=
  if c =? 8 then str "\b"
  else if c =? 9 then str "\t"
  else if c =? 10 then str "\n"
  else if c =? 12 then str "\f"
  else if c =? 13 then str "\r"
  else if c =? 34 then [92; 34]
  else if c =? 92 then [92; 92]
  else if (c <? 32) || is_high_surrogate c || is_low_surrogate c
  then unicode_escape c
  else [c].

Fixpoint quote_body (s : jsstring) : jsstring :=
  match s with
  | [] => []
  | c :: s' =>
      match s' with
      | d :: s'' =>
          if is_high_surrogate c && is_low_surrogate d
          then c :: d :: quote_body s''
          else quote_unit c ++ quote_body s'
      | [] => quote_unit c
      end
  end.

(** QuoteJSONString *)
Definition quote (s : jsstring) : jsstring := 34 :: quote_body s ++ [34].

Fixpoint join (sep : jsstring) (l : list jsstring) : jsstring :=
  match l with
  | [] => []
  | [x] => x
  | x :: l' => x ++ sep ++ join sep l'
  end.

(** SerializeJSONProperty, without replacer and without indentation. *)
Fixpoint stringify (v : json) : jsstring :=
  match v with
  | JNull => str "null"
  | JBool true => str "true"
  | JBool false => str "false"
  | JNum x => if is_finite x then Number_toString x else str "null"
  | JStr s => quote s
  | JArr l => 91 :: join [44] (List.map stringify l) ++ [93]
  | JObj o =>
      123 :: join [44]
               (List.map (fun kv => quote (fst kv) ++ 58 :: stringify (snd kv))
                  o) ++ [125]
  end.

(** ** JSON.parse *)

Definition is_json_ws (c : code_unit) : bool :=
  (c =? 9) || (c =? 10) || (c =? 13) || (c =? 32).

Fixpoint skip_ws (s : jsstring) : jsstring :=
  match s with
  | c :: s' => if is_json_ws c then skip_ws s' else s
  | [] => []
  end.

Definition hex_value (c : code_unit) : option N :=
  if (48 <=? c) && (c <=? 57) then Some (c - 48)
  else if (97 <=? c) && (c <=? 102) then Some (c - 87)
  else if (65 <=? c) && (c <=? 70) then Some (c - 55)
  else None.

Definition hex4 (a b c d : code_unit) : option code_unit :=
  match hex_value a, hex_value b, hex_value c, hex_value d with
  | Some x, Some y, Some z, Some w => Some (4096 * x + 256 * y + 16 * z + w)
  | _, _, _, _ => None
  end.

Definition simple_escape (c : code_unit) : option code_unit :=
  if c =? 34 then Some 34
  else if c =? 92 then Some 92
  else if c =? 47 then Some 47
  else if c =? 98 then Some 8
  else if c =? 102 then Some 12
  else if c =? 110 then Some 10
  else if c =? 114 then Some 13
  else if c =? 116 then Some 9
  else None.

(** The characters of a string after its opening quote, up to and
    including the closing one. *)
Fixpoint parse_string_body (s : jsstring) : option (jsstring * jsstring) :=
  match s with
  | [] => None
  | c :: s1 =>
      if c =? 34 then Some ([], s1)
      else if c =? 92 then
        match s1 with
        | e :: s2 =>
            if e =? 117 then
              match s2 with
              | h1 :: h2 :: h3 :: h4 :: s3 =>
                  match hex4 h1 h2 h3 h4, parse_string_body s3 with
                  | Some u, Some (t, r) => Some (u :: t, r)
                  | _, _ => None
                  end
              | _ => None
              end
            else
              match simple_escape e, parse_string_body s2 with
              | Some u, Some (t, r) => Some (u :: t, r)
              | _, _ => None
              end
        | [] => None
        end
      else if c <? 32 then None
      else
        match parse_string_body s1 with
        | Some (t, r) => Some (c :: t, r)
        | None => None
        end
  end.

(** A JSON number: an optional minus sign, an integer part that is [0] or
    starts with a digit from 1 to 9, an optional fraction (a point and at
    least one digit) and an optional exponent ([e] or [E], an optional
    sign and at least one digit), read as the nearest Number. *)

Definition scan_sign (s : jsstring) : bool * jsstring :=
  match s with
  | c :: s' => if c =? 45 then (true, s') else (false, s)
  | [] => (false, s)
  end.

Definition scan_int (s : jsstring) : jsstring * jsstring :=
  match s with
  | c :: s' => if c =? 48 then ([c], s') else span is_digit s
  | [] => ([], s)
  end.

Definition scan_frac (s : jsstring) : option (jsstring * jsstring) :=
  match s with
  | c :: s' =>
      if c =? 46 then
        match span is_digit s' with
        | ([], _) => None
        | (fp, s2) => Some (fp, s2)
        end
      else Some ([], s)
  | [] => Some ([], s)
  end.

Definition scan_exp_sign (s : jsstring) : bool * jsstring :=
  match s with
  | d :: s' =>
      if d =? 45 then (true, s')
      else if d =? 43 then (false, s') else (false, s)
  | [] => (false, s)
  end.

Definition scan_exp (s : jsstring) : option (Z * jsstring) :=
  match s with
  | c :: s' =>
      if (c =? 101) || (c =? 69) then
        let '(eneg, s3) := scan_exp_sign s' in
        match span is_digit s3 with
        | ([], _) => None
        | (ds, s4) =>
            Some ((if eneg then - digits_value ds else digits_value ds)%Z, s4)
        end
      else Some (0%Z, s)
  | [] => Some (0%Z, s)
  end.

Definition scan_number (s : jsstring) : option (number * jsstring) :=
  let '(neg, s0) := scan_sign s in
  let '(ip, s1) := scan_int s0 in
  match ip with
  | [] => None
  | _ :: _ =>
      match scan_frac s1 with
      | None => None
      | Some (fp, s2) =>
          match scan_exp s2 with
          | None => None
          | Some (ex, s4) =>
              let v :=
                decimal_to_number (digits_value (ip ++ fp))
                  (ex - Z.of_nat (List.length fp)) in
              Some ((if neg then PrimFloat.opp v else v), s4)
          end
      end
  end.

Inductive result (A : Type) :=
| Ok (a : A)
| SyntaxError
| OutOfFuel.
Arguments SyntaxError {A}.
Arguments OutOfFuel {A}.

Definition of_option {A} (o : option A) : result A :=
  match o with Some a => Ok a | None => SyntaxError end.

(** [s] starts with the keyword [w]: what follows it. *)
Fixpoint after_keyword (w s : jsstring) : option jsstring :=
  match w, s with
  | [], _ => Some s
  | x :: w', y :: s' => if x =? y then after_keyword w' s' else None
  | _ :: _, [] => None
  end.

(** The recursive-descent parser: the three productions, each over the
    productions it calls. *)

Definition parser := jsstring -> result (json * jsstring).

(** A value: a string, an array, an object, a keyword or a number, after
    optional white space. *)
Definition value_body
  (elements : jsstring -> list json -> result (json * jsstring))
  (members : jsstring -> object json -> result (json * jsstring))
  : parser :=
  fun s =>
    match skip_ws s with
    | [] => SyntaxError
    | c :: r =>
        if c =? 34 then
          match parse_string_body r with
          | Some (t, r') => Ok (JStr t, r')
          | None => SyntaxError
          end
        else if c =? 91 then
          match skip_ws r with
          | c' :: r' =>
              if c' =? 93 then Ok (JArr [], r')
              else elements (c' :: r') []
          | [] => SyntaxError
          end
        else if c =? 123 then
          match skip_ws r with
          | c' :: r' =>
              if c' =? 125 then Ok (JObj [], r')
              else members (c' :: r') []
          | [] => SyntaxError
          end
        else if c =? 116 then
          match after_keyword (str "true") (c :: r) with
          | Some r' => Ok (JBool true, r')
          | None => SyntaxError
          end
        else if c =? 102 then
          match after_keyword (str "false") (c :: r) with
          | Some r' => Ok (JBool false, r')
          | None => SyntaxError
          end
        else if c =? 110 then
          match after_keyword (str "null") (c :: r) with
          | Some r' => Ok (JNull, r')
          | None => SyntaxError
          end
        else
          match scan_number (c :: r) with
          | Some (x, r') => Ok (JNum x, r')
          | None => SyntaxError
          end
    end.

(** The elements of an array from the start of one of them: a value,
    then a comma and more elements, or the closing bracket. *)
Definition elements_body
  (value : parser)
  (elements : jsstring -> list json -> result (json * jsstring))
  (s : jsstring) (acc : list json) : result (json * jsstring) :=
  match value s with
  | Ok (v, r) =>
      match skip_ws r with
      | c :: r' =>
          if c =? 44 then elements r' (v :: acc)
          else if c =? 93 then Ok (JArr (rev (v :: acc)), r')
          else SyntaxError
      | [] => SyntaxError
      end
  | SyntaxError => SyntaxError
  | OutOfFuel => OutOfFuel
  end.

(** The members of an object from the start of one of them: a key, a
    colon and a value, then a comma and more members, or the closing
    brace.  Each member is defined on the object in turn, so that a
    repeated key keeps its last value. *)
Definition members_body
  (value : parser)
  (members : jsstring -> object json -> result (json * jsstring))
  (s : jsstring) (acc : object json) : result (json * jsstring) :=
  match skip_ws s with
  | c :: r =>
      if c =? 34 then
        match parse_string_body r with
        | Some (k, r1) =>
            match skip_ws r1 with
            | c1 :: r2 =>
                if c1 =? 58 then
                  match value r2 with
                  | Ok (v, r3) =>
                      match skip_ws r3 with
                      | c3 :: r4 =>
                          if c3 =? 44 then members r4 (obj_set acc k v)
                          else if c3 =? 125
                          then Ok (JObj (obj_set acc k v), r4)
                          else SyntaxError
                      | [] => SyntaxError
                      end
                  | SyntaxError => SyntaxError
                  | OutOfFuel => OutOfFuel
                  end
                else SyntaxError
            | [] => SyntaxError
            end
        | None => SyntaxError
        end
      else SyntaxError
  | [] => SyntaxError
  end.

(** [fuel] bounds the number of nested calls; [parse_text] below supplies
    enough of it for every text. *)
Fixpoint parse_value (fuel : nat) (s : jsstring) {struct fuel}
  : result (json * jsstring) :=
  match fuel with
  | O => OutOfFuel
  | S n => value_body (parse_elements n) (parse_members n) s
  end

with parse_elements (fuel : nat) (s : jsstring) (acc : list json)
  {struct fuel} : result (json * jsstring) :=
  match fuel with
  | O => OutOfFuel
  | S n => elements_body (parse_value n) (parse_elements n) s acc
  end

with parse_members (fuel : nat) (s : jsstring) (acc : object json)
  {struct fuel} : result (json * jsstring) :=
  match fuel with
  | O => OutOfFuel
  | S n => members_body (parse_value n) (parse_members n) s acc
  end.

(** The whole text must be one value between optional white space. *)
Definition parse_text (text : jsstring) : result json :=
  match parse_value (2 * List.length text + 1) text with
  | Ok (v, r) =>
      match skip_ws r with
      | [] => Ok v
      | _ :: _ => SyntaxError
      end
  | SyntaxError => SyntaxError
  | OutOfFuel => OutOfFuel
  end.

(** [JSON.parse text]: the value, or [None] when a SyntaxError is thrown. *)
Definition parse (text : jsstring) : option json :=
  match parse_text text with
  | Ok v => Some v
  | _ => None
  end.

End JSON.

(* ================================================================== *)
(** * script.js *)
(* ================================================================== *)

Module App.

Import JS JSON.

(** ** The expense record and the page *)

(** The object literal of [addExpense]: five own properties, created in
    this order. *)
Record expense := {
  id : number;
  amount : number;
  description : jsstring;
  category : jsstring;
  date : jsstring
}.

(** One rendered [.expense-item].  [item_date] is the argument of
    [formatDate], whose result depends on the locale data and the time
    zone of the browser. *)
Record item := {
  item_amount : jsstring;
  item_description : jsstring;
  item_category : jsstring;
  item_categoryName : jsstring;
  item_date : jsstring;
  item_delete : number
}.

(** What [renderExpenses] assigns to [expenseList.innerHTML]. *)
Inductive markup :=
| Initial
| EmptyState (message : jsstring)
| Items (items : list item).

(** The elements the script looks up with [getElementById], by the
    properties it reads and writes.  [categorySelect_options] lists the
    [option] children of the category [select], each with its [value]
    attribute and its text: the table of category codes and labels of the
    page. *)
Record document := {
  amountInput_value : jsstring;
  descriptionInput_value : jsstring;
  categorySelect_value : jsstring;
  categorySelect_options : list (jsstring * jsstring);
  dateInput_value : jsstring;
  filterCategory_value : jsstring;
  errorMessage_textContent : jsstring;
  errorMessage_display : jsstring;
  expenseList_innerHTML : markup;
  totalAmount_textContent : jsstring;
  totalCount_textContent : jsstring;
  highestCategory_textContent : jsstring
}.

(** The module-level [expenses], the [localStorage] slot ['expenses']
    ([None] when the key is absent), the number of code units the storage
    still accepts for that slot, and the page. *)
Record state := {
  expenses : list expense;
  stored : option jsstring;
  quota : N;
  page : document
}.

Definition set_expenses (l : list expense) (st : state) : state :=
  {| expenses := l; stored := stored st; quota := quota st;
     page := page st |}.

Definition set_stored (s : option jsstring) (st : state) : state :=
  {| expenses := expenses st; stored := s; quota := quota st;
     page := page st |}.

Definition set_page (d : document) (st : state) : state :=
  {| expenses := expenses st; stored := stored st; quota := quota st;
     page := d |}.

Definition with_form (a d c dt : jsstring) (p : document) : document :=
  {| amountInput_value := a;
     descriptionInput_value := d;
     categorySelect_value := c;
     categorySelect_options := categorySelect_options p;
     dateInput_value := dt;
     filterCategory_value := filterCategory_value p;
     errorMessage_textContent := errorMessage_textContent p;
     errorMessage_display := errorMessage_display p;
     expenseList_innerHTML := expenseList_innerHTML p;
     totalAmount_textContent := totalAmount_textContent p;
     totalCount_textContent := totalCount_textContent p;
     highestCategory_textContent := highestCategory_textContent p |}.

Definition with_filter (f : jsstring) (p : document) : document :=
  {| amountInput_value := amountInput_value p;
     descriptionInput_value := descriptionInput_value p;
     categorySelect_value := categorySelect_value p;
     categorySelect_options := categorySelect_options p;
     dateInput_value := dateInput_value p;
     filterCategory_value := f;
     errorMessage_textContent := errorMessage_textContent p;
     errorMessage_display := errorMessage_display p;
     expenseList_innerHTML := expenseList_innerHTML p;
     totalAmount_textContent := totalAmount_textContent p;
     totalCount_textContent := totalCount_textContent p;
     highestCategory_textContent := highestCategory_textContent p |}.

Definition with_error (text display : jsstring) (p : document) : document :=
  {| amountInput_value := amountInput_value p;
     descriptionInput_value := descriptionInput_value p;
     categorySelect_value := categorySelect_value p;
     categorySelect_options := categorySelect_options p;
     dateInput_value := dateInput_value p;
     filterCategory_value := filterCategory_value p;
     errorMessage_textContent := text;
     errorMessage_display := display;
     expenseList_innerHTML := expenseList_innerHTML p;
     totalAmount_textContent := totalAmount_textContent p;
     totalCount_textContent := totalCount_textContent p;
     highestCategory_textContent := highestCategory_textContent p |}.

Definition with_list (m : markup) (p : document) : document :=
  {| amountInput_value := amountInput_value p;
     descriptionInput_value := descriptionInput_value p;
     categorySelect_value := categorySelect_value p;
     categorySelect_options := categorySelect_options p;
     dateInput_value := dateInput_value p;
     filterCategory_value := filterCategory_value p;
     errorMessage_textContent := errorMessage_textContent p;
     errorMessage_display := errorMessage_display p;
     expenseList_innerHTML := m;
     totalAmount_textContent := totalAmount_textContent p;
     totalCount_textContent := totalCount_textContent p;
     highestCategory_textContent := highestCategory_textContent p |}.

Definition with_summary (total count highest : jsstring) (p : document)
  : document :=
  {| amountInput_value := amountInput_value p;
     descriptionInput_value := descriptionInput_value p;
     categorySelect_value := categorySelect_value p;
     categorySelect_options := categorySelect_options p;
     dateInput_value := dateInput_value p;
     filterCategory_value := filterCategory_value p;
     errorMessage_textContent := errorMessage_textContent p;
     errorMessage_display := errorMessage_display p;
     expenseList_innerHTML := expenseList_innerHTML p;
     totalAmount_textContent := total;
     totalCount_textContent := count;
     highestCategory_textContent := highest |}.

(** ** Statements: state and abrupt completion *)

(** A call returns, throws, or leaves the typed embedding: [Untyped v]
    says that the script goes on with [expenses] bound to [v], a value
    that is not an array of expense records, where this model does not
    follow it. *)
Inductive completion (A : Type) :=
| Normal (a : A)
| Throw (error : jsstring)
| Untyped (v : json).
Arguments Throw {A}.
Arguments Untyped {A}.

Definition action (A : Type) := state -> completion A * state.

Definition ret {A} (a : A) : action A := fun st => (Normal a, st).

Definition bind {A B} (m : action A) (k : A -> action B) : action B :=
  fun st =>
    match m st with
    | (Normal a, st') => k a st'
    | (Throw e, st') => (Throw e, st')
    | (Untyped v, st') => (Untyped v, st')
    end.

Definition throw {A} (e : jsstring) : action A := fun st => (Throw e, st).

Definition get : action state := fun st => (Normal st, st).

Definition modify (f : state -> state) : action unit :=
  fun st => (Normal tt, f st).

Declare Scope action_scope.
Delimit Scope action_scope with action.
Notation "x <- m ;; k" := (bind m (fun x => k))
  (at level 61, m at next level, right associativity) : action_scope.
Notation "m ;; k" := (bind m (fun _ => k))
  (at level 61, right associativity) : action_scope.
Local Open Scope action_scope.

Definition TypeError : jsstring := str "TypeError".

(** ** The records as JSON values *)

Definition expense_to_json (e : expense) : json :=
  JObj [(str "id", JNum (id e));
        (str "amount", JNum (amount e));
        (str "description", JStr (description e));
        (str "category", JStr (category e));
        (str "date", JStr (date e))].

Definition expenses_to_json (l : list expense) : json :=
  JArr (List.map expense_to_json l).

(** The parsed values this embedding can type: objects with exactly the
    five properties of [addExpense], in its order and with its types. *)
Definition expense_of_json (v : json) : option expense :=
  match v with
  | JObj [(k1, JNum i); (k2, JNum a); (k3, JStr d); (k4, JStr c);
          (k5, JStr t)] =>
      if str_eqb k1 (str "id") && str_eqb k2 (str "amount")
         && str_eqb k3 (str "description") && str_eqb k4 (str "category")
         && str_eqb k5 (str "date")
      then Some {| id := i; amount := a; description := d; category := c;
                   date := t |}
      else None
  | _ => None
  end.

Fixpoint all_some {A} (l : list (option A)) : option (list A) :=
  match l with
  | [] => Some []
  | Some a :: l' =>
      match all_some l' with Some r => Some (a :: r) | None => None end
  | None :: _ => None
  end.

Definition expenses_of_json (v : json) : option (list expense) :=
  match v with
  | JArr l => all_some (List.map expense_of_json l)
  | _ => None
  end.

(** ** LocalStorage functions *)

(** [showError]: the message is shown; the timer that hides it three
    seconds later is the separate step [hideError]. *)
Definition showError (message : jsstring) : action unit :=
  modify (fun st => set_page (with_error message (str "block") (page st)) st).

Definition hideError : action unit :=
  modify (fun st =>
    set_page (with_error (errorMessage_textContent (page st)) (str "none")
                (page st)) st).

(** [saveExpenses]: [setItem] throws when the text does not fit, and the
    handler reports it. *)
Definition saveExpenses : action unit :=
  st <- get ;;
  let text := stringify (expenses_to_json (expenses st)) in
  if N.leb (N.of_nat (List.length text)) (quota st)
  then modify (set_stored (Some text))
  else showError (str "Failed to save data. Storage might be full.").

(** ** Rendering functions *)

(** Lines 223 to 225: the records [renderExpenses] shows. *)
Definition visible (l : list expense) (filter : jsstring) : list expense :=
  if str_eqb filter (str "all") then l
  else List.filter (fun e => str_eqb (category e) filter) l.

(** [categorySelect.querySelector('option[value="..."]')]: the text of
    the first option with that value, if there is one. *)
Definition option_text (p : document) (c : jsstring) : option jsstring :=
  obj_get (categorySelect_options p) c.

Definition rupee : jsstring := [0x20B9%N].

Definition render_item (p : document) (e : expense) : option item :=
  match option_text p (category e) with
  | Some categoryName =>
      Some {| item_amount := rupee ++ toFixed (amount e) 2;
              item_description := description e;
              item_category := category e;
              item_categoryName := categoryName;
              item_date := date e;
              item_delete := id e |}
  | None => None
  end.

Definition renderExpenses : action unit :=
  st <- get ;;
  let filter := filterCategory_value (page st) in
  let filtered := visible (expenses st) filter in
  if Nat.eqb (List.length filtered) 0 then
    let emptyMessage :=
      if str_eqb filter (str "all")
      then str "No expenses yet. Add your first expense!"
      else str "No expenses in this category" in
    modify (fun st => set_page (with_list (EmptyState emptyMessage) (page st)) st)
  else
    match all_some (List.map (render_item (page st)) filtered) with
    | Some items =>
        modify (fun st => set_page (with_list (Items items) (page st)) st)
    | None => throw TypeError
    end.

(** What line 285 stores under a category: a Number, or a string.  The
    accumulator is the object literal [{}], so that [acc[k]] for a [k]
    that is no own property reads the member [k] of [Object.prototype]:
    a built-in function, or the prototype itself for ["__proto__"].
    Both are truthy, and [+] makes a string of them: the text of the
    function or ["[object Object]"], followed by the amount.  The text
    of a built-in function is left to the implementation; it starts with
    ["function"], so that the string is not empty and is no numeric
    literal, and the script reads nothing else of it. *)
Inductive total_value :=
| Sum (x : number)
| Text.

(** ToNumber, as the subtraction of line 291 applies it. *)
Definition ToNumber (v : total_value) : number :=
  match v with
  | Sum x => x
  | Text => nan
  end.

(** [k] names a member of [Object.prototype]. *)
Definition inherited (k : jsstring) : bool :=
  existsb (str_eqb k) Object_prototype_keys.

(** Line 285, [acc[k] = (acc[k] || 0) + amount]: an own Number is added
    to, an own string is extended; a member of [Object.prototype] gives a
    string, which becomes an own property, unless [k] is ["__proto__"],
    whose setter drops a string; any other [k] starts at the amount. *)
Definition add_to_total (acc : object total_value) (k : jsstring)
  (amount : number) : object total_value :=
  match obj_get acc k with
  | Some (Sum t) => obj_set acc k (Sum (PrimFloat.add (num_or t 0%float) amount))
  | Some Text => obj_set acc k Text
  | None =>
      if inherited k then
        if str_eqb k (str "__proto__") then acc else obj_set acc k Text
      else obj_set acc k (Sum (PrimFloat.add 0%float amount))
  end.

(** Lines 284 to 287: the total of each category. *)
Definition categoryTotals (l : list expense) : object total_value :=
  fold_left (fun acc e => add_to_total acc (category e) (amount e)) l [].

(** The comparator of line 291, [(a, b) => b[1] - a[1]]. *)
Definition by_total_descending (a b : jsstring * total_value) : number :=
  PrimFloat.sub (ToNumber (snd b)) (ToNumber (snd a)).

(** Lines 290 and 291: the entry with the highest total. *)
Definition highest (l : list expense) : option (jsstring * total_value) :=
  hd_error
    (Array_sort by_total_descending (Object_entries (categoryTotals l))).

Definition total (l : list expense) : number :=
  fold_left (fun sum e => PrimFloat.add sum (amount e)) l 0%float.

Definition updateSummary : action unit :=
  st <- get ;;
  let p := page st in
  let totalText := rupee ++ toFixed (total (expenses st)) 2 in
  let countText := Number_toString (number_of_nat (List.length (expenses st))) in
  if Nat.eqb (List.length (expenses st)) 0 then
    modify (fun st => set_page (with_summary totalText countText (str "-") (page st)) st)
  else
    match highest (expenses st) with
    | Some h =>
        match option_text p (fst h) with
        | Some categoryName =>
            modify (fun st =>
              set_page (with_summary totalText countText
                          (first_word categoryName) (page st)) st)
        | None =>
            modify (fun st =>
              set_page (with_summary totalText countText
                          (highestCategory_textContent (page st)) (page st)) st) ;;
            throw TypeError
        end
    | None =>
        modify (fun st =>
          set_page (with_summary totalText countText
                      (highestCategory_textContent (page st)) (page st)) st)
    end.

(** [loadExpenses]: the slot is read when it holds a non-empty string; a
    text that [JSON.parse] rejects leaves the empty array. *)
Definition loadExpenses : action unit :=
  st <- get ;;
  match stored st with
  | Some text =>
      if str_truthy text then
        match JSON.parse text with
        | Some v =>
            match expenses_of_json v with
            | Some l => modify (set_expenses l)
            | None => fun st => (Untyped v, st)
            end
        | None => modify (set_expenses [])
        end
      else ret tt
  | None => ret tt
  end ;;
  renderExpenses ;;
  updateSummary.

(** ** Validation *)

Definition validateInput : action bool :=
  st <- get ;;
  let amount := parseFloat (amountInput_value (page st)) in
  let description := trim (descriptionInput_value (page st)) in
  if negb (num_truthy amount) || PrimFloat.leb amount 0%float then
    showError (str "Please enter a valid amount greater than 0") ;;
    ret false
  else if negb (str_truthy description) then
    showError (str "Please enter a description") ;;
    ret false
  else if negb (str_truthy (dateInput_value (page st))) then
    showError (str "Please select a date") ;;
    ret false
  else ret true.

(** ** Core expense functions *)

(** [clearForm]; [today] is the date that [new Date()] puts into the date
    input.  Moving the focus to the amount field changes nothing that the
    script reads. *)
Definition clearForm (today : jsstring) : action unit :=
  modify (fun st => set_page (with_form [] [] (str "food") today (page st)) st).

(** [addExpense]; [now] is the value of [Date.now()]. *)
Definition addExpense (now : number) (today : jsstring) : action unit :=
  valid <- validateInput ;;
  if negb valid then ret tt
  else
    st <- get ;;
    let expense :=
      {| id := now;
         amount := parseFloat (amountInput_value (page st));
         description := trim (descriptionInput_value (page st));
         category := categorySelect_value (page st);
         date := dateInput_value (page st) |} in
    modify (fun st => set_expenses (expense :: expenses st) st) ;;
    saveExpenses ;;
    renderExpenses ;;
    updateSummary ;;
    clearForm today.

(** [deleteExpense]; [confirmed] is the answer to the [confirm] dialog. *)
Definition deleteExpense (id0 : number) (confirmed : bool) : action unit :=
  if confirmed then
    modify (fun st =>
      set_expenses
        (List.filter (fun expense => strict_neq (id expense) id0)
           (expenses st)) st) ;;
    saveExpenses ;;
    renderExpenses ;;
    updateSummary
  else ret tt.

Definition clearAllExpenses (confirmed : bool) : action unit :=
  st <- get ;;
  if Nat.eqb (List.length (expenses st)) 0 then
    showError (str "No expenses to clear")
  else if confirmed then
    modify (set_expenses []) ;;
    saveExpenses ;;
    renderExpenses ;;
    updateSummary
  else ret tt.

(** ** The page as a transition system *)

(** What happens to the page after the script has run: the user edits a
    field, picks a filter, asks for an addition (the add button, or Enter
    in the amount or the description field), presses a delete or the
    clear button and answers the dialog, or the timer of an error message
    fires.  [now] and [today] are what the clock shows at that moment. *)
Inductive event :=
| TypeAmount (text : jsstring)
| TypeDescription (text : jsstring)
| SelectCategory (code : jsstring)
| PickDate (text : jsstring)
| ChangeFilter (code : jsstring)
| ClickAdd (now : number) (today : jsstring)
| ClickDelete (id0 : number) (confirmed : bool)
| ClickClearAll (confirmed : bool)
| ErrorTimeout.

Definition handle (ev : event) : action unit :=
  match ev with
  | TypeAmount text =>
      modify (fun st =>
        let p := page st in
        set_page (with_form text (descriptionInput_value p)
                    (categorySelect_value p) (dateInput_value p) p) st)
  | TypeDescription text =>
      modify (fun st =>
        let p := page st in
        set_page (with_form (amountInput_value p) text
                    (categorySelect_value p) (dateInput_value p) p) st)
  | SelectCategory code =>
      modify (fun st =>
        let p := page st in
        match option_text p code with
        | Some _ =>
            set_page (with_form (amountInput_value p)
                        (descriptionInput_value p) code (dateInput_value p) p)
              st
        | None => st
        end)
  | PickDate text =>
      modify (fun st =>
        let p := page st in
        set_page (with_form (amountInput_value p) (descriptionInput_value p)
                    (categorySelect_value p) text p) st)
  | ChangeFilter code =>
      modify (fun st => set_page (with_filter code (page st)) st) ;;
      renderExpenses
  | ClickAdd now today => addExpense now today
  | ClickDelete id0 confirmed => deleteExpense id0 confirmed
  | ClickClearAll confirmed => clearAllExpenses confirmed
  | ErrorTimeout => hideError
  end.

(** The top level of the script: line 4, line 26 and line 326. *)
Definition startup (today : jsstring) : action unit :=
  modify (set_expenses []) ;;
  modify (fun st =>
    let p := page st in
    set_page (with_form (amountInput_value p) (descriptionInput_value p)
                (categorySelect_value p) today p) st) ;;
  loadExpenses.

(** An uncaught exception ends the handler that raised it and leaves the
    page running with the state reached so far. *)
Definition step (ev : event) (st : state) : state := snd (handle ev st).

Definition run (evs : list event) (st : state) : state :=
  fold_left (fun st ev => step ev st) evs st.

End App.

(* ================================================================== *)
(** * The vocabulary of the specification *)
(* ================================================================== *)

Module Spec.

Import JS JSON App.
(** ** Numbers on a common scale

    Every finite binary64 value is an integer multiple of [2 ^ -1074];
    [SFvalue] is that integer, with the infinities beyond every finite
    value.  Comparisons of Numbers that are not [NaN] are comparisons of
    these integers. *)

Definition top_value : Z := 2 ^ 2098.

Definition SFvalue (x : spec_float) : Z :=
  match x with
  | S754_zero _ => 0
  | S754_nan => 0
  | S754_infinity s => if s then - top_value else top_value
  | S754_finite s m e =>
      if s then - (Zpos m * 2 ^ (e + 1074)) else Zpos m * 2 ^ (e + 1074)
  end.

Definition SFis_nan (x : spec_float) : bool :=
  match x with S754_nan => true | _ => false end.

(** [x] is finite or infinite, not zero, with sign [s]. *)
Definition SFsigned (s : bool) (x : spec_float) : Prop :=
  match x with
  | S754_finite s' _ _ => s' = s
  | S754_infinity s' => s' = s
  | _ => False
  end.

Definition value (x : number) : Z := SFvalue (Prim2SF x).

(** ** The data model (section 3 of the specification) *)

(** [amount > 0] *)
Definition positive_amount (e : expense) : Prop :=
  PrimFloat.ltb 0 (amount e) = true.

(** The two invariants on the fields of a record. *)
Definition valid_record (e : expense) : Prop :=
  positive_amount e /\ description e <> [].

(** No two records of the list have ids that [===] holds equal. *)
Definition unique_ids (l : list expense) : Prop :=
  ForallOrdPairs (fun a b => strict_eq (id a) (id b) = false) l.

(** Some record of the list has the id [id0]. *)
Definition has_id (id0 : number) (l : list expense) : Prop :=
  Exists (fun e => strict_eq (id e) id0 = true) l.

(** The category codes that are ordinary property names: the members of
    [Object.prototype] are not. *)
Definition own_key (k : jsstring) : Prop :=
  existsb (str_eqb k) Object_prototype_keys = false.

(** ** Serialization (section 4.2) *)

(** Line 56: the text [saveExpenses] writes. *)
Definition serialize (l : list expense) : jsstring :=
  stringify (expenses_to_json l).

(** Line 40: the list [loadExpenses] reads back, when the text parses to
    an array of records. *)
Definition deserialize (text : jsstring) : option (list expense) :=
  match JSON.parse text with
  | Some v => expenses_of_json v
  | None => None
  end.

(** A Number that JSON text carries exactly: it is finite and its
    decimal form reads back as the same Number.  ECMAScript guarantees
    this of every finite Number other than [-0]. *)
Definition number_exact (x : number) : Prop :=
  is_finite x = true /\ scan_number (Number_toString x) = Some (x, []).

(** A string of 16-bit code units. *)
Definition string_wf (s : jsstring) : Prop :=
  Forall (fun c => (c < 65536)%N) s.

(** A record with the field types of the data model. *)
Definition storable (e : expense) : Prop :=
  number_exact (id e) /\ number_exact (amount e) /\
  string_wf (description e) /\ string_wf (category e) /\ string_wf (date e).

(** What [JSON.parse] rejects with a SyntaxError. *)
Definition malformed (text : jsstring) : Prop :=
  JSON.parse_text text = SyntaxError.

(** A production that is given enough fuel for its text does not run
    out, and what it leaves is no longer than the text: a value needs
    [2 * length + 1], a sequence of elements or members one more. *)
Definition settles_value (f : parser) (fuel : nat) : Prop :=
  forall s,
    2 * List.length s + 1 <= fuel ->
    f s <> OutOfFuel /\
    forall v r, f s = Ok (v, r) -> List.length r <= List.length s.

Definition settles {A : Type}
  (f : jsstring -> A -> result (json * jsstring)) (fuel : nat) : Prop :=
  forall s a,
    2 * List.length s + 2 <= fuel ->
    f s a <> OutOfFuel /\
    forall v r, f s a = Ok (v, r) -> List.length r <= List.length s.

(** A number token ends where no character that could continue it
    follows. *)
Definition number_char (c : code_unit) : bool :=
  is_digit c || N.eqb c 46 || N.eqb c 101 || N.eqb c 69
  || N.eqb c 43 || N.eqb c 45.

Definition ends_number (rest : jsstring) : Prop :=
  match rest with
  | [] => True
  | c :: _ => number_char c = false
  end.

(** The values [JSON.stringify] and [JSON.parse] carry both ways: exact
    Numbers, strings of code units, and objects whose properties are
    listed in the order in which [JSON.parse] recreates them. *)
Fixpoint json_wf (v : json) : Prop :=
  match v with
  | JNull => True
  | JBool _ => True
  | JNum x => number_exact x
  | JStr s => string_wf s
  | JArr l =>
      (fix all (l : list json) : Prop :=
         match l with
         | [] => True
         | x :: l' => json_wf x /\ all l'
         end) l
  | JObj o =>
      (fix all (o : list (jsstring * json)) : Prop :=
         match o with
         | [] => True
         | (k, x) :: o' => string_wf k /\ json_wf x /\ all o'
         end) o
      /\ fold_left (fun acc kv => obj_set acc (fst kv) (snd kv)) o [] = o
  end.

(** [v] is read back from its own text, whatever follows the text. *)
Definition reads_back (v : json) : Prop :=
  forall n rest,
    2 * List.length (stringify v ++ rest) + 1 <= n ->
    ends_number rest ->
    parse_value n (stringify v ++ rest) = Ok (v, rest).

(** The text of one member of an object. *)
Definition member_text (kv : jsstring * json) : jsstring :=
  quote (fst kv) ++ 58%N :: stringify (snd kv).

(** ** Views and summaries (section 4.3) *)

(** [s] is [l] with some elements left out. *)
Inductive subsequence {A : Type} : list A -> list A -> Prop :=
| sub_nil : subsequence [] []
| sub_skip x s l : subsequence s l -> subsequence s (x :: l)
| sub_keep x s l : subsequence s l -> subsequence (x :: s) (x :: l).

Definition in_category (c : jsstring) (e : expense) : Prop := category e = c.

(** Grouping by category and summing the amounts of a group. *)
Definition group (c : jsstring) (l : list expense) : list expense :=
  List.filter (fun e => str_eqb (category e) c) l.

Definition group_sum (c : jsstring) (l : list expense) : number :=
  fold_left (fun sum e => PrimFloat.add sum (amount e)) (group c l) 0%float.

Definition categories (l : list expense) : list jsstring :=
  List.map category l.

(** The keys of a list in the order of their first occurrence. *)
Fixpoint first_occurrences (seen ks : list jsstring) : list jsstring :=
  match ks with
  | [] => []
  | k :: ks' =>
      if existsb (str_eqb k) seen then first_occurrences seen ks'
      else k :: first_occurrences (k :: seen) ks'
  end.

(** [c] has the largest group sum of [l]. *)
Definition largest_sum (c : jsstring) (l : list expense) : Prop :=
  In c (categories l) /\
  forall c', In c' (categories l) ->
    PrimFloat.leb (group_sum c' l) (group_sum c l) = true.

(** Among the categories with the largest group sum, [c] is the one met
    first in [l]: every record before the first record of [c] belongs to
    a category with a smaller sum. *)
Definition first_largest (c : jsstring) (l : list expense) : Prop :=
  largest_sum c l /\
  exists before e after,
    l = before ++ e :: after /\ category e = c /\
    forall e', In e' before ->
      PrimFloat.ltb (group_sum (category e') l) (group_sum c l) = true.

(** The three fields of the summary panel. *)
Definition summary_texts (st : state) : jsstring * jsstring * jsstring :=
  (totalAmount_textContent (page st), totalCount_textContent (page st),
   highestCategory_textContent (page st)).

(** ** The store operations (section 4.1) *)

(** The three tests of [validateInput] on the form. *)
Definition accepted (p : document) : bool :=
  negb (negb (num_truthy (parseFloat (amountInput_value p)))
        || PrimFloat.leb (parseFloat (amountInput_value p)) 0)
  && str_truthy (trim (descriptionInput_value p))
  && str_truthy (dateInput_value p).

(** The record [addExpense] builds from the form at time [now]. *)
Definition draft (now : number) (p : document) : expense :=
  {| id := now;
     amount := parseFloat (amountInput_value p);
     description := trim (descriptionInput_value p);
     category := categorySelect_value p;
     date := dateInput_value p |}.

(** An action that leaves the list, or the list and the slot, alone. *)
Definition keeps_expenses {A : Type} (m : action A) : Prop :=
  forall st, expenses (snd (m st)) = expenses st.

Definition keeps_data {A : Type} (m : action A) : Prop :=
  forall st,
    expenses (snd (m st)) = expenses st /\ stored (snd (m st)) = stored st.

(** The messages of [validateInput]. *)
Definition validation_messages : list jsstring :=
  [str "Please enter a valid amount greater than 0";
   str "Please enter a description";
   str "Please select a date"].

(** [st'] is [st] with one of the validation messages displayed, and
    nothing else changed. *)
Definition rejected (st st' : state) : Prop :=
  exists message,
    In message validation_messages /\
    st' = set_page (with_error message (str "block") (page st)) st.

(** ** Reachable states *)

(** The states of a session: the one the top level of the script leaves,
    whatever the page and the storage held, and those that follow from
    it by events.  A start that leaves the typed embedding opens no
    session here. *)
Inductive reachable : state -> Prop :=
| reach_startup st0 today c st :
    startup today st0 = (c, st) ->
    (forall v, c <> Untyped v) ->
    reachable st
| reach_step st ev :
    reachable st -> reachable (step ev st).

(** The slot holds nothing, or a text that the start reads as records
    satisfying the field invariants, or a text that does not parse. *)
Definition trusted_slot (slot : option jsstring) : Prop :=
  match slot with
  | None => True
  | Some text =>
      if str_truthy text then
        match JSON.parse text with
        | Some v =>
            exists l, expenses_of_json v = Some l /\ Forall valid_record l
        | None => True
        end
      else True
  end.

End Spec.

(* ================================================================== *)
(** * Sample pages and lists *)
(* ================================================================== *)

Module Examples.

Import JS JSON App.
Local Open Scope float_scope.

(** A sample category table: each label starts with a glyph. *)
Definition options : list (jsstring * jsstring) :=
  [(str "food", [0xD83C; 0xDF54]%N ++ str " Food");
   (str "transport", [0xD83D; 0xDE97]%N ++ str " Transport");
   (str "other", [0xD83D; 0xDCE6]%N ++ str " Other")].

Definition blank_page : document :=
  {| amountInput_value := [];
     descriptionInput_value := [];
     categorySelect_value := str "food";
     categorySelect_options := options;
     dateInput_value := [];
     filterCategory_value := str "all";
     errorMessage_textContent := [];
     errorMessage_display := str "none";
     expenseList_innerHTML := Initial;
     totalAmount_textContent := [];
     totalCount_textContent := [];
     highestCategory_textContent := [] |}.

(** The page before the script runs, with [slot] in the storage. *)
Definition fresh_state (slot : option jsstring) : state :=
  {| expenses := []; stored := slot; quota := 5242880%N; page := blank_page |}.

Definition with_expenses (l : list expense) : state :=
  set_expenses l (fresh_state None).

Definition lunch : expense :=
  {| id := 1737900000000; amount := 12.5; description := str "lunch";
     category := str "food"; date := str "2025-01-26" |}.

Definition bus : expense :=
  {| id := 1737900060000; amount := 3; description := str "bus";
     category := str "transport"; date := str "2025-01-26" |}.

(** The form filled in for a second lunch. *)
Definition filled_form (st : state) : state :=
  set_page (with_form (str "8.75") (str " soup ") (str "food")
              (str "2025-01-27") (page st)) st.

(** The form with the amount left empty. *)
Definition empty_amount_form (st : state) : state :=
  set_page (with_form [] (str "soup") (str "food") (str "2025-01-27")
              (page st)) st.

(** The records of the summary example of the specification; the fields
    it leaves open are filled from [r]. *)
Definition priced (r : expense) (a : number) (c : jsstring) : expense :=
  {| id := id r; amount := a; description := description r; category := c;
     date := date r |}.

Definition three_records (r1 r2 r3 : expense) : list expense :=
  [priced r1 100 (str "food"); priced r2 50 (str "food");
   priced r3 30 (str "transport")].

(** Two categories with the same total, under codes that are array
    indices. *)
Definition numbered_tie : list expense :=
  [priced lunch 5 (str "2"); priced bus 5 (str "1")].

(** A small total under a plain code, and a large one under the name of
    a member of [Object.prototype]. *)
Definition inherited_code : list expense :=
  [priced lunch 5 (str "food"); priced bus 100 (str "constructor")].

(** Two categories with the same total, the first of them under the
    name of the accessor [__proto__]. *)
Definition accessor_tie : list expense :=
  [priced lunch 5 (str "__proto__"); priced bus 5 (str "food")].

(** One record under [__proto__], and the sample page with another top
    category on it. *)
Definition accessor_only : list expense :=
  [priced lunch 5 (str "__proto__")].

Definition summarised (text : jsstring) (st : state) : state :=
  set_page (with_summary [] [] text (page st)) st.

(** Two records with one id: the list that an addition leaves when the
    clock repeats the id of [lunch]. *)
Definition repeated_id : list expense :=
  [priced lunch 8.75 (str "food"); lunch].

(** A JSON text written with ['] where the text has the double quote. *)
Definition json_text (s : string) : jsstring :=
  List.map (fun c => if N.eqb c 39 then 34%N else c) (str s).

(** A snapshot whose record breaks both field invariants. *)
Definition foreign_snapshot : jsstring :=
  json_text "[{'id':1,'amount':-5,'description':'','category':'food','date':'2025-01-01'}]".

Definition lunch_snapshot : jsstring :=
  json_text "[{'id':1737900000000,'amount':12.5,'description':'lunch','category':'food','date':'2025-01-26'}]".

End Examples.
(* ================================================================== *)
(** * The page and the session *)
(* ================================================================== *)

Module Display.

Import JS JSON App Spec.

(** ** What the page shows *)

(** The category of [e] has an [option] in the category [select]. *)
Definition listed (p : document) (e : expense) : Prop :=
  option_text p (category e) <> None.

(** [it] is the [.expense-item] of [e]: the amount with two fraction
    digits after the currency sign, the description, the badge with the
    label of the category, the date, and a delete button that carries the
    id of [e]. *)
Definition item_of (p : document) (e : expense) (it : item) : Prop :=
  item_amount it = rupee ++ toFixed (amount e) 2 /\
  item_description it = description e /\
  item_category it = category e /\
  option_text p (category e) = Some (item_categoryName it) /\
  item_date it = date e /\
  item_delete it = id e.

(** The markup of the list [l]: the empty state for no record, one item
    for each record otherwise, in the order of [l]. *)
Definition displays (p : document) (l : list expense) (m : markup) : Prop :=
  match m with
  | Initial => False
  | EmptyState _ => l = []
  | Items items => l <> [] /\ Forall2 (item_of p) l items
  end.

(** The list on the page is the markup of the records that pass the
    filter. *)
Definition shows_list (st : state) : Prop :=
  displays (page st)
    (visible (expenses st) (filterCategory_value (page st)))
    (expenseList_innerHTML (page st)).

(** [text] is the top category of [l] as the summary shows it: the
    marker of the empty list, or the first word of the label of the
    category ranked first, which is a category with the largest group
    sum. *)
Definition top_text (p : document) (l : list expense) (text : jsstring)
  : Prop :=
  match l with
  | [] => text = str "-"
  | _ :: _ =>
      exists c categoryName,
        highest l = Some (c, Sum (group_sum c l)) /\ largest_sum c l /\
        option_text p c = Some categoryName /\
        text = first_word categoryName
  end.

(** The summary panel is the summary of the whole list. *)
Definition shows_summary (st : state) : Prop :=
  totalAmount_textContent (page st) =
    rupee ++ toFixed (total (expenses st)) 2 /\
  totalCount_textContent (page st) =
    Number_toString (number_of_nat (List.length (expenses st))) /\
  top_text (page st) (expenses st) (highestCategory_textContent (page st)).

(** The form of the page, and what the script leaves of the page when it
    writes the list or the summary. *)
Definition form (p : document) : jsstring * jsstring * jsstring * jsstring :=
  (amountInput_value p, descriptionInput_value p, categorySelect_value p,
   dateInput_value p).

Definition error_texts (p : document) : jsstring * jsstring :=
  (errorMessage_textContent p, errorMessage_display p).

(** An action that leaves alone what [f] reads of the state, however it
    completes. *)
Definition leaves {A B : Type} (f : state -> B) (m : action A) : Prop :=
  forall st, f (snd (m st)) = f st.

(** An action that stays within the records: it never goes on with
    [expenses] bound to another value. *)
Definition typed {A : Type} (m : action A) : Prop :=
  forall st v, fst (m st) <> Untyped v.

(** The state without the list on the page, and without the summary. *)
Definition beside_list (st : state) :=
  (expenses st, stored st, quota st, form (page st), error_texts (page st),
   filterCategory_value (page st), categorySelect_options (page st),
   summary_texts st).

Definition beside_summary (st : state) :=
  (expenses st, stored st, quota st, form (page st), error_texts (page st),
   filterCategory_value (page st), categorySelect_options (page st),
   expenseList_innerHTML (page st)).

(** What the calls after [saveExpenses] never touch. *)
Definition beside_display (st : state) :=
  (expenses st, stored st, quota st, error_texts (page st),
   filterCategory_value (page st), categorySelect_options (page st)).

(** ** The category table *)

(** The selectors of lines 245 and 294 are built from the category code,
    [option[value="..."]].  A code without a quote, a backslash, a line
    break, a NUL or a surrogate is carried by the selector as it is, and
    the selector then finds the first option with that value. *)
Definition plain_unit (u : code_unit) : bool :=
  negb (existsb (N.eqb u) [0; 10; 12; 13; 34; 92]%N)
  && negb ((0xD800 <=? u) && (u <=? 0xDFFF))%N.

Definition selector_plain (c : jsstring) : Prop :=
  forallb plain_unit c = true.

Definition plain_table (p : document) : Prop :=
  Forall (fun kv => selector_plain (fst kv)) (categorySelect_options p).

(** The codes of the category select, of the form and of the records
    are plain. *)
Definition plain_codes (st : state) : Prop :=
  plain_table (page st) /\
  selector_plain (categorySelect_value (page st)) /\
  Forall (fun e => selector_plain (category e)) (expenses st).

(** The codes of the category select are ordinary property names: none
    is the name of a member of [Object.prototype]. *)
Definition own_table (p : document) : Prop :=
  Forall (fun kv => own_key (fst kv)) (categorySelect_options p).

(** The category that [clearForm] selects and the category selected now
    are options of the [select]. *)
Definition form_listed (p : document) : Prop :=
  option_text p (str "food") <> None /\
  option_text p (categorySelect_value p) <> None.

(** The slot holds nothing, or a text that does not parse, or a text that
    the start reads as records that satisfy the field invariants and
    whose categories are options of the [select]. *)
Definition listed_slot (p : document) (slot : option jsstring) : Prop :=
  match slot with
  | None => True
  | Some text =>
      if str_truthy text then
        match JSON.parse text with
        | Some v =>
            exists l, expenses_of_json v = Some l /\
                      Forall (listed p) l /\ Forall valid_record l
        | None => True
        end
      else True
  end.

(** The page is in step with the list: the records satisfy the field
    invariants, every category has its label under an ordinary code, and
    the list and the summary on the page are those of the records. *)
Definition in_step (st : state) : Prop :=
  own_table (page st) /\ Forall valid_record (expenses st) /\
  Forall (listed (page st)) (expenses st) /\ form_listed (page st) /\
  shows_list st /\ shows_summary st.

(** ** Sessions *)

(** The values of [Date.now()] at the additions of a session. *)
Definition clock (evs : list event) : list number :=
  flat_map (fun ev =>
              match ev with
              | ClickAdd now _ => [now]
              | _ => []
              end) evs.

(** The events that call neither [addExpense], [deleteExpense] nor
    [clearAllExpenses]. *)
Definition quiet (ev : event) : bool :=
  match ev with
  | ClickAdd _ _ | ClickDelete _ _ | ClickClearAll _ => false
  | _ => true
  end.

(** The number of records with the id [id0]. *)
Definition count_id (id0 : number) (l : list expense) : nat :=
  List.length (List.filter (fun e => strict_eq (id e) id0) l).

(** The text of the list fits into the storage. *)
Definition fits (st : state) : Prop :=
  (N.of_nat (List.length (serialize (expenses st))) <= quota st)%N.

(** A reload now brings the list back: the script, started on any page
    with the slot as it is, stays within the records and ends with the
    list of [st]. *)
Definition persisted (st : state) : Prop :=
  forall st0 today,
    stored st0 = stored st ->
    (forall v, fst (startup today st0) <> Untyped v) /\
    expenses (snd (startup today st0)) = expenses st.

(** The message of [saveExpenses]. *)
Definition save_failure : jsstring :=
  str "Failed to save data. Storage might be full.".

(** ** Validation, field by field *)

(** The amount of the form is no Number, zero or negative. *)
Definition amount_at_fault (p : document) : Prop :=
  PrimFloat.is_nan (parseFloat (amountInput_value p)) = true
  \/ PrimFloat.eqb (parseFloat (amountInput_value p)) 0 = true
  \/ PrimFloat.ltb (parseFloat (amountInput_value p)) 0 = true.

(** A string of white space only. *)
Definition blank (s : jsstring) : Prop :=
  Forall (fun c => is_js_whitespace c = true) s.

(** [st] with [message] displayed. *)
Definition reporting (message : string) (st : state) : state :=
  set_page (with_error (str message) (str "block") (page st)) st.

End Display.

(* ================================================================== *)
(** * More sample pages *)
(* ================================================================== *)

Module Cases.

Import JS JSON App Examples.
Local Open Scope float_scope.

(** A record whose category is not in the sample table. *)
Definition gift : expense :=
  {| id := 1737900120000; amount := 40; description := str "gift";
     category := str "gifts"; date := str "2025-01-26" |}.



(** The sample page with another filter selected. *)
Definition filtered_by (code : string) (st : state) : state :=
  set_page (with_filter (str code) (page st)) st.

End Cases.

(* ================================================================== *)
(** * Facts about the run-time fragment *)
(* ================================================================== *)

Unset Implicit Arguments.

(** ** binary64 arithmetic

    The comparisons, the sum and the difference of Numbers, read on the
    integer scale of [Spec.SFvalue].  The facts are proved on the
    specification of the primitive operations ([SpecFloat]) and carried
    to the primitive floats by their axioms. *)

Module Binary64.

Import JS Spec.
Local Open Scope Z_scope.

Lemma digits2_size m : digits2_pos m = Pos.size m.
Proof. induction m; simpl; congruence. Qed.

Lemma digits2_bounds m :
  2 ^ Zpos (digits2_pos m) <= 2 * Zpos m /\ Zpos m < 2 ^ Zpos (digits2_pos m).
Proof.
  rewrite digits2_size. split.
  - pose proof (Pos.size_le m) as H.
    apply Pos2Z.pos_le_pos in H. rewrite Pos2Z.inj_pow in H. exact H.
  - pose proof (Pos.size_gt m) as H.
    apply Pos2Z.pos_lt_pos in H. rewrite Pos2Z.inj_pow in H. exact H.
Qed.

Lemma fexp_unfold e : fexp prec emax e = Z.max (e - 53) (-1074).
Proof. reflexivity. Qed.

(** canonical mantissas *)
Lemma bounded_inv m e :
  bounded prec emax m e = true ->
  -1074 <= e <= 971 /\ Zpos (digits2_pos m) <= 53 /\
  (-1074 < e -> Zpos (digits2_pos m) = 53).
Proof.
  unfold bounded, canonical_mantissa. rewrite fexp_unfold.
  intros H. apply andb_prop in H as [H1 H2].
  apply Z.eqb_eq in H1. apply Z.leb_le in H2.
  change (emax - prec) with 971 in H2. lia.
Qed.

Lemma finite_value_bounds m e :
  bounded prec emax m e = true ->
  0 < Zpos m * 2 ^ (e + 1074) < top_value.
Proof.
  intros H. apply bounded_inv in H as (He & Hd & _).
  pose proof (digits2_bounds m) as [_ Hm].
  assert (0 < 2 ^ (e + 1074)) by (apply Z.pow_pos_nonneg; lia).
  split; [apply Z.mul_pos_pos; [reflexivity | assumption]|].
  unfold top_value.
  assert (2 ^ Zpos (digits2_pos m) <= 2 ^ 53) by (apply Z.pow_le_mono_r; lia).
  assert (2 ^ (e + 1074) <= 2 ^ 2045) by (apply Z.pow_le_mono_r; lia).
  replace (2 ^ 2098) with (2 ^ 53 * 2 ^ 2045) by (rewrite <- Z.pow_add_r; [reflexivity | lia | lia]).
  assert (0 < 2 ^ 53) by (apply Z.pow_pos_nonneg; lia).
  nia.
Qed.

Lemma canonical_lt m1 e1 m2 e2 :
  bounded prec emax m1 e1 = true -> bounded prec emax m2 e2 = true ->
  e1 < e2 -> Zpos m1 * 2 ^ (e1 + 1074) < Zpos m2 * 2 ^ (e2 + 1074).
Proof.
  intros H1 H2 Hlt.
  apply bounded_inv in H1 as (He1 & Hd1 & _).
  apply bounded_inv in H2 as (He2 & _ & Hd2).
  pose proof (digits2_bounds m1) as [_ Hm1].
  pose proof (digits2_bounds m2) as [Hm2 _].
  rewrite Hd2 in Hm2 by lia.
  assert (2 ^ Zpos (digits2_pos m1) <= 2 ^ 53) by (apply Z.pow_le_mono_r; lia).
  replace (e2 + 1074) with ((e2 - e1) + (e1 + 1074)) by lia.
  rewrite (Z.pow_add_r 2 (e2 - e1) (e1 + 1074)) by lia.
  assert (0 < 2 ^ (e1 + 1074)) by (apply Z.pow_pos_nonneg; lia).
  assert (2 ^ 1 <= 2 ^ (e2 - e1)) by (apply Z.pow_le_mono_r; lia).
  change (2 ^ 1) with 2 in *.
  assert (Zpos m1 < Zpos m2 * 2 ^ (e2 - e1)) by nia.
  rewrite Z.mul_assoc. apply Z.mul_lt_mono_pos_r; assumption.
Qed.

Ltac compare_by_lia :=
  f_equal; symmetry;
  first [ apply Z.compare_eq_iff; lia
        | apply Z.compare_lt_iff; lia
        | apply Z.compare_gt_iff; lia ].

Lemma SFcompare_value_finite sx mx ex sy my ey :
  bounded prec emax mx ex = true -> bounded prec emax my ey = true ->
  SFcompare (S754_finite sx mx ex) (S754_finite sy my ey) =
  Some (SFvalue (S754_finite sx mx ex) ?= SFvalue (S754_finite sy my ey)).
Proof.
  intros Vx Vy.
  pose proof (finite_value_bounds _ _ Vx) as Bx.
  pose proof (finite_value_bounds _ _ Vy) as By_.
  assert (Hp : 0 < 2 ^ (ex + 1074)) by
    (apply Z.pow_pos_nonneg; [lia | apply bounded_inv in Vx; lia]).
  unfold SFcompare, SFvalue. destruct sx, sy; try compare_by_lia.
  - destruct (Z.compare_spec ex ey) as [E|L|G].
    + subst ey.
      change (Pos.compare_cont Eq mx my) with (Pos.compare mx my).
      destruct (Pos.compare_spec mx my) as [E|L|G]; unfold CompOpp.
      * subst my. compare_by_lia.
      * apply Pos2Z.pos_lt_pos in L.
        apply (proj1 (Z.mul_lt_mono_pos_r _ _ _ Hp)) in L. compare_by_lia.
      * apply Pos2Z.pos_lt_pos in G.
        apply (proj1 (Z.mul_lt_mono_pos_r _ _ _ Hp)) in G. compare_by_lia.
    + pose proof (canonical_lt _ _ _ _ Vx Vy L). compare_by_lia.
    + assert (L : ey < ex) by lia.
      pose proof (canonical_lt _ _ _ _ Vy Vx L). compare_by_lia.
  - destruct (Z.compare_spec ex ey) as [E|L|G].
    + subst ey.
      change (Pos.compare_cont Eq mx my) with (Pos.compare mx my).
      destruct (Pos.compare_spec mx my) as [E|L|G]; unfold CompOpp.
      * subst my. compare_by_lia.
      * apply Pos2Z.pos_lt_pos in L.
        apply (proj1 (Z.mul_lt_mono_pos_r _ _ _ Hp)) in L. compare_by_lia.
      * apply Pos2Z.pos_lt_pos in G.
        apply (proj1 (Z.mul_lt_mono_pos_r _ _ _ Hp)) in G. compare_by_lia.
    + pose proof (canonical_lt _ _ _ _ Vx Vy L). compare_by_lia.
    + assert (L : ey < ex) by lia.
      pose proof (canonical_lt _ _ _ _ Vy Vx L). compare_by_lia.
Qed.

Lemma SFcompare_value x y :
  valid_binary x = true -> valid_binary y = true ->
  SFis_nan x = false -> SFis_nan y = false ->
  SFcompare x y = Some (SFvalue x ?= SFvalue y).
Proof.
  intros Vx Vy Nx Ny.
  assert (Ht : 0 < top_value) by (unfold top_value; apply Z.pow_pos_nonneg; lia).
  destruct x as [sx|sx| |sx mx ex], y as [sy|sy| |sy my ey];
    try discriminate;
    try (apply SFcompare_value_finite; assumption);
    simpl in Vx, Vy;
    try (pose proof (finite_value_bounds _ _ Vx) as Bx);
    try (pose proof (finite_value_bounds _ _ Vy) as By_);
    unfold SFcompare, SFvalue;
    repeat match goal with s : bool |- _ => destruct s end;
    compare_by_lia.
Qed.

(** rounding keeps the sign *)

Lemma shr_1_m mrs : 0 <= shr_m mrs -> shr_m (shr_1 mrs) = shr_m mrs / 2.
Proof.
  destruct mrs as [m r s]. simpl. intros Hm.
  destruct m as [|p|p]; [reflexivity | | lia].
  destruct p as [p|p|]; simpl.
  - rewrite Pos2Z.inj_xI.
    apply (Z.div_unique _ 2 (Zpos p) 1); lia.
  - rewrite Pos2Z.inj_xO.
    apply (Z.div_unique _ 2 (Zpos p) 0); lia.
  - reflexivity.
Qed.

Lemma iter_shr_m p : forall mrs,
  0 <= shr_m mrs ->
  shr_m (iter_pos shr_1 p mrs) = shr_m mrs / 2 ^ Zpos p.
Proof.
  assert (Hdiv : forall a, 0 <= a -> 0 <= a / 2)
    by (intros; apply Z.div_pos; lia).
  assert (Hstep : forall mrs, 0 <= shr_m mrs -> 0 <= shr_m (shr_1 mrs))
    by (intros; rewrite shr_1_m; auto).
  induction p as [p IH|p IH|]; intros mrs Hm; cbn [iter_pos].
  - assert (Hp : 0 < 2 ^ Zpos p) by (apply Z.pow_pos_nonneg; lia).
    assert (H1 : 0 <= shr_m (iter_pos shr_1 p (shr_1 mrs))).
    { rewrite IH by auto. apply Z.div_pos; auto. }
    rewrite IH by assumption. rewrite IH by auto. rewrite shr_1_m by assumption.
    rewrite Pos2Z.inj_xI.
    replace (2 * Zpos p + 1) with (1 + Zpos p + Zpos p) by lia.
    rewrite !Z.pow_add_r by lia. change (2 ^ 1) with 2.
    rewrite !Z.div_div by lia. f_equal. lia.
  - assert (Hp : 0 < 2 ^ Zpos p) by (apply Z.pow_pos_nonneg; lia).
    assert (H1 : 0 <= shr_m (iter_pos shr_1 p mrs)).
    { rewrite IH by auto. apply Z.div_pos; auto. }
    rewrite IH by assumption. rewrite IH by auto.
    rewrite Z.div_div by lia. f_equal.
    rewrite <- Z.pow_add_r by lia. f_equal. lia.
  - now rewrite shr_1_m.
Qed.

Lemma shr_record_of_loc_m m l : shr_m (shr_record_of_loc m l) = m.
Proof. destruct l as [|[]]; reflexivity. Qed.

Lemma shr_fexp_pos m e l :
  0 < m -> -1074 <= e ->
  0 < shr_m (fst (shr_fexp prec emax m e l)) /\
  -1074 <= snd (shr_fexp prec emax m e l).
Proof.
  intros Hm He. unfold shr_fexp, shr. rewrite fexp_unfold.
  destruct m as [|p|p]; try lia. simpl Zdigits2.
  destruct (Z.max (Zpos (digits2_pos p) + e - 53) (-1074) - e) as [|n|n] eqn:En;
    simpl fst; simpl snd; rewrite ?shr_record_of_loc_m; try (split; lia).
  rewrite iter_shr_m by (rewrite shr_record_of_loc_m; lia).
  rewrite shr_record_of_loc_m. split; [|lia].
  pose proof (digits2_bounds p) as [Hlo _].
  assert (Hn : Zpos n <= Zpos (digits2_pos p) - 1) by lia.
  assert (2 ^ Zpos n <= 2 ^ (Zpos (digits2_pos p) - 1))
    by (apply Z.pow_le_mono_r; lia).
  assert (2 * 2 ^ (Zpos (digits2_pos p) - 1) = 2 ^ Zpos (digits2_pos p)).
  { rewrite <- Z.pow_succ_r by lia. f_equal. lia. }
  apply Z.div_str_pos. split; [apply Z.pow_pos_nonneg; lia | lia].
Qed.

Lemma round_nearest_even_pos m l : 0 < m -> 0 < round_nearest_even m l.
Proof. intros. unfold round_nearest_even. destruct l as [|[]]; try lia. destruct (Z.even m); lia. Qed.

Lemma binary_round_aux_signed s m e l :
  0 < m -> -1074 <= e -> SFsigned s (binary_round_aux prec emax s m e l).
Proof.
  intros Hm He. unfold binary_round_aux.
  pose proof (shr_fexp_pos m e l Hm He) as [H1 H2].
  destruct (shr_fexp prec emax m e l) as [mrs' e']. simpl in H1, H2.
  pose proof (round_nearest_even_pos _ (loc_of_shr_record mrs') H1) as H3.
  pose proof (shr_fexp_pos _ _ loc_Exact H3 H2) as [H4 H5].
  destruct (shr_fexp prec emax _ e' loc_Exact) as [mrs'' e'']. simpl in H4, H5.
  destruct (shr_m mrs'') as [|q|q]; try lia.
  destruct (e'' <=? emax - prec); reflexivity.
Qed.

Lemma pos_iter_xO m d : Zpos (Pos.iter xO m d) = Zpos m * 2 ^ Zpos d.
Proof.
  induction d as [|d IH] using Pos.peano_ind.
  - simpl. lia.
  - rewrite Pos.iter_succ, Pos2Z.inj_xO, IH, Pos2Z.inj_succ, Z.pow_succ_r by lia. lia.
Qed.

Lemma shl_align_value m e e' :
  e' <= e ->
  Zpos (fst (shl_align m e e')) = Zpos m * 2 ^ (e - e') /\
  snd (shl_align m e e') = e'.
Proof.
  intros H. unfold shl_align.
  destruct (e' - e) as [|d|d] eqn:E; cbn [fst snd]; try lia.
  - replace (e - e') with 0 by lia. rewrite Z.pow_0_r. split; lia.
  - rewrite pos_iter_xO. replace (e - e') with (Zpos d) by lia. split; lia.
Qed.

Lemma shl_align_snd m e e' :
  -1074 <= e -> -1074 <= e' -> -1074 <= snd (shl_align m e e').
Proof.
  intros. unfold shl_align. destruct (e' - e); simpl; lia.
Qed.

Lemma binary_round_signed s m e :
  -1074 <= e -> SFsigned s (binary_round prec emax s m e).
Proof.
  intros He. unfold binary_round.
  pose proof (shl_align_snd m e (fexp prec emax (Zpos (digits2_pos m) + e)) He) as H.
  rewrite fexp_unfold in *.
  destruct (shl_align m e _) as [mz ez]. simpl in H.
  apply binary_round_aux_signed; lia.
Qed.

Lemma SFltb_zero_signed s x :
  SFsigned s x -> SFltb (S754_zero false) x = negb s /\ SFltb x (S754_zero false) = s.
Proof.
  destruct x as [| s' | | s' m e]; simpl; try contradiction; intros ->; destruct s; split; reflexivity.
Qed.

Lemma binary_normalize_sign z e :
  -1074 <= e ->
  SFltb (S754_zero false) (binary_normalize prec emax z e false) = (0 <? z) /\
  SFltb (binary_normalize prec emax z e false) (S754_zero false) = (z <? 0) /\
  SFis_nan (binary_normalize prec emax z e false) = false.
Proof.
  intros He. destruct z as [|p|p]; simpl binary_normalize.
  - repeat split.
  - pose proof (binary_round_signed false p e He) as H.
    destruct (SFltb_zero_signed _ _ H) as [-> ->].
    repeat split. destruct (binary_round _ _ _ _ _); simpl in *; congruence || contradiction.
  - pose proof (binary_round_signed true p e He) as H.
    destruct (SFltb_zero_signed _ _ H) as [-> ->].
    repeat split. destruct (binary_round _ _ _ _ _); simpl in *; congruence || contradiction.
Qed.

Lemma aligned_value s m e ez :
  -1074 <= ez <= e ->
  cond_Zopp s (Zpos (fst (shl_align m e ez))) * 2 ^ (ez + 1074) =
  SFvalue (S754_finite s m e).
Proof.
  intros H. destruct (shl_align_value m e ez) as [-> _]; [lia|].
  unfold SFvalue.
  replace (e + 1074) with ((e - ez) + (ez + 1074)) by lia.
  rewrite (Z.pow_add_r 2 (e - ez) (ez + 1074)) by lia.
  destruct s; unfold cond_Zopp; ring.
Qed.

Lemma ltb_scale a b p : 0 < p -> (a * p <? b * p) = (a <? b).
Proof.
  intros Hp. destruct (Z.ltb_spec a b) as [L|G].
  - apply Z.ltb_lt. now apply Z.mul_lt_mono_pos_r.
  - apply Z.ltb_ge. now apply Z.mul_le_mono_pos_r.
Qed.

Lemma ltb_sub_pos a b : (0 <? a - b) = (b <? a).
Proof. destruct (Z.ltb_spec b a); [apply Z.ltb_lt | apply Z.ltb_ge]; lia. Qed.

Lemma ltb_sub_neg a b : (a - b <? 0) = (a <? b).
Proof. destruct (Z.ltb_spec a b); [apply Z.ltb_lt | apply Z.ltb_ge]; lia. Qed.

Lemma SFsub_sign x y :
  valid_binary x = true -> valid_binary y = true ->
  SFis_nan x = false -> SFis_nan y = false ->
  SFltb (S754_zero false) (SFsub prec emax x y) = (SFvalue y <? SFvalue x) /\
  SFltb (SFsub prec emax x y) (S754_zero false) = (SFvalue x <? SFvalue y).
Proof.
  intros Vx Vy Nx Ny.
  assert (Ht : 0 < top_value) by (unfold top_value; apply Z.pow_pos_nonneg; lia).
  destruct x as [sx|sx| |sx mx ex], y as [sy|sy| |sy my ey];
    try discriminate; simpl in Vx, Vy;
    try (pose proof (finite_value_bounds _ _ Vx) as Bx);
    try (pose proof (finite_value_bounds _ _ Vy) as By_).
  9: {
    unfold SFsub.
    pose proof (bounded_inv _ _ Vx) as (Hx & _).
    pose proof (bounded_inv _ _ Vy) as (Hy & _).
    set (ez := Z.min ex ey).
    assert (Hez : -1074 <= ez <= ex /\ ez <= ey) by (unfold ez; lia).
    assert (Hp : 0 < 2 ^ (ez + 1074)) by (apply Z.pow_pos_nonneg; lia).
    destruct (binary_normalize_sign
                (cond_Zopp sx (Zpos (fst (shl_align mx ex ez))) -
                 cond_Zopp sy (Zpos (fst (shl_align my ey ez)))) ez) as (-> & -> & _);
      [lia|].
    rewrite <- (aligned_value sx mx ex ez), <- (aligned_value sy my ey ez) by lia.
    rewrite !ltb_scale by assumption.
    split; [apply ltb_sub_pos | apply ltb_sub_neg].
  }
  all: unfold SFsub, SFvalue, SFltb, SFcompare;
    repeat match goal with s : bool |- _ => destruct s end;
    split; symmetry;
    first [ apply Z.ltb_lt; lia | apply Z.ltb_ge; lia ].
Qed.

Lemma SFadd_sign x y :
  valid_binary x = true -> valid_binary y = true ->
  SFis_nan x = false -> SFis_nan y = false ->
  SFltb (S754_zero false) (SFadd prec emax x y) = (0 <? SFvalue x + SFvalue y).
Proof.
  intros Vx Vy Nx Ny.
  assert (Ht : 0 < top_value) by (unfold top_value; apply Z.pow_pos_nonneg; lia).
  destruct x as [sx|sx| |sx mx ex], y as [sy|sy| |sy my ey];
    try discriminate; simpl in Vx, Vy;
    try (pose proof (finite_value_bounds _ _ Vx) as Bx);
    try (pose proof (finite_value_bounds _ _ Vy) as By_).
  9: {
    unfold SFadd.
    pose proof (bounded_inv _ _ Vx) as (Hx & _).
    pose proof (bounded_inv _ _ Vy) as (Hy & _).
    set (ez := Z.min ex ey).
    assert (Hez : -1074 <= ez <= ex /\ ez <= ey) by (unfold ez; lia).
    assert (Hp : 0 < 2 ^ (ez + 1074)) by (apply Z.pow_pos_nonneg; lia).
    destruct (binary_normalize_sign
                (cond_Zopp sx (Zpos (fst (shl_align mx ex ez))) +
                 cond_Zopp sy (Zpos (fst (shl_align my ey ez)))) ez) as (-> & _ & _);
      [lia|].
    rewrite <- (aligned_value sx mx ex ez), <- (aligned_value sy my ey ez) by lia.
    rewrite <- Z.mul_add_distr_r.
    rewrite <- (ltb_scale _ _ _ Hp). rewrite Z.mul_0_l. reflexivity.
  }
  all: unfold SFadd, SFvalue, SFltb, SFcompare;
    repeat match goal with s : bool |- _ => destruct s end;
    symmetry;
    first [ apply Z.ltb_lt; lia | apply Z.ltb_ge; lia ].
Qed.

(** *** The primitive operations *)

Lemma Prim2SF_zero : Prim2SF 0%float = S754_zero false.
Proof. reflexivity. Qed.

Lemma is_nan_spec x : PrimFloat.is_nan x = SFis_nan (Prim2SF x).
Proof.
  unfold PrimFloat.is_nan. rewrite FloatAxioms.eqb_spec. unfold SFeqb.
  destruct (Prim2SF x) as [s|s| |s m e] eqn:E; try reflexivity.
  - destruct s; reflexivity.
  - pose proof (Prim2SF_valid x) as V. rewrite E in V.
    rewrite SFcompare_value by (assumption || reflexivity).
    now rewrite Z.compare_refl.
Qed.

Lemma compare_value a b :
  PrimFloat.is_nan a = false -> PrimFloat.is_nan b = false ->
  SFcompare (Prim2SF a) (Prim2SF b) = Some (value a ?= value b).
Proof.
  intros Na Nb. rewrite is_nan_spec in Na, Nb.
  apply SFcompare_value; auto using Prim2SF_valid.
Qed.

Lemma ltb_value a b :
  PrimFloat.is_nan a = false -> PrimFloat.is_nan b = false ->
  PrimFloat.ltb a b = (value a <? value b).
Proof.
  intros Na Nb. rewrite FloatAxioms.ltb_spec. unfold SFltb.
  rewrite compare_value by assumption. unfold Z.ltb.
  destruct (value a ?= value b); reflexivity.
Qed.

Lemma leb_value a b :
  PrimFloat.is_nan a = false -> PrimFloat.is_nan b = false ->
  PrimFloat.leb a b = (value a <=? value b).
Proof.
  intros Na Nb. rewrite FloatAxioms.leb_spec. unfold SFleb.
  rewrite compare_value by assumption. unfold Z.leb.
  destruct (value a ?= value b); reflexivity.
Qed.

Lemma eqb_value a b :
  PrimFloat.is_nan a = false -> PrimFloat.is_nan b = false ->
  PrimFloat.eqb a b = (value a =? value b).
Proof.
  intros Na Nb. rewrite FloatAxioms.eqb_spec. unfold SFeqb.
  rewrite compare_value by assumption.
  destruct (Z.compare_spec (value a) (value b)); symmetry;
    [apply Z.eqb_eq | apply Z.eqb_neq | apply Z.eqb_neq]; lia.
Qed.

Lemma ltb_not_nan a b :
  PrimFloat.ltb a b = true ->
  PrimFloat.is_nan a = false /\ PrimFloat.is_nan b = false.
Proof.
  rewrite FloatAxioms.ltb_spec, !is_nan_spec. unfold SFltb.
  destruct (Prim2SF a), (Prim2SF b); simpl; intros H;
    try discriminate; split; reflexivity.
Qed.

Lemma leb_not_nan a b :
  PrimFloat.leb a b = true ->
  PrimFloat.is_nan a = false /\ PrimFloat.is_nan b = false.
Proof.
  rewrite FloatAxioms.leb_spec, !is_nan_spec. unfold SFleb.
  destruct (Prim2SF a), (Prim2SF b); simpl; intros H;
    try discriminate; split; reflexivity.
Qed.

Lemma eqb_not_nan a b :
  PrimFloat.eqb a b = true ->
  PrimFloat.is_nan a = false /\ PrimFloat.is_nan b = false.
Proof.
  rewrite FloatAxioms.eqb_spec, !is_nan_spec. unfold SFeqb.
  destruct (Prim2SF a), (Prim2SF b); simpl; intros H;
    try discriminate; split; reflexivity.
Qed.

(** [0 < b - a] exactly when [a < b]: the comparator of the sort. *)
Lemma sub_positive a b :
  PrimFloat.is_nan a = false -> PrimFloat.is_nan b = false ->
  PrimFloat.ltb 0 (PrimFloat.sub b a) = (value a <? value b).
Proof.
  intros Na Nb. rewrite is_nan_spec in Na, Nb.
  rewrite FloatAxioms.ltb_spec, FloatAxioms.sub_spec, Prim2SF_zero.
  apply SFsub_sign; auto using Prim2SF_valid.
Qed.

Lemma add_positive a b :
  PrimFloat.is_nan a = false -> PrimFloat.is_nan b = false ->
  PrimFloat.ltb 0 (PrimFloat.add a b) = (0 <? value a + value b).
Proof.
  intros Na Nb. rewrite is_nan_spec in Na, Nb.
  rewrite FloatAxioms.ltb_spec, FloatAxioms.add_spec, Prim2SF_zero.
  apply SFadd_sign; auto using Prim2SF_valid.
Qed.

(** A positive Number is truthy and not below or equal to zero. *)
Lemma positive_value a : PrimFloat.ltb 0 a = true <-> 
  PrimFloat.is_nan a = false /\ 0 < value a.
Proof.
  split.
  - intros H. destruct (ltb_not_nan _ _ H) as [N0 Na]. split; [assumption|].
    rewrite ltb_value in H by assumption. now apply Z.ltb_lt in H.
  - intros [Na H]. rewrite ltb_value by (reflexivity || assumption).
    now apply Z.ltb_lt.
Qed.

Lemma positive_truthy a : PrimFloat.ltb 0 a = true -> num_truthy a = true.
Proof.
  intros H. apply positive_value in H as [Na Hv].
  unfold num_truthy, PrimFloat.is_zero. rewrite Na.
  rewrite eqb_value by (reflexivity || assumption).
  change (value PrimFloat.zero) with 0.
  destruct (Z.eqb_spec (value a) 0); [lia | reflexivity].
Qed.

(** What passes the amount test of [validateInput] is positive. *)
Lemma accepted_amount_positive a :
  negb (num_truthy a) || PrimFloat.leb a 0%float = false ->
  PrimFloat.ltb 0 a = true.
Proof.
  intros H. apply orb_false_elim in H as [H1 H2].
  apply negb_false_iff in H1. unfold num_truthy in H1.
  apply negb_true_iff, orb_false_elim in H1 as [Na _].
  rewrite leb_value in H2 by (reflexivity || assumption).
  apply positive_value. split; [assumption|].
  change (value 0%float) with 0 in H2. apply Z.leb_gt in H2. exact H2.
Qed.

(** [===] on Numbers is symmetric and transitive. *)
Lemma strict_eq_sym a b : strict_eq a b = true -> strict_eq b a = true.
Proof.
  unfold strict_eq. intros H. destruct (eqb_not_nan _ _ H) as [Na Nb].
  rewrite eqb_value in * by assumption. apply Z.eqb_eq in H.
  apply Z.eqb_eq. lia.
Qed.

Lemma strict_eq_trans a b c :
  strict_eq a b = true -> strict_eq b c = true -> strict_eq a c = true.
Proof.
  unfold strict_eq. intros H1 H2.
  destruct (eqb_not_nan _ _ H1) as [Na Nb].
  destruct (eqb_not_nan _ _ H2) as [_ Nc].
  rewrite eqb_value in * by assumption. apply Z.eqb_eq in H1, H2.
  apply Z.eqb_eq. lia.
Qed.

End Binary64.

(** ** Strings *)

Module Strings.

Import JS.

Lemma str_eqb_eq a : forall b, str_eqb a b = true <-> a = b.
Proof.
  induction a as [|x a IH]; intros [|y b]; simpl; split; intros H;
    try discriminate; try reflexivity.
  - apply andb_prop in H as [H1 H2]. apply N.eqb_eq in H1.
    apply IH in H2. congruence.
  - injection H as -> ->. rewrite N.eqb_refl. now apply IH.
Qed.

Lemma str_eqb_refl a : str_eqb a a = true.
Proof. now apply str_eqb_eq. Qed.

Lemma str_eqb_neq a b : str_eqb a b = false <-> a <> b.
Proof.
  split.
  - intros H E. apply str_eqb_eq in E. congruence.
  - intros H. destruct (str_eqb a b) eqn:E; [|reflexivity].
    apply str_eqb_eq in E. contradiction.
Qed.

Lemma str_eqb_sym a b : str_eqb a b = str_eqb b a.
Proof.
  destruct (str_eqb a b) eqn:E.
  - apply str_eqb_eq in E. subst. now rewrite str_eqb_refl.
  - apply str_eqb_neq in E. symmetry. apply str_eqb_neq. congruence.
Qed.

Lemma existsb_str_In k l : existsb (str_eqb k) l = true <-> In k l.
Proof.
  rewrite existsb_exists. split.
  - intros (x & Hx & E). apply str_eqb_eq in E. now subst.
  - intros H. exists k. split; [assumption | apply str_eqb_refl].
Qed.

Lemma existsb_str_not_In k l : existsb (str_eqb k) l = false <-> ~ In k l.
Proof.
  rewrite <- existsb_str_In. destruct (existsb (str_eqb k) l); split;
    intros H; congruence.
Qed.

End Strings.

(** ** Ordinary objects *)

Module Objects.

Import JS Strings.

Section Laws.

Context {V : Type}.
Implicit Types (o : object V) (k : jsstring) (v : V).

Lemma obj_get_In o k v : obj_get o k = Some v -> In (k, v) o.
Proof.
  induction o as [|[k' v'] o IH]; simpl; [discriminate|].
  destruct (str_eqb k' k) eqn:E.
  - intros [= ->]. apply str_eqb_eq in E. subst. now left.
  - intros H. right. now apply IH.
Qed.

Lemma obj_get_None o k : obj_get o k = None <-> ~ In k (map fst o).
Proof.
  induction o as [|[k' v'] o IH]; simpl.
  - split; [intros _ [] | reflexivity].
  - destruct (str_eqb k' k) eqn:E.
    + apply str_eqb_eq in E. subst. split; [discriminate | intros H].
      exfalso. apply H. now left.
    + apply str_eqb_neq in E. rewrite IH. split; intros H; [|tauto].
      intros [H1|H1]; [congruence | contradiction].
Qed.

Lemma In_obj_get o k v :
  NoDup (map fst o) -> In (k, v) o -> obj_get o k = Some v.
Proof.
  induction o as [|[k' v'] o IH]; simpl; intros ND H; [contradiction|].
  inversion ND as [|? ? Hn ND']; subst.
  destruct H as [H|H].
  - injection H as -> ->. now rewrite str_eqb_refl.
  - destruct (str_eqb k' k) eqn:E.
    + apply str_eqb_eq in E. subst. exfalso. apply Hn.
      apply (in_map fst) in H. exact H.
    + now apply IH.
Qed.

Lemma obj_get_app o o' k :
  obj_get (o ++ o') k =
  match obj_get o k with Some v => Some v | None => obj_get o' k end.
Proof.
  induction o as [|[k' v'] o IH]; simpl; [reflexivity|].
  destruct (str_eqb k' k); [reflexivity | apply IH].
Qed.

Lemma obj_get_replace o k v k' :
  obj_get (obj_replace o k v) k' =
  if str_eqb k k'
  then match obj_get o k with Some _ => Some v | None => None end
  else obj_get o k'.
Proof.
  induction o as [|[k0 v0] o IH]; simpl.
  - now destruct (str_eqb k k').
  - destruct (str_eqb k0 k) eqn:E0; simpl.
    + apply str_eqb_eq in E0. subst k0.
      destruct (str_eqb k k'); reflexivity.
    + destruct (str_eqb k0 k') eqn:E1.
      * apply str_eqb_eq in E1. subst k0.
        rewrite str_eqb_sym, E0. reflexivity.
      * apply IH.
Qed.

Lemma obj_get_insert_index o i k v k' :
  obj_get o k = None ->
  obj_get (obj_insert_index o i k v) k' =
  if str_eqb k k' then Some v else obj_get o k'.
Proof.
  induction o as [|[k0 v0] o IH]; simpl; intros Hk.
  - reflexivity.
  - destruct (str_eqb k0 k) eqn:E0; [discriminate|].
    destruct (array_index k0) as [j|];
      [destruct (Z.ltb i j)|]; simpl; try reflexivity.
    destruct (str_eqb k0 k') eqn:E1.
    + apply str_eqb_eq in E1. subst k0.
      rewrite str_eqb_sym, E0. reflexivity.
    + now apply IH.
Qed.

(** Reading after writing. *)
Lemma obj_get_set o k v k' :
  obj_get (obj_set o k v) k' =
  if str_eqb k k' then Some v else obj_get o k'.
Proof.
  unfold obj_set. destruct (obj_get o k) as [v0|] eqn:E.
  - rewrite obj_get_replace, E. reflexivity.
  - destruct (array_index k) as [i|].
    + now apply obj_get_insert_index.
    + rewrite obj_get_app. simpl.
      destruct (str_eqb k k') eqn:E1.
      * apply str_eqb_eq in E1. subst k'. now rewrite E.
      * now destruct (obj_get o k').
Qed.

Lemma obj_set_nonempty o k v : obj_set o k v <> [].
Proof.
  intros H. pose proof (obj_get_set o k v k) as E.
  rewrite H, str_eqb_refl in E. discriminate.
Qed.

Lemma keys_replace o k v : map fst (obj_replace o k v) = map fst o.
Proof.
  induction o as [|[k0 v0] o IH]; simpl; [reflexivity|].
  destruct (str_eqb k0 k); simpl; [reflexivity | now rewrite IH].
Qed.

Lemma keys_insert_index o i k v :
  exists l1 l2,
    map fst o = l1 ++ l2 /\
    map fst (obj_insert_index o i k v) = l1 ++ k :: l2.
Proof.
  induction o as [|[k0 v0] o IH]; simpl.
  - now exists [], [].
  - destruct (array_index k0) as [j|]; [destruct (Z.ltb i j)|].
    + now exists [], (k0 :: map fst o).
    + destruct IH as (l1 & l2 & E1 & E2).
      exists (k0 :: l1), l2. simpl. now rewrite E1, E2.
    + now exists [], (k0 :: map fst o).
Qed.

(** Writing keeps the keys distinct. *)
Lemma keys_set_NoDup o k v :
  NoDup (map fst o) -> NoDup (map fst (obj_set o k v)).
Proof.
  intros ND. unfold obj_set. destruct (obj_get o k) as [v0|] eqn:E.
  - now rewrite keys_replace.
  - apply obj_get_None in E.
    destruct (array_index k) as [i|].
    + destruct (keys_insert_index o i k v) as (l1 & l2 & E1 & E2).
      rewrite E2. rewrite E1 in ND, E.
      apply (NoDup_Add (Add_app k l1 l2)). split; assumption.
    + rewrite map_app. simpl.
      pose proof (Add_app k (map fst o) []) as HA.
      rewrite app_nil_r in HA.
      apply (NoDup_Add HA). split; assumption.
Qed.

(** Writing under a key that is not an array index: a new key goes to
    the end. *)
Lemma keys_set_plain o k v :
  array_index k = None ->
  map fst (obj_set o k v) =
  if existsb (str_eqb k) (map fst o) then map fst o else map fst o ++ [k].
Proof.
  intros Hk. unfold obj_set. destruct (obj_get o k) as [v0|] eqn:E.
  - rewrite keys_replace.
    apply obj_get_In, (in_map fst) in E. simpl in E.
    apply existsb_str_In in E. now rewrite E.
  - apply obj_get_None, existsb_str_not_In in E. rewrite E, Hk.
    now rewrite map_app.
Qed.

End Laws.

End Objects.

(** ** Array.prototype.sort with the comparator of [updateSummary] *)

Module Sorting.

Import JS App Spec Binary64.
Local Open Scope Z_scope.

Lemma sort_insert_head (x : jsstring * total_value) l :
  hd_error (sort_insert by_total_descending x l) =
  match l with
  | [] => Some x
  | y :: _ =>
      if PrimFloat.ltb 0 (by_total_descending x y) then Some y else Some x
  end.
Proof.
  destruct l as [|y l]; simpl; [reflexivity|].
  destruct (PrimFloat.ltb 0 (by_total_descending x y)); reflexivity.
Qed.

Lemma sort_nonempty (l : list (jsstring * total_value)) :
  l <> [] -> Array_sort by_total_descending l <> [].
Proof.
  destruct l as [|x l]; [congruence|]. intros _. simpl.
  destruct (Array_sort by_total_descending l) as [|y r]; simpl;
    [discriminate|].
  destruct (PrimFloat.ltb 0 (by_total_descending x y)); discriminate.
Qed.

(** The first entry of the sorted array: an entry of the largest total,
    and the first such entry of the unsorted array. *)
Lemma sort_head (l : list (jsstring * total_value)) :
  l <> [] ->
  Forall (fun kv => PrimFloat.is_nan (ToNumber (snd kv)) = false) l ->
  exists l1 h l2,
    l = l1 ++ h :: l2 /\
    hd_error (Array_sort by_total_descending l) = Some h /\
    (forall y, In y l1 ->
               value (ToNumber (snd y)) < value (ToNumber (snd h))) /\
    (forall y, In y l2 ->
               value (ToNumber (snd y)) <= value (ToNumber (snd h))).
Proof.
  induction l as [|x l IH]; [congruence|]. intros _ HN.
  inversion HN as [|? ? Nx HN']; subst.
  destruct l as [|x' l'].
  - exists [], x, []. simpl. repeat split; intros y [].
  - destruct IH as (l1 & h & l2 & E & Hh & H1 & H2); [discriminate | assumption |].
    assert (Nh : PrimFloat.is_nan (ToNumber (snd h)) = false).
    { rewrite Forall_forall in HN'. apply HN'. rewrite E.
      apply in_or_app. right. now left. }
    change (Array_sort by_total_descending (x :: x' :: l'))
      with (sort_insert by_total_descending x
              (Array_sort by_total_descending (x' :: l'))).
    rewrite sort_insert_head.
    destruct (Array_sort by_total_descending (x' :: l')) as [|y r] eqn:Es;
      [discriminate|].
    simpl in Hh. injection Hh as ->.
    unfold by_total_descending.
    rewrite sub_positive by assumption.
    destruct (Z.ltb_spec (value (ToNumber (snd x)))
                (value (ToNumber (snd h)))) as [L|G].
    + exists (x :: l1), h, l2. rewrite E. repeat split; try assumption.
      intros y0 [<-|Hy]; [assumption | now apply H1].
    + exists [], x, (x' :: l'). repeat split; [intros y0 []|].
      intros y0 Hy. rewrite E in Hy.
      apply in_app_or in Hy as [Hy|[<-|Hy]].
      * specialize (H1 _ Hy). lia.
      * assumption.
      * specialize (H2 _ Hy). lia.
Qed.

End Sorting.

(** ** JSON.parse returns or throws *)

Module JSONFacts.

Import JS JSON Spec Strings.

(** *** What the scanners leave is no longer than what they get *)

Lemma skip_ws_length s : List.length (skip_ws s) <= List.length s.
Proof.
  induction s as [|c s IH]; simpl; [lia|].
  destruct (is_json_ws c); simpl; lia.
Qed.

Lemma skip_ws_cons s c r :
  skip_ws s = c :: r -> List.length r < List.length s.
Proof.
  intros H. pose proof (skip_ws_length s) as L. rewrite H in L.
  simpl in L. lia.
Qed.

Lemma parse_string_body_length n : forall s t r,
  List.length s <= n ->
  parse_string_body s = Some (t, r) -> List.length r < List.length s.
Proof.
  induction n as [|n IH]; intros s t r Hn H.
  - destruct s; [discriminate | simpl in Hn; lia].
  - destruct s as [|c s1]; [discriminate|]. simpl in H, Hn.
    destruct (N.eqb c 34).
    { injection H as _ <-. simpl. lia. }
    destruct (N.eqb c 92).
    { destruct s1 as [|e s2]; [discriminate|].
      destruct (N.eqb e 117).
      - destruct s2 as [|h1 [|h2 [|h3 [|h4 s3]]]]; try discriminate.
        destruct (hex4 h1 h2 h3 h4); [|discriminate].
        destruct (parse_string_body s3) as [[t' r']|] eqn:E; [|discriminate].
        injection H as _ <-. apply IH in E; simpl in *; lia.
      - destruct (simple_escape e); [|discriminate].
        destruct (parse_string_body s2) as [[t' r']|] eqn:E; [|discriminate].
        injection H as _ <-. apply IH in E; simpl in *; lia. }
    destruct (N.ltb c 32); [discriminate|].
    destruct (parse_string_body s1) as [[t' r']|] eqn:E; [|discriminate].
    injection H as _ <-. apply IH in E; simpl in *; lia.
Qed.

Lemma span_app_eq p s : forall a b, span p s = (a, b) -> s = a ++ b.
Proof.
  induction s as [|c s IH]; simpl; intros a b H.
  - now injection H as <- <-.
  - destruct (p c).
    + destruct (span p s) as [a' b'] eqn:E. injection H as <- <-.
      simpl. f_equal. now apply IH.
    + now injection H as <- <-.
Qed.

Lemma span_length p s a b :
  span p s = (a, b) -> List.length b <= List.length s.
Proof.
  intros H. apply span_app_eq in H. subst s. rewrite length_app. lia.
Qed.

Lemma scan_sign_length s neg r :
  scan_sign s = (neg, r) -> List.length r <= List.length s.
Proof.
  unfold scan_sign. destruct s as [|c s]; [intros [= _ <-]; lia|].
  destruct (N.eqb c 45); intros [= _ <-]; simpl; lia.
Qed.

Lemma scan_int_length s ip r :
  scan_int s = (ip, r) -> List.length r <= List.length s.
Proof.
  unfold scan_int. destruct s as [|c s]; [intros [= _ <-]; lia|].
  destruct (N.eqb c 48); [intros [= _ <-]; simpl; lia|].
  apply span_length.
Qed.

Lemma scan_frac_length s fp r :
  scan_frac s = Some (fp, r) -> List.length r <= List.length s.
Proof.
  unfold scan_frac. destruct s as [|c s]; [intros [= _ <-]; lia|].
  destruct (N.eqb c 46); [|intros [= _ <-]; lia].
  destruct (span is_digit s) as [fp' r'] eqn:E. apply span_length in E.
  destruct fp'; [discriminate|]. intros [= _ <-]. simpl. lia.
Qed.

Lemma scan_exp_sign_length s neg r :
  scan_exp_sign s = (neg, r) -> List.length r <= List.length s.
Proof.
  unfold scan_exp_sign. destruct s as [|c s]; [intros [= _ <-]; lia|].
  destruct (N.eqb c 45); [intros [= _ <-]; simpl; lia|].
  destruct (N.eqb c 43); intros [= _ <-]; simpl; lia.
Qed.

Lemma scan_exp_length s ex r :
  scan_exp s = Some (ex, r) -> List.length r <= List.length s.
Proof.
  unfold scan_exp. destruct s as [|c s]; [intros [= _ <-]; lia|].
  destruct (N.eqb c 101 || N.eqb c 69); [|intros [= _ <-]; lia].
  destruct (scan_exp_sign s) as [eneg s3] eqn:E1.
  apply scan_exp_sign_length in E1.
  destruct (span is_digit s3) as [ds r'] eqn:E. apply span_length in E.
  destruct ds; [discriminate|]. intros [= _ <-]. simpl. lia.
Qed.

Lemma scan_number_length s x r :
  scan_number s = Some (x, r) -> List.length r <= List.length s.
Proof.
  unfold scan_number.
  destruct (scan_sign s) as [neg s0] eqn:E0. apply scan_sign_length in E0.
  destruct (scan_int s0) as [ip s1] eqn:E1. apply scan_int_length in E1.
  destruct ip as [|d ip]; [discriminate|].
  destruct (scan_frac s1) as [[fp s2]|] eqn:E2; [|discriminate].
  apply scan_frac_length in E2.
  destruct (scan_exp s2) as [[ex s4]|] eqn:E3; [|discriminate].
  apply scan_exp_length in E3.
  intros [= _ <-]. lia.
Qed.

Lemma after_keyword_length w : forall s r,
  after_keyword w s = Some r -> List.length r <= List.length s.
Proof.
  induction w as [|x w IH]; intros s r H; simpl in H.
  - injection H as <-. lia.
  - destruct s as [|y s]; [discriminate|].
    destruct (N.eqb x y); [|discriminate]. apply IH in H. simpl. lia.
Qed.

(** *** The productions *)

Ltac syntax_error := split; [discriminate | intros; discriminate].

Lemma value_body_settles elements members n :
  settles elements n -> settles members n ->
  settles_value (value_body elements members) (S n).
Proof.
  intros He Hm s Hs. unfold value_body.
  destruct (skip_ws s) as [|c r] eqn:E; [syntax_error|].
  apply skip_ws_cons in E.
  destruct (N.eqb c 34).
  { destruct (parse_string_body r) as [[t r']|] eqn:Ep; [|syntax_error].
    apply (parse_string_body_length _ _ _ _ (Nat.le_refl _)) in Ep.
    split; [discriminate|]. intros v r0 [= _ <-]. lia. }
  destruct (N.eqb c 91).
  { destruct (skip_ws r) as [|c' r'] eqn:E'; [syntax_error|].
    apply skip_ws_cons in E'.
    destruct (N.eqb c' 93).
    - split; [discriminate|]. intros v r0 [= _ <-]. lia.
    - destruct (He (c' :: r') []) as [H1 H2]; [simpl; lia|].
      split; [assumption|]. intros v r0 H. apply H2 in H. simpl in H. lia. }
  destruct (N.eqb c 123).
  { destruct (skip_ws r) as [|c' r'] eqn:E'; [syntax_error|].
    apply skip_ws_cons in E'.
    destruct (N.eqb c' 125).
    - split; [discriminate|]. intros v r0 [= _ <-]. lia.
    - destruct (Hm (c' :: r') []) as [H1 H2]; [simpl; lia|].
      split; [assumption|]. intros v r0 H. apply H2 in H. simpl in H. lia. }
  destruct (N.eqb c 116).
  { destruct (after_keyword _ _) as [r'|] eqn:Ek; [|syntax_error].
    apply after_keyword_length in Ek. simpl in Ek.
    split; [discriminate|]. intros v r0 [= _ <-]. lia. }
  destruct (N.eqb c 102).
  { destruct (after_keyword _ _) as [r'|] eqn:Ek; [|syntax_error].
    apply after_keyword_length in Ek. simpl in Ek.
    split; [discriminate|]. intros v r0 [= _ <-]. lia. }
  destruct (N.eqb c 110).
  { destruct (after_keyword _ _) as [r'|] eqn:Ek; [|syntax_error].
    apply after_keyword_length in Ek. simpl in Ek.
    split; [discriminate|]. intros v r0 [= _ <-]. lia. }
  destruct (scan_number (c :: r)) as [[x r']|] eqn:En; [|syntax_error].
  apply scan_number_length in En. simpl in En.
  split; [discriminate|]. intros v r0 [= _ <-]. lia.
Qed.

Lemma elements_body_settles value elements n :
  settles_value value n -> settles elements n ->
  settles (elements_body value elements) (S n).
Proof.
  intros Hv He s acc Hs. unfold elements_body.
  destruct (Hv s) as [H1 H2]; [lia|].
  destruct (value s) as [[v r]| |]; [|syntax_error|congruence].
  specialize (H2 v r eq_refl).
  destruct (skip_ws r) as [|c r'] eqn:E; [syntax_error|].
  apply skip_ws_cons in E.
  destruct (N.eqb c 44).
  - destruct (He r' (v :: acc)) as [H3 H4]; [lia|].
    split; [assumption|]. intros v0 r0 H. apply H4 in H. lia.
  - destruct (N.eqb c 93); [|syntax_error].
    split; [discriminate|]. intros v0 r0 [= _ <-]. lia.
Qed.

Lemma members_body_settles value members n :
  settles_value value n -> settles members n ->
  settles (members_body value members) (S n).
Proof.
  intros Hv Hm s acc Hs. unfold members_body.
  destruct (skip_ws s) as [|c r] eqn:E; [syntax_error|].
  apply skip_ws_cons in E.
  destruct (N.eqb c 34); [|syntax_error].
  destruct (parse_string_body r) as [[k r1]|] eqn:Ep; [|syntax_error].
  apply (parse_string_body_length _ _ _ _ (Nat.le_refl _)) in Ep.
  destruct (skip_ws r1) as [|c1 r2] eqn:E1; [syntax_error|].
  apply skip_ws_cons in E1.
  destruct (N.eqb c1 58); [|syntax_error].
  destruct (Hv r2) as [H1 H2]; [lia|].
  destruct (value r2) as [[v r3]| |]; [|syntax_error|congruence].
  specialize (H2 v r3 eq_refl).
  destruct (skip_ws r3) as [|c3 r4] eqn:E3; [syntax_error|].
  apply skip_ws_cons in E3.
  destruct (N.eqb c3 44).
  - destruct (Hm r4 (obj_set acc k v)) as [H3 H4]; [lia|].
    split; [assumption|]. intros v0 r0 H. apply H4 in H. lia.
  - destruct (N.eqb c3 125); [|syntax_error].
    split; [discriminate|]. intros v0 r0 [= _ <-]. lia.
Qed.

Lemma parser_settles n :
  settles_value (parse_value n) n /\
  settles (parse_elements n) n /\ settles (parse_members n) n.
Proof.
  induction n as [|n (IHv & IHe & IHm)].
  - repeat split; intros; simpl in *; lia.
  - split; [|split].
    + exact (value_body_settles _ _ n IHe IHm).
    + exact (elements_body_settles _ _ n IHv IHe).
    + exact (members_body_settles _ _ n IHv IHm).
Qed.

(** [JSON.parse] returns a value or throws a SyntaxError. *)
Theorem parse_text_total text : parse_text text <> OutOfFuel.
Proof.
  unfold parse_text.
  destruct (parser_settles (2 * List.length text + 1)) as (Hv & _ & _).
  destruct (Hv text (Nat.le_refl _)) as [H _].
  destruct (parse_value _ text) as [[v r]| |]; [|discriminate|congruence].
  destruct (skip_ws r); discriminate.
Qed.

Lemma parse_None_malformed text : parse text = None <-> malformed text.
Proof.
  unfold parse, malformed. pose proof (parse_text_total text) as H.
  destruct (parse_text text); split; intros E; congruence.
Qed.

End JSONFacts.

(** ** JSON.parse reads back what JSON.stringify writes *)

Module RoundTrip.

Import JS JSON Spec Strings JSONFacts.
Local Open Scope N_scope.

(** *** Strings *)

Lemma hex_digit_value n : n < 16 -> hex_value (hex_digit n) = Some n.
Proof.
  intros H. rewrite <- (N2Nat.id n).
  assert (Hk : (N.to_nat n < 16)%nat) by lia.
  destruct (N.to_nat n) as [|k]; [reflexivity|].
  do 15 (destruct k as [|k]; [reflexivity|]). lia.
Qed.

Lemma hex4_escape c :
  c < 65536 ->
  hex4 (hex_digit (c / 4096 mod 16)) (hex_digit (c / 256 mod 16))
       (hex_digit (c / 16 mod 16)) (hex_digit (c mod 16)) = Some c.
Proof.
  intros H. unfold hex4.
  rewrite !hex_digit_value by (apply N.mod_lt; discriminate).
  f_equal. zify. Z.to_euclidean_division_equations. lia.
Qed.

Lemma literal_unit c rest t r :
  N.eqb c 34 = false -> N.eqb c 92 = false -> N.ltb c 32 = false ->
  parse_string_body rest = Some (t, r) ->
  parse_string_body (c :: rest) = Some (c :: t, r).
Proof.
  intros H1 H2 H3 H. simpl. now rewrite H1, H2, H3, H.
Qed.

Lemma escaped_unit c rest t r :
  c < 65536 ->
  parse_string_body rest = Some (t, r) ->
  parse_string_body (unicode_escape c ++ rest) = Some (c :: t, r).
Proof.
  intros Hc H. unfold unicode_escape.
  cbn [app parse_string_body].
  change (N.eqb 92 34) with false. change (N.eqb 92 92) with true.
  change (N.eqb 117 117) with true. cbv iota.
  now rewrite (hex4_escape c Hc), H.
Qed.

Lemma quote_unit_parse c rest t r :
  c < 65536 ->
  parse_string_body rest = Some (t, r) ->
  parse_string_body (quote_unit c ++ rest) = Some (c :: t, r).
Proof.
  intros Hc H. unfold quote_unit.
  destruct (N.eqb_spec c 8) as [->|N8]; [simpl; now rewrite H|].
  destruct (N.eqb_spec c 9) as [->|N9]; [simpl; now rewrite H|].
  destruct (N.eqb_spec c 10) as [->|N10]; [simpl; now rewrite H|].
  destruct (N.eqb_spec c 12) as [->|N12]; [simpl; now rewrite H|].
  destruct (N.eqb_spec c 13) as [->|N13]; [simpl; now rewrite H|].
  destruct (N.eqb_spec c 34) as [->|N34]; [simpl; now rewrite H|].
  destruct (N.eqb_spec c 92) as [->|N92]; [simpl; now rewrite H|].
  destruct ((c <? 32) || is_high_surrogate c || is_low_surrogate c) eqn:E.
  - now apply escaped_unit.
  - apply orb_false_elim in E as [E _]. apply orb_false_elim in E as [E _].
    apply literal_unit; try assumption; now apply N.eqb_neq.
Qed.

Lemma quote_body_two c d s :
  quote_body (c :: d :: s) =
  if is_high_surrogate c && is_low_surrogate d
  then c :: d :: quote_body s
  else quote_unit c ++ quote_body (d :: s).
Proof. reflexivity. Qed.

Lemma quote_body_parse n : forall s rest,
  (List.length s <= n)%nat -> string_wf s ->
  parse_string_body (quote_body s ++ 34 :: rest) = Some (s, rest).
Proof.
  induction n as [|n IH]; intros s rest Hn Hs.
  - destruct s; [reflexivity | simpl in Hn; lia].
  - destruct s as [|c [|d s]]; [reflexivity | |].
    + inversion Hs as [|? ? Hc _]; subst.
      cbn [quote_body]. now apply quote_unit_parse.
    + inversion Hs as [|? ? Hc Hs']; subst.
      inversion Hs' as [|? ? Hd Hs'']; subst.
      rewrite quote_body_two.
      destruct (is_high_surrogate c && is_low_surrogate d) eqn:E.
      * apply andb_prop in E as [E1 E2].
        unfold is_high_surrogate in E1. unfold is_low_surrogate in E2.
        apply andb_prop in E1 as [E1 _]. apply andb_prop in E2 as [E2 _].
        apply N.leb_le in E1, E2.
        cbn [app].
        apply literal_unit;
          [apply N.eqb_neq; lia | apply N.eqb_neq; lia | apply N.ltb_ge; lia|].
        apply literal_unit;
          [apply N.eqb_neq; lia | apply N.eqb_neq; lia | apply N.ltb_ge; lia|].
        apply IH; [simpl in Hn; lia | assumption].
      * rewrite <- app_assoc. apply quote_unit_parse; [assumption|].
        apply IH; [simpl in *; lia | assumption].
Qed.

(** A quoted string reads back as the string. *)
Lemma quote_parse s rest :
  string_wf s ->
  parse_string_body (quote_body s ++ 34 :: rest) = Some (s, rest).
Proof. apply (quote_body_parse (List.length s)). lia. Qed.

(** *** Numbers *)

Lemma ends_number_head rest :
  ends_number rest ->
  match rest with
  | [] => True
  | c :: _ =>
      is_digit c = false /\ N.eqb c 46 = false /\ N.eqb c 101 = false
      /\ N.eqb c 69 = false /\ N.eqb c 43 = false /\ N.eqb c 45 = false
  end.
Proof.
  destruct rest as [|c rest]; [trivial|]. unfold ends_number, number_char.
  intros H. repeat (apply orb_false_elim in H as [H ?]). tauto.
Qed.

Lemma span_digits_app s rest :
  ends_number rest ->
  span is_digit (s ++ rest) =
  (fst (span is_digit s), snd (span is_digit s) ++ rest).
Proof.
  intros H. induction s as [|c s IH]; cbn [app span fst snd].
  - destruct rest as [|c rest]; [reflexivity|].
    apply ends_number_head in H as (Hd & _).
    cbn [span]. now rewrite Hd.
  - destruct (is_digit c); [|reflexivity].
    rewrite IH. now destruct (span is_digit s).
Qed.

Lemma scan_sign_app s rest :
  ends_number rest ->
  scan_sign (s ++ rest) = (fst (scan_sign s), snd (scan_sign s) ++ rest).
Proof.
  intros H. unfold scan_sign. destruct s as [|c s]; cbn [app fst snd].
  - destruct rest as [|c rest]; [reflexivity|].
    apply ends_number_head in H as (_ & _ & _ & _ & _ & ->). reflexivity.
  - now destruct (N.eqb c 45).
Qed.

Lemma scan_int_app s rest :
  ends_number rest ->
  scan_int (s ++ rest) = (fst (scan_int s), snd (scan_int s) ++ rest).
Proof.
  intros H. unfold scan_int. destruct s as [|c s].
  - cbn [app fst snd]. destruct rest as [|c rest]; [reflexivity|].
    pose proof (ends_number_head _ H) as (Hd & _).
    assert (N.eqb c 48 = false) as ->.
    { apply N.eqb_neq. intros ->. discriminate. }
    cbn [span]. now rewrite Hd.
  - rewrite <- app_comm_cons. destruct (N.eqb c 48); [reflexivity|].
    rewrite app_comm_cons. now apply span_digits_app.
Qed.

Lemma scan_frac_app s rest :
  ends_number rest ->
  scan_frac (s ++ rest) =
  match scan_frac s with
  | Some (fp, r) => Some (fp, r ++ rest)
  | None => None
  end.
Proof.
  intros H. unfold scan_frac. destruct s as [|c s].
  - cbn [app]. destruct rest as [|c rest]; [reflexivity|].
    apply ends_number_head in H as (_ & -> & _). reflexivity.
  - rewrite <- app_comm_cons. destruct (N.eqb c 46); [|reflexivity].
    rewrite span_digits_app by assumption.
    destruct (span is_digit s) as [[|d fp] r]; reflexivity.
Qed.

Lemma scan_exp_sign_app s rest :
  ends_number rest ->
  scan_exp_sign (s ++ rest) =
  (fst (scan_exp_sign s), snd (scan_exp_sign s) ++ rest).
Proof.
  intros H. unfold scan_exp_sign. destruct s as [|c s]; cbn [app fst snd].
  - destruct rest as [|c rest]; [reflexivity|].
    apply ends_number_head in H as (_ & _ & _ & _ & -> & ->). reflexivity.
  - destruct (N.eqb c 45); [reflexivity|]. now destruct (N.eqb c 43).
Qed.

Lemma scan_exp_app s rest :
  ends_number rest ->
  scan_exp (s ++ rest) =
  match scan_exp s with
  | Some (ex, r) => Some (ex, r ++ rest)
  | None => None
  end.
Proof.
  intros H. unfold scan_exp. destruct s as [|c s].
  - cbn [app]. destruct rest as [|c rest]; [reflexivity|].
    apply ends_number_head in H as (_ & _ & -> & -> & _). reflexivity.
  - rewrite <- app_comm_cons.
    destruct (N.eqb c 101 || N.eqb c 69); [|reflexivity].
    rewrite scan_exp_sign_app by assumption.
    destruct (scan_exp_sign s) as [eneg s3]. simpl fst. simpl snd.
    rewrite span_digits_app by assumption.
    destruct (span is_digit s3) as [[|d ds] r]; reflexivity.
Qed.

(** A number token followed by a character that cannot continue it. *)
Lemma scan_number_app s rest :
  ends_number rest ->
  scan_number (s ++ rest) =
  match scan_number s with
  | Some (x, r) => Some (x, r ++ rest)
  | None => None
  end.
Proof.
  intros H. unfold scan_number.
  rewrite scan_sign_app by assumption.
  destruct (scan_sign s) as [neg s0]. simpl fst. simpl snd.
  rewrite scan_int_app by assumption.
  destruct (scan_int s0) as [ip s1]. simpl fst. simpl snd.
  destruct ip as [|d ip]; [reflexivity|].
  rewrite scan_frac_app by assumption.
  destruct (scan_frac s1) as [[fp s2]|]; [|reflexivity].
  rewrite scan_exp_app by assumption.
  destruct (scan_exp s2) as [[ex s4]|]; reflexivity.
Qed.

(** A number token starts with a minus sign or a digit. *)
Lemma scan_number_head s x r :
  scan_number s = Some (x, r) ->
  exists c t, s = c :: t /\ (c = 45 \/ is_digit c = true).
Proof.
  unfold scan_number, scan_sign. destruct s as [|c s]; [discriminate|].
  intros H. exists c, s. split; [reflexivity|].
  destruct (N.eqb_spec c 45) as [->|Hc]; [now left|]. right.
  unfold scan_int in H. destruct (N.eqb_spec c 48) as [->|Hz]; [reflexivity|].
  simpl in H. destruct (is_digit c); [reflexivity | discriminate].
Qed.

Lemma number_head_dispatch c :
  c = 45 \/ is_digit c = true ->
  is_json_ws c = false /\ N.eqb c 34 = false /\ N.eqb c 91 = false
  /\ N.eqb c 123 = false /\ N.eqb c 116 = false /\ N.eqb c 102 = false
  /\ N.eqb c 110 = false /\ N.eqb c 93 = false /\ N.eqb c 125 = false.
Proof.
  intros [->|H]; [repeat split|].
  unfold is_digit in H. apply andb_prop in H as [H1 H2].
  apply N.leb_le in H1, H2. unfold is_json_ws.
  repeat split; try (apply N.eqb_neq; lia).
  repeat (apply orb_false_intro); apply N.eqb_neq; lia.
Qed.

(** *** Values *)

Lemma json_induction (P : json -> Prop) :
  P JNull -> (forall b, P (JBool b)) -> (forall x, P (JNum x)) ->
  (forall s, P (JStr s)) ->
  (forall l, Forall P l -> P (JArr l)) ->
  (forall o, Forall (fun kv => P (snd kv)) o -> P (JObj o)) ->
  forall v, P v.
Proof.
  intros Hn Hb Hx Hs Ha Ho. fix F 1. intros [ |b|x|s|l|o].
  - exact Hn.
  - apply Hb.
  - apply Hx.
  - apply Hs.
  - apply Ha. induction l as [|v l IH]; constructor; [apply F | exact IH].
  - apply Ho. induction o as [|[k v] o IH]; constructor; [apply F | exact IH].
Qed.

Lemma json_wf_array l : json_wf (JArr l) <-> Forall json_wf l.
Proof.
  induction l as [|v l IH].
  - split; [constructor | intros; exact I].
  - change (json_wf (JArr (v :: l))) with (json_wf v /\ json_wf (JArr l)).
    rewrite IH. split.
    + intros [H1 H2]. now constructor.
    + intros H. inversion H as [|? ? H1 H2]; subst. now split.
Qed.

Lemma json_wf_members o :
  (fix all (o : list (jsstring * json)) : Prop :=
     match o with
     | [] => True
     | (k, x) :: o' => string_wf k /\ json_wf x /\ all o'
     end) o <->
  Forall (fun kv => string_wf (fst kv) /\ json_wf (snd kv)) o.
Proof.
  induction o as [|[k v] o IH].
  - split; [constructor | intros; exact I].
  - split.
    + intros (H1 & H2 & H3). constructor; [now split | now apply IH].
    + intros H. inversion H as [|? ? [H1 H2] H3]; subst.
      split; [assumption|]. split; [assumption | now apply IH].
Qed.

Lemma join_two sep (x y : jsstring) l :
  join sep (x :: y :: l) = x ++ sep ++ join sep (y :: l).
Proof. reflexivity. Qed.

Lemma parse_value_S n s :
  parse_value (S n) s = value_body (parse_elements n) (parse_members n) s.
Proof. reflexivity. Qed.

Lemma parse_elements_S n s acc :
  parse_elements (S n) s acc =
  elements_body (parse_value n) (parse_elements n) s acc.
Proof. reflexivity. Qed.

Lemma parse_members_S n s acc :
  parse_members (S n) s acc =
  members_body (parse_value n) (parse_members n) s acc.
Proof. reflexivity. Qed.

(** The first character of the text of a value. *)
Lemma stringify_head v :
  json_wf v ->
  exists c t,
    stringify v = c :: t /\ is_json_ws c = false /\ N.eqb c 93 = false.
Proof.
  destruct v as [ |[|]|x|s|l|o]; intros H;
    try (eexists; eexists; split; [reflexivity | split; reflexivity]).
  destruct H as [Hf Hs]. simpl. rewrite Hf.
  destruct (scan_number_head _ _ _ Hs) as (c & t & -> & Hc).
  exists c, t. split; [reflexivity|].
  apply number_head_dispatch in Hc. tauto.
Qed.

Ltac lengths :=
  repeat first [ rewrite length_app in * | progress (cbn [List.length] in *) ];
  lia.

(** The elements of an array, from the first one to the closing
    bracket. *)
Lemma elements_read_back l :
  Forall reads_back l ->
  forall x, reads_back x ->
  forall n acc rest,
    (2 * List.length
           (join [44%N] (List.map stringify (x :: l)) ++ 93%N :: rest)
     + 2 <= n)%nat ->
    parse_elements n (join [44] (List.map stringify (x :: l)) ++ 93 :: rest)
      acc
    = Ok (JArr (rev acc ++ x :: l), rest).
Proof.
  induction 1 as [|y l Hy Hl IH]; intros x Hx n acc rest Hn.
  - destruct n as [|n]; [lia|]. cbn [List.map join] in *.
    rewrite parse_elements_S. unfold elements_body.
    rewrite (Hx n (93 :: rest)) by (lengths || reflexivity).
    reflexivity.
  - destruct n as [|n]; [lia|].
    cbn [List.map] in *. rewrite join_two in *.
    rewrite <- !app_assoc in *. cbn [app] in *.
    rewrite parse_elements_S. unfold elements_body.
    rewrite (Hx n) by (lengths || reflexivity).
    cbn [skip_ws is_json_ws]. 
    change (is_json_ws 44) with false. cbv iota.
    change (N.eqb 44 44) with true. cbv iota.
    rewrite (IH y Hy n (x :: acc) rest) by lengths.
    cbn [rev]. now rewrite <- app_assoc.
Qed.

Lemma member_text_pair k v :
  member_text (k, v) = 34 :: quote_body k ++ 34 :: 58 :: stringify v.
Proof.
  unfold member_text, quote. simpl fst. simpl snd.
  cbn [app]. now rewrite <- app_assoc.
Qed.

(** The members of an object, from the first one to the closing brace. *)
Lemma members_read_back o :
  Forall (fun kv => reads_back (snd kv)) o ->
  Forall (fun kv => string_wf (fst kv)) o ->
  forall kv, reads_back (snd kv) -> string_wf (fst kv) ->
  forall n acc rest,
    (2 * List.length
           (join [44%N] (List.map member_text (kv :: o)) ++ 125%N :: rest)
     + 2 <= n)%nat ->
    parse_members n (join [44] (List.map member_text (kv :: o)) ++ 125 :: rest)
      acc
    = Ok (JObj (fold_left (fun acc kv => obj_set acc (fst kv) (snd kv))
                  (kv :: o) acc), rest).
Proof.
  induction 1 as [|kv' o Hy Hl IH]; intros Hk' [k v] Hv Hk n acc rest Hn;
    simpl fst in *; simpl snd in *.
  - destruct n as [|n]; [lia|]. cbn [List.map join] in *.
    rewrite member_text_pair in *.
    rewrite <- ?app_assoc in *. cbn [app] in *.
    rewrite <- ?app_assoc in *. cbn [app] in *.
    rewrite parse_members_S. unfold members_body.
    cbn [skip_ws]. change (is_json_ws 34) with false. cbv iota.
    change (N.eqb 34 34) with true. cbv iota.
    rewrite quote_parse by assumption.
    cbn [skip_ws]. change (is_json_ws 58) with false. cbv iota.
    change (N.eqb 58 58) with true. cbv iota.
    rewrite (Hv n (125 :: rest)) by (lengths || reflexivity).
    reflexivity.
  - inversion Hk' as [|? ? Hk1 Hk2]; subst.
    destruct n as [|n]; [lia|].
    cbn [List.map] in *. rewrite join_two in *.
    rewrite member_text_pair in *.
    rewrite <- ?app_assoc in *. cbn [app] in *.
    rewrite <- ?app_assoc in *. cbn [app] in *.
    rewrite parse_members_S. unfold members_body.
    cbn [skip_ws]. change (is_json_ws 34) with false. cbv iota.
    change (N.eqb 34 34) with true. cbv iota.
    rewrite quote_parse by assumption.
    cbn [skip_ws]. change (is_json_ws 58) with false. cbv iota.
    change (N.eqb 58 58) with true. cbv iota.
    rewrite (Hv n) by (lengths || reflexivity).
    cbn [skip_ws]. change (is_json_ws 44) with false. cbv iota.
    change (N.eqb 44 44) with true. cbv iota.
    rewrite (IH Hk2 kv' Hy Hk1 n (obj_set acc k v) rest) by lengths.
    reflexivity.
Qed.

Lemma keyword_reads_back (v : json) :
  v = JNull \/ v = JBool true \/ v = JBool false -> reads_back v.
Proof.
  intros H n rest Hn _. destruct n as [|n]; [lia|].
  destruct H as [->|[->| ->]]; reflexivity.
Qed.

Lemma number_reads_back x : number_exact x -> reads_back (JNum x).
Proof.
  intros [Hf Hs] n rest Hn Hr. destruct n as [|n]; [lia|].
  cbn [stringify]. rewrite Hf.
  destruct (scan_number_head _ _ _ Hs) as (c & t & E & Hc).
  pose proof (scan_number_app (Number_toString x) rest Hr) as Ha.
  rewrite Hs in Ha. rewrite E in *. cbn [app] in *.
  apply number_head_dispatch in Hc as (H1 & H2 & H3 & H4 & H5 & H6 & H7 & _).
  rewrite parse_value_S. unfold value_body. cbn [skip_ws].
  rewrite H1, H2, H3, H4, H5, H6, H7, Ha. reflexivity.
Qed.

Lemma string_reads_back s : string_wf s -> reads_back (JStr s).
Proof.
  intros Hs n rest Hn _. destruct n as [|n]; [lia|].
  cbn [stringify]. unfold quote. cbn [app]. rewrite <- app_assoc. cbn [app].
  rewrite parse_value_S. unfold value_body. cbn [skip_ws].
  change (is_json_ws 34) with false. cbv iota.
  change (N.eqb 34 34) with true. cbv iota.
  now rewrite quote_parse.
Qed.

Lemma array_reads_back l :
  Forall reads_back l -> Forall json_wf l -> reads_back (JArr l).
Proof.
  intros Hl Hw n rest Hn _. destruct n as [|n]; [lia|].
  cbn [stringify] in *. cbn [app] in *. rewrite <- app_assoc in *.
  cbn [app] in *.
  rewrite parse_value_S. unfold value_body. cbn [skip_ws].
  change (is_json_ws 91) with false. cbv iota.
  change (N.eqb 91 34) with false. change (N.eqb 91 91) with true. cbv iota.
  destruct l as [|x l]; [reflexivity|].
  inversion Hl as [|? ? Hx Hl']; subst. inversion Hw as [|? ? Wx _]; subst.
  pose proof (elements_read_back l Hl' x Hx n [] rest) as He.
  destruct (stringify_head x Wx) as (c & t & E & Hc & H93).
  assert (Ej : exists t', join [44] (List.map stringify (x :: l)) = c :: t').
  { destruct l as [|y l]; cbn [List.map].
    - cbn [join]. now exists t.
    - rewrite join_two, E. cbn [app]. eexists. reflexivity. }
  destruct Ej as (t' & Ej). rewrite Ej in *. cbn [app] in *.
  cbn [skip_ws]. rewrite Hc, H93. apply He. lengths.
Qed.

Lemma object_reads_back o :
  Forall (fun kv => reads_back (snd kv)) o ->
  Forall (fun kv => string_wf (fst kv)) o ->
  fold_left (fun acc kv => obj_set acc (fst kv) (snd kv)) o [] = o ->
  reads_back (JObj o).
Proof.
  intros Hl Hk Ho n rest Hn _. destruct n as [|n]; [lia|].
  cbn [stringify] in *. cbn [app] in *. rewrite <- app_assoc in *.
  cbn [app] in *.
  rewrite parse_value_S. unfold value_body. cbn [skip_ws].
  change (is_json_ws 123) with false. cbv iota.
  change (N.eqb 123 34) with false. change (N.eqb 123 91) with false.
  change (N.eqb 123 123) with true. cbv iota.
  destruct o as [|[k v] o]; [reflexivity|].
  inversion Hl as [|? ? Hx Hl']; subst. inversion Hk as [|? ? Kx Hk']; subst.
  pose proof (members_read_back o Hl' Hk' (k, v) Hx Kx n [] rest) as He.
  rewrite Ho in He.
  change (fun kv : jsstring * json => quote (fst kv) ++ 58 :: stringify (snd kv))
    with member_text in *.
  assert (Ej : exists t', join [44] (List.map member_text ((k, v) :: o))
                          = 34 :: t').
  { destruct o as [|y o]; cbn [List.map].
    - cbn [join]. rewrite member_text_pair. eexists. reflexivity.
    - rewrite join_two, member_text_pair. cbn [app]. eexists. reflexivity. }
  destruct Ej as (t' & Ej). unfold jsstring, code_unit in *.
  rewrite Ej in *. cbn [app] in *.
  cbn [skip_ws]. change (is_json_ws 34) with false. cbv iota.
  change (N.eqb 34 125) with false. cbv iota.
  apply He. lengths.
Qed.

(** Every well-formed value is read back from its text. *)
Theorem stringify_reads_back v : json_wf v -> reads_back v.
Proof.
  induction v as [ |b|x|s|l IH|o IH] using json_induction; intros Hw.
  - apply keyword_reads_back. now left.
  - apply keyword_reads_back. right. destruct b; [now left | now right].
  - now apply number_reads_back.
  - now apply string_reads_back.
  - apply json_wf_array in Hw. apply array_reads_back; [|assumption].
    rewrite Forall_forall in *. intros v Hv. apply IH; auto.
  - destruct Hw as [Hw Ho]. apply json_wf_members in Hw.
    apply object_reads_back; [| |assumption].
    + rewrite Forall_forall in *. intros kv Hkv. apply IH; [assumption|].
      now apply Hw.
    + rewrite Forall_forall in *. intros kv Hkv. now apply Hw.
Qed.

Theorem parse_stringify v : json_wf v -> JSON.parse (stringify v) = Some v.
Proof.
  intros Hw. unfold JSON.parse, parse_text.
  pose proof (stringify_reads_back v Hw
                (2 * List.length (stringify v) + 1)%nat []) as H.
  rewrite app_nil_r in H. rewrite H by (lia || exact I). reflexivity.
Qed.

End RoundTrip.

(* ================================================================== *)
(** * Facts about script.js *)
(* ================================================================== *)

Module AppFacts.

Import JS JSON App Spec Strings Binary64.
Local Open Scope action_scope.

(** ** Sequencing *)

Lemma bind_Normal {A B} (m : action A) (k : A -> action B) st a st' :
  m st = (Normal a, st') -> bind m k st = k a st'.
Proof. intros H. unfold bind. now rewrite H. Qed.

Lemma bind_get {B} (k : state -> action B) st : bind get k st = k st st.
Proof. reflexivity. Qed.

Lemma bind_modify {B} f (k : unit -> action B) st :
  bind (modify f) k st = k tt (f st).
Proof. reflexivity. Qed.

(** ** What each function leaves alone *)

Lemma keeps_expenses_bind {A B} (m : action A) (k : A -> action B) :
  keeps_expenses m -> (forall a, keeps_expenses (k a)) ->
  keeps_expenses (bind m k).
Proof.
  intros Hm Hk st. unfold bind. specialize (Hm st).
  destruct (m st) as [[a|e|v] st']; simpl in *; try assumption.
  now rewrite Hk.
Qed.

Lemma keeps_data_bind {A B} (m : action A) (k : A -> action B) :
  keeps_data m -> (forall a, keeps_data (k a)) -> keeps_data (bind m k).
Proof.
  intros Hm Hk st. unfold bind. specialize (Hm st).
  destruct (m st) as [[a|e|v] st']; simpl in *; try assumption.
  destruct (Hk a st') as [H1 H2]. destruct Hm as [H3 H4].
  split; congruence.
Qed.

Lemma keeps_data_expenses {A} (m : action A) :
  keeps_data m -> keeps_expenses m.
Proof. intros H st. apply H. Qed.

Lemma keeps_data_ret {A} (a : A) : keeps_data (ret a).
Proof. intros st. split; reflexivity. Qed.

Lemma keeps_data_get : keeps_data get.
Proof. intros st. split; reflexivity. Qed.

Lemma keeps_data_throw {A} e : keeps_data (@throw A e).
Proof. intros st. split; reflexivity. Qed.

Lemma keeps_data_page (f : state -> document) :
  keeps_data (modify (fun st => set_page (f st) st)).
Proof. intros st. split; reflexivity. Qed.

Lemma keeps_data_showError message : keeps_data (showError message).
Proof. apply keeps_data_page. Qed.

Lemma keeps_data_hideError : keeps_data hideError.
Proof. apply keeps_data_page. Qed.

Lemma keeps_data_clearForm today : keeps_data (clearForm today).
Proof. apply keeps_data_page. Qed.

Lemma keeps_data_renderExpenses : keeps_data renderExpenses.
Proof.
  unfold renderExpenses. apply keeps_data_bind; [apply keeps_data_get|].
  intros st.
  destruct (Nat.eqb _ 0); [apply keeps_data_page|].
  destruct (all_some _); [apply keeps_data_page | apply keeps_data_throw].
Qed.

Lemma keeps_data_updateSummary : keeps_data updateSummary.
Proof.
  unfold updateSummary. apply keeps_data_bind; [apply keeps_data_get|].
  intros st.
  destruct (Nat.eqb _ 0); [apply keeps_data_page|].
  destruct (highest _) as [h|]; [|apply keeps_data_page].
  destruct (option_text _ _); [apply keeps_data_page|].
  apply keeps_data_bind; [apply keeps_data_page|].
  intros _. apply keeps_data_throw.
Qed.

Lemma keeps_expenses_saveExpenses : keeps_expenses saveExpenses.
Proof.
  intros st. unfold saveExpenses, bind, get. simpl.
  destruct (N.leb _ _); reflexivity.
Qed.

(** The three calls that follow every mutation. *)
Lemma keeps_expenses_refresh {A} (k : action A) :
  keeps_expenses k ->
  keeps_expenses (saveExpenses ;; renderExpenses ;; updateSummary ;; k).
Proof.
  intros Hk.
  apply keeps_expenses_bind; [apply keeps_expenses_saveExpenses|]. intros _.
  apply keeps_expenses_bind;
    [apply keeps_data_expenses, keeps_data_renderExpenses|]. intros _.
  apply keeps_expenses_bind;
    [apply keeps_data_expenses, keeps_data_updateSummary|]. intros _.
  exact Hk.
Qed.

Lemma keeps_expenses_refresh_end :
  keeps_expenses (saveExpenses ;; renderExpenses ;; updateSummary).
Proof.
  apply keeps_expenses_bind; [apply keeps_expenses_saveExpenses|]. intros _.
  apply keeps_expenses_bind;
    [apply keeps_data_expenses, keeps_data_renderExpenses|]. intros _.
  apply keeps_data_expenses, keeps_data_updateSummary.
Qed.

(** ** validateInput and addExpense *)

Lemma validateInput_accepts st :
  accepted (page st) = true -> validateInput st = (Normal true, st).
Proof.
  unfold accepted, validateInput, bind, get. simpl. intros H.
  apply andb_prop in H as [H H3]. apply andb_prop in H as [H1 H2].
  apply negb_true_iff in H1. rewrite H1, H2, H3. reflexivity.
Qed.

Lemma validateInput_rejects st :
  accepted (page st) = false ->
  exists st', validateInput st = (Normal false, st') /\ rejected st st'.
Proof.
  unfold accepted, validateInput, rejected, validation_messages.
  rewrite bind_get. intros H.
  destruct (negb (num_truthy _) || PrimFloat.leb _ 0); simpl in H.
  - eexists. split; [reflexivity|]. eexists. split; [|reflexivity].
    now left.
  - destruct (str_truthy (trim _)); simpl in H.
    + destruct (str_truthy (dateInput_value _)); [discriminate|].
      eexists. split; [reflexivity|]. eexists. split; [|reflexivity].
      right. right. now left.
    + eexists. split; [reflexivity|]. eexists. split; [|reflexivity].
      right. now left.
Qed.

Lemma rejected_data st st' :
  rejected st st' ->
  expenses st' = expenses st /\ stored st' = stored st /\
  quota st' = quota st /\
  errorMessage_display (page st') = str "block".
Proof. intros (message & _ & ->). repeat split. Qed.

(** A rejected form: [addExpense] stops after [validateInput]. *)
Lemma addExpense_rejects now today st :
  accepted (page st) = false ->
  exists st', addExpense now today st = (Normal tt, st') /\ rejected st st'.
Proof.
  intros H. destruct (validateInput_rejects st H) as (st' & E & H1).
  exists st'. split; [|assumption].
  unfold addExpense. now rewrite (bind_Normal _ _ _ _ _ E).
Qed.

(** An accepted form: the draft goes to the front, whatever the calls
    after the mutation do. *)
Lemma addExpense_accepts now today st :
  accepted (page st) = true ->
  expenses (snd (addExpense now today st)) =
  draft now (page st) :: expenses st.
Proof.
  intros H. unfold addExpense.
  rewrite (bind_Normal _ _ _ _ _ (validateInput_accepts st H)).
  cbv beta. change (negb true) with false. cbv iota.
  rewrite bind_get, bind_modify.
  rewrite keeps_expenses_refresh
    by apply keeps_data_expenses, keeps_data_clearForm.
  reflexivity.
Qed.

Lemma addExpense_expenses now today st :
  expenses (snd (addExpense now today st)) =
  if accepted (page st) then draft now (page st) :: expenses st
  else expenses st.
Proof.
  destruct (accepted (page st)) eqn:E.
  - now apply addExpense_accepts.
  - destruct (addExpense_rejects now today st E) as (st' & -> & H).
    apply (rejected_data _ _ H).
Qed.

(** ** deleteExpense and clearAllExpenses *)

Lemma deleteExpense_expenses id0 confirmed st :
  expenses (snd (deleteExpense id0 confirmed st)) =
  if confirmed
  then List.filter (fun e => strict_neq (id e) id0) (expenses st)
  else expenses st.
Proof.
  unfold deleteExpense. destruct confirmed; [|reflexivity].
  rewrite bind_modify. now rewrite keeps_expenses_refresh_end.
Qed.

Lemma clearAllExpenses_expenses confirmed st :
  expenses (snd (clearAllExpenses confirmed st)) =
  if confirmed then [] else expenses st.
Proof.
  unfold clearAllExpenses. rewrite bind_get.
  destruct (Nat.eqb (List.length (expenses st)) 0) eqn:E.
  - rewrite (keeps_data_expenses _ (keeps_data_showError _)).
    destruct confirmed; [|reflexivity].
    destruct (expenses st); [reflexivity | discriminate].
  - destruct confirmed; [|reflexivity].
    rewrite bind_modify. now rewrite keeps_expenses_refresh_end.
Qed.

(** ** Events *)

Lemma step_expenses ev st :
  expenses (step ev st) = expenses st
  \/ (exists now, accepted (page st) = true /\
        expenses (step ev st) = draft now (page st) :: expenses st)
  \/ (exists id0,
        expenses (step ev st) =
        List.filter (fun e => strict_neq (id e) id0) (expenses st))
  \/ expenses (step ev st) = [].
Proof.
  unfold step. destruct ev; simpl handle.
  - now left.
  - now left.
  - left. unfold modify. simpl. now destruct (option_text _ _).
  - now left.
  - left. rewrite bind_modify.
    now rewrite (keeps_data_expenses _ keeps_data_renderExpenses).
  - rewrite addExpense_expenses.
    destruct (accepted (page st)) eqn:E; [|now left].
    right. left. now exists now.
  - rewrite deleteExpense_expenses. destruct confirmed; [|now left].
    right. right. left. now exists id0.
  - rewrite clearAllExpenses_expenses. destruct confirmed; [|now left].
    now repeat right.
  - now left.
Qed.

(** A draft that passed [validateInput] satisfies the field invariants. *)
Lemma accepted_draft_valid now p :
  accepted p = true -> valid_record (draft now p).
Proof.
  unfold accepted. intros H.
  apply andb_prop in H as [H _]. apply andb_prop in H as [H1 H2].
  apply negb_true_iff in H1. split.
  - now apply accepted_amount_positive.
  - simpl. destruct (trim _); [discriminate | discriminate].
Qed.

(** The field invariants are kept by every event. *)
Lemma step_valid ev st :
  Forall valid_record (expenses st) ->
  Forall valid_record (expenses (step ev st)).
Proof.
  intros H.
  destruct (step_expenses ev st) as [E|[(now & Ha & E)|[(id0 & E)|E]]];
    rewrite E.
  - assumption.
  - constructor; [now apply accepted_draft_valid | assumption].
  - rewrite Forall_forall in *. intros e He.
    apply filter_In in He as [He _]. now apply H.
  - constructor.
Qed.

Lemma run_valid evs : forall st,
  Forall valid_record (expenses st) ->
  Forall valid_record (expenses (run evs st)).
Proof.
  induction evs as [|ev evs IH]; intros st H; simpl; [assumption|].
  apply IH. now apply step_valid.
Qed.

End AppFacts.

(** ** Saving and loading *)

Module Storage.

Import JS JSON App Spec Strings JSONFacts RoundTrip AppFacts.
Local Open Scope action_scope.

Lemma ascii_wf (s : string) : string_wf (str s).
Proof.
  unfold string_wf, str. apply Forall_forall. intros c Hc.
  apply in_map_iff in Hc as (a & <- & _).
  pose proof (N_ascii_bounded a). lia.
Qed.

Lemma expense_to_json_wf e : storable e -> json_wf (expense_to_json e).
Proof.
  intros (H1 & H2 & H3 & H4 & H5). unfold expense_to_json.
  split; [|reflexivity].
  exact (conj (ascii_wf _) (conj H1
        (conj (ascii_wf _) (conj H2
        (conj (ascii_wf _) (conj H3
        (conj (ascii_wf _) (conj H4
        (conj (ascii_wf _) (conj H5 I)))))))))).
Qed.

Lemma expenses_to_json_wf l :
  Forall storable l -> json_wf (expenses_to_json l).
Proof.
  intros H. unfold expenses_to_json. apply json_wf_array.
  apply Forall_forall. intros v Hv. apply in_map_iff in Hv as (e & <- & He).
  apply expense_to_json_wf. rewrite Forall_forall in H. now apply H.
Qed.

Lemma expense_of_to_json e : expense_of_json (expense_to_json e) = Some e.
Proof. now destruct e. Qed.

Lemma expenses_of_to_json l : expenses_of_json (expenses_to_json l) = Some l.
Proof.
  unfold expenses_of_json, expenses_to_json. rewrite map_map.
  induction l as [|e l IH]; [reflexivity|]. cbn [List.map all_some].
  now rewrite expense_of_to_json, IH.
Qed.


Lemma serialize_truthy l : str_truthy (serialize l) = true.
Proof. reflexivity. Qed.


(** The calls that end [loadExpenses], on the empty list. *)
Lemma render_and_summary_of_nothing st :
  expenses st = [] ->
  exists st',
    (renderExpenses ;; updateSummary) st = (Normal tt, st') /\
    expenses st' = [] /\ stored st' = stored st.
Proof.
  intros E. unfold bind at 1.
  assert (Hr : exists st1, renderExpenses st = (Normal tt, st1)
                           /\ expenses st1 = [] /\ stored st1 = stored st).
  { unfold renderExpenses. rewrite bind_get, E.
    assert (Hv : visible [] (filterCategory_value (page st)) = []).
    { unfold visible. now destruct (str_eqb _ _). }
    rewrite Hv. eexists. split; [reflexivity|]. now split. }
  destruct Hr as (st1 & -> & E1 & S1).
  assert (Hs : exists st2, updateSummary st1 = (Normal tt, st2)
                           /\ expenses st2 = [] /\ stored st2 = stored st1).
  { unfold updateSummary. rewrite bind_get, E1.
    eexists. split; [reflexivity|]. now split. }
  destruct Hs as (st2 & -> & E2 & S2).
  exists st2. repeat split; congruence.
Qed.

(** The list [loadExpenses] leaves, by the content of the slot. *)
Lemma loadExpenses_expenses st :
  expenses (snd (loadExpenses st)) =
  match stored st with
  | Some text =>
      if str_truthy text then
        match JSON.parse text with
        | Some v =>
            match expenses_of_json v with
            | Some l => l
            | None => expenses st
            end
        | None => []
        end
      else expenses st
  | None => expenses st
  end.
Proof.
  assert (Hk : keeps_expenses (renderExpenses ;; updateSummary)).
  { apply keeps_expenses_bind;
      [apply keeps_data_expenses, keeps_data_renderExpenses|].
    intros _. apply keeps_data_expenses, keeps_data_updateSummary. }
  unfold loadExpenses. rewrite bind_get.
  destruct (stored st) as [text|];
    [|rewrite (bind_Normal _ _ st tt st eq_refl); apply Hk].
  destruct (str_truthy text);
    [|rewrite (bind_Normal _ _ st tt st eq_refl); apply Hk].
  destruct (JSON.parse text) as [v|];
    [|rewrite bind_modify; apply Hk].
  destruct (expenses_of_json v) as [l|]; [|reflexivity].
  rewrite bind_modify. apply Hk.
Qed.

Lemma startup_expenses today st0 :
  expenses (snd (startup today st0)) =
  match stored st0 with
  | Some text =>
      if str_truthy text then
        match JSON.parse text with
        | Some v =>
            match expenses_of_json v with
            | Some l => l
            | None => []
            end
        | None => []
        end
      else []
  | None => []
  end.
Proof.
  unfold startup. rewrite !bind_modify. now rewrite loadExpenses_expenses.
Qed.

(** The start on a slot that is absent, empty or malformed. *)
Lemma loadExpenses_falls_back st :
  expenses st = [] ->
  stored st = None \/ stored st = Some []
  \/ (exists text, stored st = Some text /\ malformed text) ->
  exists st',
    loadExpenses st = (Normal tt, st') /\
    expenses st' = [] /\ stored st' = stored st.
Proof.
  intros E H. unfold loadExpenses. rewrite bind_get.
  assert (Hload :
    exists st1,
      match stored st with
      | Some text =>
          if str_truthy text then
            match JSON.parse text with
            | Some v =>
                match expenses_of_json v with
                | Some l => modify (set_expenses l)
                | None => fun st => (Untyped v, st)
                end
            | None => modify (set_expenses [])
            end
          else ret tt
      | None => ret tt
      end st = (Normal tt, st1)
      /\ expenses st1 = [] /\ stored st1 = stored st).
  { destruct H as [H|[H|(text & H & Hm)]]; rewrite H.
    - exists st. now repeat split.
    - exists st. now repeat split.
    - apply parse_None_malformed in Hm. rewrite Hm.
      destruct (str_truthy text).
      + exists (set_expenses [] st). now repeat split.
      + exists st. now repeat split. }
  destruct Hload as (st1 & Hl & E1 & S1).
  rewrite (bind_Normal _ _ _ _ _ Hl).
  destruct (render_and_summary_of_nothing st1 E1) as (st' & Hr & E' & S').
  exists st'. split; [exact Hr|]. split; congruence.
Qed.

End Storage.

(** ** The summary: totals per category and their maximum *)

Module Totals.

Import JS JSON App Spec Strings Binary64 Objects Sorting.
Local Open Scope Z_scope.

(** Adding positive amounts to a Number that is not negative. *)
Lemma sum_nonnegative (l : list expense) : forall acc,
  Forall positive_amount l ->
  PrimFloat.is_nan acc = false -> 0 <= value acc ->
  let r := fold_left (fun sum e => PrimFloat.add sum (amount e)) l acc in
  PrimFloat.is_nan r = false /\ value acc <= value r \/
  PrimFloat.is_nan r = false /\ 0 < value r.
Proof.
  induction l as [|e l IH]; intros acc HF Na Hv; simpl.
  - left. split; [assumption | lia].
  - inversion HF as [|? ? He HF']; subst.
    apply positive_value in He as [Ne He].
    assert (Hp : PrimFloat.ltb 0 (PrimFloat.add acc (amount e)) = true).
    { rewrite add_positive by assumption. apply Z.ltb_lt. lia. }
    apply positive_value in Hp as [Ns Hs].
    right. destruct (IH (PrimFloat.add acc (amount e)) HF' Ns) as [[N1 H1]|[N1 H1]];
      [lia | split; [assumption | lia] | split; assumption].
Qed.

Lemma sum_positive (l : list expense) :
  Forall positive_amount l -> l <> [] ->
  PrimFloat.ltb 0
    (fold_left (fun sum e => PrimFloat.add sum (amount e)) l 0%float) = true.
Proof.
  destruct l as [|e l]; [congruence|]. intros HF _. simpl.
  inversion HF as [|? ? He HF']; subst.
  apply positive_value in He as [Ne He].
  assert (Hp : PrimFloat.ltb 0 (PrimFloat.add 0 (amount e)) = true).
  { rewrite add_positive by (reflexivity || assumption).
    change (value 0%float) with 0. apply Z.ltb_lt. lia. }
  apply positive_value in Hp as [Ns Hs].
  apply positive_value.
  destruct (sum_nonnegative l (PrimFloat.add 0 (amount e)) HF' Ns) as [[N1 H1]|[N1 H1]];
    [lia | split; [assumption | lia] | split; assumption].
Qed.

(** *** Group sums *)

Lemma group_app c l l' : group c (l ++ l') = group c l ++ group c l'.
Proof. apply filter_app. Qed.

Lemma group_sum_snoc c l e :
  group_sum c (l ++ [e]) =
  if str_eqb (category e) c
  then PrimFloat.add (group_sum c l) (amount e)
  else group_sum c l.
Proof.
  unfold group_sum. rewrite group_app, fold_left_app. simpl.
  destruct (str_eqb (category e) c); reflexivity.
Qed.

Lemma group_nonempty c l : In c (categories l) -> group c l <> [].
Proof.
  unfold categories, group. intros H. apply in_map_iff in H as (e & E & He).
  intros Hn.
  assert (Hin : In e (List.filter (fun e => str_eqb (category e) c) l)).
  { apply filter_In. split; [assumption|]. now apply str_eqb_eq. }
  rewrite Hn in Hin. contradiction.
Qed.

Lemma group_empty c l : ~ In c (categories l) -> group c l = [].
Proof.
  unfold categories, group. induction l as [|e l IH]; intros H; simpl;
    [reflexivity|].
  destruct (str_eqb (category e) c) eqn:E.
  - apply str_eqb_eq in E. exfalso. apply H. now left.
  - apply IH. intros H'. apply H. now right.
Qed.

Lemma group_positive c l :
  Forall positive_amount l -> Forall positive_amount (group c l).
Proof.
  rewrite !Forall_forall. intros H e He. apply filter_In in He as [He _].
  now apply H.
Qed.

Lemma group_sum_positive c l :
  Forall positive_amount l -> In c (categories l) ->
  PrimFloat.ltb 0 (group_sum c l) = true.
Proof.
  intros HF Hc. apply sum_positive;
    [now apply group_positive | now apply group_nonempty].
Qed.

Lemma group_sum_absent c l :
  ~ In c (categories l) -> group_sum c l = 0%float.
Proof. intros H. unfold group_sum. now rewrite group_empty. Qed.

(** *** The object built by the reduction *)

Lemma categoryTotals_snoc l e :
  categoryTotals (l ++ [e]) =
  add_to_total (categoryTotals l) (category e) (amount e).
Proof. unfold categoryTotals. now rewrite fold_left_app. Qed.

Lemma own_key_inherited k : own_key k <-> inherited k = false.
Proof. reflexivity. Qed.

(** Under an ordinary property name the entry is a Number. *)
Lemma add_to_total_own acc k a :
  own_key k ->
  add_to_total acc k a =
  match obj_get acc k with
  | Some (Sum t) => obj_set acc k (Sum (PrimFloat.add (num_or t 0) a))
  | Some Text => obj_set acc k Text
  | None => obj_set acc k (Sum (PrimFloat.add 0 a))
  end.
Proof.
  intros H. change (inherited k = false) in H. unfold add_to_total.
  now rewrite H.
Qed.

Lemma add_to_total_keys acc k a k' :
  In k' (map fst (add_to_total acc k a)) -> k' = k \/ In k' (map fst acc).
Proof.
  assert (Hs : forall v, In k' (map fst (obj_set acc k v)) ->
                         k' = k \/ In k' (map fst acc)).
  { intros v. unfold obj_set. destruct (obj_get acc k) eqn:G.
    - rewrite keys_replace. tauto.
    - destruct (array_index k) as [i|].
      + destruct (keys_insert_index acc i k v) as (l1 & l2 & E1 & E2).
        rewrite E2, E1, !in_app_iff. simpl. intuition congruence.
      + rewrite map_app, in_app_iff. simpl. intuition congruence. }
  unfold add_to_total.
  destruct (obj_get acc k) as [[t|]|]; try apply Hs.
  destruct (inherited k); [|apply Hs].
  destruct (str_eqb k (str "__proto__")); [tauto | apply Hs].
Qed.

Lemma add_to_total_NoDup acc k a :
  NoDup (map fst acc) -> NoDup (map fst (add_to_total acc k a)).
Proof.
  intros H. unfold add_to_total.
  destruct (obj_get acc k) as [[t|]|]; try now apply keys_set_NoDup.
  destruct (inherited k); [|now apply keys_set_NoDup].
  destruct (str_eqb k (str "__proto__")); [assumption|].
  now apply keys_set_NoDup.
Qed.

Lemma categoryTotals_nonempty l :
  l <> [] -> Forall (fun e => own_key (category e)) l ->
  categoryTotals l <> [].
Proof.
  intros H HO. destruct (exists_last H) as (l' & e & ->).
  apply Forall_app in HO as [_ He]. inversion He as [|? ? Hk _]; subst.
  rewrite categoryTotals_snoc, add_to_total_own by assumption.
  destruct (obj_get _ _) as [[t|]|]; apply obj_set_nonempty.
Qed.

Lemma highest_defined l :
  l <> [] -> Forall (fun e => own_key (category e)) l -> highest l <> None.
Proof.
  intros H HO E. unfold highest, Object_entries in E.
  apply (sort_nonempty (categoryTotals l) (categoryTotals_nonempty l H HO)).
  destruct (Array_sort _ _); [reflexivity | discriminate].
Qed.

(** Each category of the list has one entry, its group sum. *)
Lemma categoryTotals_get l :
  Forall positive_amount l -> Forall (fun e => own_key (category e)) l ->
  forall c,
    obj_get (categoryTotals l) c =
    if existsb (str_eqb c) (categories l)
    then Some (Sum (group_sum c l)) else None.
Proof.
  induction l as [|e l IH] using rev_ind; intros HF HO c; [reflexivity|].
  apply Forall_app in HF as [HF He].
  apply Forall_app in HO as [HO Hk]. inversion Hk as [|? ? Hk' _]; subst.
  specialize (IH HF HO).
  rewrite categoryTotals_snoc, add_to_total_own by assumption.
  rewrite (IH (category e)), group_sum_snoc.
  unfold categories. rewrite map_app, existsb_app. simpl.
  rewrite orb_false_r. fold (categories l).
  rewrite (str_eqb_sym c (category e)).
  destruct (existsb (str_eqb (category e)) (categories l)) eqn:Ex;
    rewrite obj_get_set.
  - apply existsb_str_In in Ex.
    destruct (str_eqb (category e) c) eqn:E.
    + apply str_eqb_eq in E. subst c. rewrite orb_true_r.
      unfold num_or.
      now rewrite (positive_truthy _ (group_sum_positive _ _ HF Ex)).
    + rewrite orb_false_r. apply IH.
  - apply existsb_str_not_In in Ex.
    destruct (str_eqb (category e) c) eqn:E.
    + apply str_eqb_eq in E. subst c. rewrite orb_true_r.
      now rewrite group_sum_absent.
    + rewrite orb_false_r. apply IH.
Qed.

Lemma categoryTotals_NoDup l : NoDup (map fst (categoryTotals l)).
Proof.
  induction l as [|e l IH] using rev_ind; [constructor|].
  rewrite categoryTotals_snoc. now apply add_to_total_NoDup.
Qed.

Lemma categoryTotals_entry l c t :
  Forall positive_amount l -> Forall (fun e => own_key (category e)) l ->
  In (c, t) (categoryTotals l) ->
  In c (categories l) /\ t = Sum (group_sum c l).
Proof.
  intros HF HO H.
  apply (In_obj_get _ _ _ (categoryTotals_NoDup l)) in H.
  rewrite categoryTotals_get in H by assumption.
  destruct (existsb (str_eqb c) (categories l)) eqn:E; [|discriminate].
  apply existsb_str_In in E. injection H as <-. now split.
Qed.

Lemma categoryTotals_complete l c :
  Forall positive_amount l -> Forall (fun e => own_key (category e)) l ->
  In c (categories l) ->
  In (c, Sum (group_sum c l)) (categoryTotals l).
Proof.
  intros HF HO H. apply obj_get_In.
  rewrite categoryTotals_get by assumption.
  apply existsb_str_In in H. now rewrite H.
Qed.

Lemma categoryTotals_not_nan l :
  Forall positive_amount l -> Forall (fun e => own_key (category e)) l ->
  Forall (fun kv => PrimFloat.is_nan (ToNumber (snd kv)) = false)
    (categoryTotals l).
Proof.
  intros HF HO. apply Forall_forall. intros [c t] H.
  destruct (categoryTotals_entry l c t HF HO H) as [Hc ->]. simpl.
  apply (group_sum_positive _ _ HF), positive_value in Hc. tauto.
Qed.

(** *** The entry with the highest total *)

Lemma highest_largest l :
  l <> [] -> Forall positive_amount l ->
  Forall (fun e => own_key (category e)) l ->
  exists c,
    highest l = Some (c, Sum (group_sum c l)) /\ largest_sum c l.
Proof.
  intros Hl HF HO.
  pose proof (categoryTotals_nonempty l Hl HO) as Hne.
  destruct (sort_head (categoryTotals l) Hne (categoryTotals_not_nan l HF HO))
    as (l1 & [c t] & l2 & E & Hh & H1 & H2).
  assert (Hin : In (c, t) (categoryTotals l))
    by (rewrite E; apply in_or_app; right; now left).
  destruct (categoryTotals_entry l c t HF HO Hin) as [Hc ->].
  exists c. split; [exact Hh|]. split; [assumption|].
  intros c' Hc'.
  pose proof (categoryTotals_complete l c' HF HO Hc') as Hin'.
  pose proof (group_sum_positive _ _ HF Hc) as Pc.
  pose proof (group_sum_positive _ _ HF Hc') as Pc'.
  apply positive_value in Pc as [Nc _]. apply positive_value in Pc' as [Nc' _].
  rewrite leb_value by assumption. apply Z.leb_le.
  rewrite E in Hin'. apply in_app_or in Hin' as [Hy|[Hy|Hy]].
  - specialize (H1 _ Hy). simpl in H1. lia.
  - injection Hy as -> _. lia.
  - specialize (H2 _ Hy). simpl in H2. lia.
Qed.

(** *** The order of the entries *)

Lemma first_occurrences_snoc ks k : forall seen,
  first_occurrences seen (ks ++ [k]) =
  first_occurrences seen ks ++
  (if existsb (str_eqb k) (seen ++ ks) then [] else [k]).
Proof.
  induction ks as [|x ks IH]; intros seen; simpl.
  - rewrite app_nil_r. now destruct (existsb (str_eqb k) seen).
  - destruct (existsb (str_eqb x) seen) eqn:Ex.
    + rewrite IH. f_equal. rewrite !existsb_app. simpl.
      destruct (str_eqb k x) eqn:Ek; [|reflexivity].
      apply str_eqb_eq in Ek. subst x. now rewrite Ex.
    + simpl. rewrite IH. f_equal. f_equal. rewrite !existsb_app. simpl.
      destruct (str_eqb k x); simpl; [now rewrite orb_true_r|reflexivity].
Qed.

Lemma first_occurrences_keys ks : forall seen k,
  existsb (str_eqb k) (seen ++ first_occurrences seen ks) =
  existsb (str_eqb k) (seen ++ ks).
Proof.
  induction ks as [|x ks IH]; intros seen k; simpl; [reflexivity|].
  destruct (existsb (str_eqb x) seen) eqn:Ex.
  - rewrite IH. rewrite !existsb_app. simpl.
    destruct (str_eqb k x) eqn:Ek; [|reflexivity].
    apply str_eqb_eq in Ek. subst x. now rewrite Ex.
  - specialize (IH (x :: seen) k). simpl in IH.
    rewrite !existsb_app in *. simpl.
    destruct (str_eqb k x); simpl in *; [now rewrite !orb_true_r|].
    exact IH.
Qed.

(** With no array index and no member of [Object.prototype] among the
    category codes the entries come in the order in which the categories
    first occur. *)
Lemma categoryTotals_keys l :
  Forall (fun e => own_key (category e)) l ->
  Forall (fun e => array_index (category e) = None) l ->
  map fst (categoryTotals l) = first_occurrences [] (categories l).
Proof.
  induction l as [|e l IH] using rev_ind; intros HO HP; [reflexivity|].
  apply Forall_app in HO as [HO Ho]. inversion Ho as [|? ? Ho' _]; subst.
  apply Forall_app in HP as [HP He]. inversion He as [|? ? Hk _]; subst.
  rewrite categoryTotals_snoc, add_to_total_own by assumption.
  assert (Hs : forall v,
             map fst (obj_set (categoryTotals l) (category e) v) =
             first_occurrences [] (categories (l ++ [e]))).
  { intros v. rewrite keys_set_plain by assumption.
    rewrite IH by assumption.
    unfold categories. rewrite map_app. simpl.
    rewrite first_occurrences_snoc. fold (categories l). simpl.
    pose proof (first_occurrences_keys (categories l) [] (category e)) as Hx.
    simpl in Hx. rewrite Hx.
    destruct (existsb (str_eqb (category e)) (categories l));
      [now rewrite app_nil_r | reflexivity]. }
  destruct (obj_get _ _) as [[t|]|]; apply Hs.
Qed.

(** The part of a list before the first occurrence of a key. *)
Lemma first_occurrences_split ks : forall seen k1 c k2,
  first_occurrences seen ks = k1 ++ c :: k2 ->
  exists p q,
    ks = p ++ c :: q /\
    forall x, In x p -> In x k1 \/ In x seen.
Proof.
  induction ks as [|k ks IH]; intros seen k1 c k2 H; simpl in H.
  - destruct k1; discriminate.
  - destruct (existsb (str_eqb k) seen) eqn:Ex.
    + destruct (IH _ _ _ _ H) as (p & q & -> & Hp).
      exists (k :: p), q. split; [reflexivity|].
      intros x [<-|Hx]; [right; now apply existsb_str_In | now apply Hp].
    + destruct k1 as [|k' k1]; simpl in H.
      * injection H as -> _. exists [], ks. split; [reflexivity|].
        intros x [].
      * injection H as -> H.
        destruct (IH _ _ _ _ H) as (p & q & -> & Hp).
        exists (k' :: p), q. split; [reflexivity|].
        intros x [<-|Hx]; [left; now left|].
        destruct (Hp x Hx) as [H1|[<-|H1]];
          [left; now right | left; now left | now right].
Qed.

Lemma highest_first_largest l :
  l <> [] -> Forall positive_amount l ->
  Forall (fun e => own_key (category e)) l ->
  Forall (fun e => array_index (category e) = None) l ->
  exists c,
    highest l = Some (c, Sum (group_sum c l)) /\ first_largest c l.
Proof.
  intros Hl HF HO HP.
  pose proof (categoryTotals_nonempty l Hl HO) as Hne.
  destruct (highest_largest l Hl HF HO) as (c & Hh & HL).
  exists c. split; [assumption|]. split; [assumption|].
  destruct (sort_head (categoryTotals l) Hne (categoryTotals_not_nan l HF HO))
    as (l1 & h & l2 & E & Hh' & H1 & _).
  unfold highest, Object_entries in Hh. rewrite Hh' in Hh.
  injection Hh as ->.
  pose proof (categoryTotals_keys l HO HP) as HK.
  rewrite E, map_app in HK. simpl in HK. symmetry in HK.
  destruct (first_occurrences_split _ _ _ _ _ HK) as (p & q & Hpq & Hp).
  unfold categories in Hpq.
  apply map_eq_app in Hpq as (before & rest & El & Hb & Hr).
  apply map_eq_cons in Hr as (e & after & Er & He & _).
  exists before, e, after. split; [now rewrite El, Er|]. split; [assumption|].
  intros e' He'.
  assert (Hc' : In (category e') (map fst l1)).
  { destruct (Hp (category e')) as [H|[]]; [|assumption].
    rewrite <- Hb. now apply in_map. }
  apply in_map_iff in Hc' as ([c' t'] & Ec & Hy). simpl in Ec. subst c'.
  assert (Hin : In (category e', t') (categoryTotals l))
    by (rewrite E; apply in_or_app; now left).
  destruct (categoryTotals_entry l _ _ HF HO Hin) as [Hcat ->].
  destruct HL as [Hc _].
  pose proof (group_sum_positive _ _ HF Hc) as Pc.
  pose proof (group_sum_positive _ _ HF Hcat) as Pc'.
  apply positive_value in Pc as [Nc _]. apply positive_value in Pc' as [Nc' _].
  rewrite ltb_value by assumption. apply Z.ltb_lt.
  specialize (H1 _ Hy). simpl in H1. exact H1.
Qed.

End Totals.
(* ================================================================== *)
(** * Facts about the page *)
(* ================================================================== *)

Module PageFacts.

Import JS JSON App Spec Display Strings Objects Sorting AppFacts Totals.
Local Open Scope action_scope.

(** ** Lists of optional results *)

Lemma all_some_Forall2 {A B} (f : A -> option B) (l : list A) :
  forall r, all_some (List.map f l) = Some r ->
            Forall2 (fun x y => f x = Some y) l r.
Proof.
  induction l as [|x l IH]; simpl; intros r H.
  - injection H as <-. constructor.
  - destruct (f x) as [y|] eqn:E; [|discriminate].
    destruct (all_some (List.map f l)) as [r'|]; [|discriminate].
    injection H as <-. constructor; [assumption | now apply IH].
Qed.

Lemma all_some_defined {A B} (f : A -> option B) (l : list A) :
  Forall (fun x => f x <> None) l ->
  exists r, all_some (List.map f l) = Some r.
Proof.
  induction 1 as [|x l Hx _ IH]; simpl; [now exists []|].
  destruct (f x) as [y|]; [|congruence].
  destruct IH as (r & ->). now exists (y :: r).
Qed.

Lemma all_some_None {A B} (f : A -> option B) (l : list A) :
  Exists (fun x => f x = None) l -> all_some (List.map f l) = None.
Proof.
  induction 1 as [x l Hx|x l _ IH]; simpl.
  - now rewrite Hx.
  - destruct (f x); [|reflexivity]. now rewrite IH.
Qed.

(** ** renderExpenses *)

Lemma render_item_of p e it : render_item p e = Some it -> item_of p e it.
Proof.
  unfold render_item, item_of.
  destruct (option_text p (category e)) as [name|]; [|discriminate].
  intros H. injection H as <-. simpl. now repeat split.
Qed.

Lemma render_item_listed p e : listed p e <-> render_item p e <> None.
Proof.
  unfold listed, render_item.
  destruct (option_text p (category e)); split; congruence.
Qed.

Lemma length_zero {A} (l : list A) :
  Nat.eqb (List.length l) 0 = true <-> l = [].
Proof. destruct l; simpl; split; congruence. Qed.

Lemma length_nonzero {A} (l : list A) :
  Nat.eqb (List.length l) 0 = false <-> l <> [].
Proof. destruct l; simpl; split; congruence. Qed.

(** The markup [renderExpenses] writes when every record it shows has
    its category in the table. *)
Lemma renderExpenses_listed st :
  Forall (listed (page st))
    (visible (expenses st) (filterCategory_value (page st))) ->
  exists m,
    renderExpenses st = (Normal tt, set_page (with_list m (page st)) st) /\
    displays (page st)
      (visible (expenses st) (filterCategory_value (page st))) m /\
    forall message,
      m = EmptyState message ->
      (message = str "No expenses yet. Add your first expense!"
       /\ filterCategory_value (page st) = str "all")
      \/ (message = str "No expenses in this category"
          /\ filterCategory_value (page st) <> str "all").
Proof.
  intros HL. unfold renderExpenses. rewrite bind_get.
  destruct (Nat.eqb _ 0) eqn:E.
  - apply length_zero in E.
    eexists. split; [reflexivity|]. split; [exact E|].
    intros message H. injection H as <-.
    destruct (str_eqb (filterCategory_value (page st)) (str "all")) eqn:F.
    + left. split; [reflexivity | now apply str_eqb_eq].
    + right. split; [reflexivity | now apply str_eqb_neq].
  - apply length_nonzero in E.
    assert (HL' : Forall (fun e => render_item (page st) e <> None)
                    (visible (expenses st) (filterCategory_value (page st)))).
    { apply Forall_forall. intros e He. apply render_item_listed.
      rewrite Forall_forall in HL. now apply HL. }
    destruct (all_some_defined _ _ HL') as (items & Hi). rewrite Hi.
    exists (Items items). split; [reflexivity|]. split; [|discriminate].
    split; [exact E|].
    apply all_some_Forall2 in Hi. revert Hi. apply Forall2_impl.
    intros e it. apply render_item_of.
Qed.

(** Without the label of a record it shows, it throws before it writes. *)
Lemma renderExpenses_unlisted st :
  Exists (fun e => ~ listed (page st) e)
    (visible (expenses st) (filterCategory_value (page st))) ->
  renderExpenses st = (Throw TypeError, st).
Proof.
  intros HE. unfold renderExpenses. rewrite bind_get.
  destruct (Nat.eqb _ 0) eqn:E.
  - apply length_zero in E. rewrite E in HE. inversion HE.
  - rewrite all_some_None; [reflexivity|].
    apply Exists_exists in HE as (e & He & Hn). apply Exists_exists.
    exists e. split; [assumption|].
    destruct (render_item (page st) e) eqn:R; [|reflexivity].
    exfalso. apply Hn. apply render_item_listed. congruence.
Qed.

(** ** updateSummary *)

Lemma sort_insert_In {A} (f : A -> A -> number) x y (l : list A) :
  In y (sort_insert f x l) <-> y = x \/ In y l.
Proof.
  induction l as [|z l IH]; simpl; [intuition congruence|].
  destruct (PrimFloat.ltb 0 (f x z)); simpl; rewrite ?IH; intuition congruence.
Qed.

Lemma Array_sort_In {A} (f : A -> A -> number) y (l : list A) :
  In y (Array_sort f l) <-> In y l.
Proof.
  induction l as [|x l IH]; simpl; [tauto|].
  rewrite sort_insert_In, IH. intuition congruence.
Qed.

(** The keys of the totals are categories of the list. *)
Lemma categoryTotals_key l k :
  In k (List.map fst (categoryTotals l)) -> In k (categories l).
Proof.
  induction l as [|e l IH] using rev_ind; [intros []|].
  rewrite categoryTotals_snoc. intros H.
  apply add_to_total_keys in H. unfold categories. rewrite map_app, in_app_iff.
  destruct H as [->|H]; [right; now left | left; now apply IH].
Qed.

Lemma highest_category l h : highest l = Some h -> In (fst h) (categories l).
Proof.
  unfold highest, Object_entries. intros H.
  apply categoryTotals_key. apply in_map.
  apply (Array_sort_In by_total_descending).
  destruct (Array_sort by_total_descending (categoryTotals l));
    [discriminate|].
  injection H as ->. now left.
Qed.

Lemma highest_listed p l h :
  Forall (listed p) l -> highest l = Some h -> option_text p (fst h) <> None.
Proof.
  intros HL H. apply highest_category in H.
  apply in_map_iff in H as (e & <- & He).
  rewrite Forall_forall in HL. now apply HL.
Qed.

(** A category with a label in a table of ordinary codes is an ordinary
    property name. *)
Lemma listed_own p e : own_table p -> listed p e -> own_key (category e).
Proof.
  unfold own_table, listed, option_text. intros HT HL.
  destruct (obj_get (categorySelect_options p) (category e)) as [name|] eqn:G;
    [|congruence].
  apply obj_get_In in G. rewrite Forall_forall in HT.
  exact (HT _ G).
Qed.

Lemma Forall_listed_own p l :
  own_table p -> Forall (listed p) l ->
  Forall (fun e => own_key (category e)) l.
Proof.
  intros HT. apply Forall_impl. intros e. now apply listed_own.
Qed.

Lemma Forall_valid_positive l :
  Forall valid_record l -> Forall positive_amount l.
Proof. apply Forall_impl. now intros e [H _]. Qed.

(** The summary [updateSummary] writes on valid records whose categories
    have their labels under ordinary codes. *)
Lemma updateSummary_listed st :
  own_table (page st) -> Forall valid_record (expenses st) ->
  Forall (listed (page st)) (expenses st) ->
  exists text,
    updateSummary st =
      (Normal tt,
       set_page (with_summary (rupee ++ toFixed (total (expenses st)) 2)
                   (Number_toString
                      (number_of_nat (List.length (expenses st))))
                   text (page st)) st) /\
    top_text (page st) (expenses st) text.
Proof.
  intros HT HV HL. unfold updateSummary. rewrite bind_get.
  destruct (expenses st) as [|e l] eqn:E.
  - exists (str "-"). split; reflexivity.
  - change (Nat.eqb (List.length (e :: l)) 0) with false. cbv iota.
    destruct (highest_largest (e :: l)) as (c & H & HS);
      [discriminate | now apply Forall_valid_positive
       | now apply (Forall_listed_own (page st)) |].
    rewrite H. cbn [fst].
    pose proof (highest_listed _ _ _ HL H) as Hn. cbn [fst] in Hn.
    destruct (option_text (page st) c) as [name|] eqn:O; [|congruence].
    exists (first_word name). split; [reflexivity|].
    exists c, name. split; [exact H|]. split; [exact HS|].
    split; [exact O | reflexivity].
Qed.

(** ** The page after a refresh *)

(** What [listed], [displays] and [top_text] read of the page is the
    category table. *)
Lemma listed_table p p' e :
  categorySelect_options p' = categorySelect_options p ->
  listed p e -> listed p' e.
Proof. unfold listed, option_text. now intros ->. Qed.

Lemma Forall_listed_table p p' l :
  categorySelect_options p' = categorySelect_options p ->
  Forall (listed p) l -> Forall (listed p') l.
Proof.
  intros H. apply Forall_impl. intros e. now apply listed_table.
Qed.

Lemma displays_table p p' l m :
  categorySelect_options p' = categorySelect_options p ->
  displays p l m -> displays p' l m.
Proof.
  intros H. destruct m as [|message|items]; simpl; try tauto.
  intros [Hl HF]. split; [assumption|]. revert HF. apply Forall2_impl.
  intros e it. unfold item_of, option_text. now rewrite H.
Qed.

Lemma top_text_table p p' l text :
  categorySelect_options p' = categorySelect_options p ->
  top_text p l text -> top_text p' l text.
Proof.
  intros H. unfold top_text, option_text. now rewrite H.
Qed.

Lemma visible_listed p l filter :
  Forall (listed p) l -> Forall (listed p) (visible l filter).
Proof.
  intros H. unfold visible. destruct (str_eqb filter (str "all"));
    [assumption|].
  apply Forall_forall. intros e He. apply filter_In in He as [He _].
  rewrite Forall_forall in H. now apply H.
Qed.

(** [renderExpenses] and then [updateSummary], on valid records whose
    categories are in the table: both return, and the page is in step. *)
Lemma refresh_in_step st :
  own_table (page st) -> Forall valid_record (expenses st) ->
  Forall (listed (page st)) (expenses st) -> form_listed (page st) ->
  exists st',
    (renderExpenses ;; updateSummary) st = (Normal tt, st') /\
    in_step st' /\
    expenses st' = expenses st /\ stored st' = stored st /\
    quota st' = quota st /\
    form (page st') = form (page st) /\
    error_texts (page st') = error_texts (page st) /\
    filterCategory_value (page st') = filterCategory_value (page st) /\
    categorySelect_options (page st') = categorySelect_options (page st).
Proof.
  intros HT HV HL HF.
  destruct (renderExpenses_listed st
              (visible_listed _ _ (filterCategory_value (page st)) HL))
    as (m & Hr & Hd & _).
  rewrite (bind_Normal _ _ _ _ _ Hr).
  set (st1 := set_page (with_list m (page st)) st).
  assert (HL1 : Forall (listed (page st1)) (expenses st1)).
  { revert HL. now apply Forall_listed_table. }
  destruct (updateSummary_listed st1 HT HV HL1) as (text & Hu & Ht).
  rewrite Hu. eexists. split; [reflexivity|].
  split; [|now repeat split].
  split; [exact HT|]. split; [exact HV|].
  split; [|split; [|split]].
  - revert HL. now apply Forall_listed_table.
  - exact HF.
  - revert Hd. now apply displays_table.
  - split; [reflexivity|]. split; [reflexivity|].
    revert Ht. now apply top_text_table.
Qed.

End PageFacts.
(* ================================================================== *)
(** * Facts about sessions *)
(* ================================================================== *)

Module SessionFacts.

Import JS JSON App Spec Display Strings Objects AppFacts Storage PageFacts.
Local Open Scope action_scope.

(** ** saveExpenses *)

Lemma saveExpenses_fits st :
  fits st ->
  saveExpenses st =
  (Normal tt, set_stored (Some (serialize (expenses st))) st).
Proof.
  unfold fits, saveExpenses. intros H. rewrite bind_get.
  fold (serialize (expenses st)). apply N.leb_le in H. now rewrite H.
Qed.

Lemma saveExpenses_full st :
  ~ fits st ->
  saveExpenses st =
  (Normal tt, reporting "Failed to save data. Storage might be full." st).
Proof.
  unfold fits, saveExpenses. intros H. rewrite bind_get.
  fold (serialize (expenses st)).
  destruct (N.leb _ _) eqn:E; [|reflexivity].
  apply N.leb_le in E. contradiction.
Qed.

Lemma fits_dec st : fits st \/ ~ fits st.
Proof. unfold fits. lia. Qed.

(** ** What keeps the page in step *)

Lemma in_step_form st a d c dt :
  in_step st -> option_text (page st) c <> None ->
  in_step (set_page (with_form a d c dt (page st)) st).
Proof.
  intros (HT & HV & HL & (Hf & _) & Hs & Hu) Hc.
  split; [exact HT|]. split; [exact HV|]. split; [exact HL|].
  split; [split; assumption|]. split; [exact Hs | exact Hu].
Qed.

Lemma in_step_error st text display :
  in_step st -> in_step (set_page (with_error text display (page st)) st).
Proof.
  intros (HT & HV & HL & HF & Hs & Hu).
  split; [exact HT|]. split; [exact HV|]. split; [exact HL|].
  split; [exact HF|]. split; [exact Hs | exact Hu].
Qed.

(** The three calls that follow every mutation, on valid records whose
    categories are in the table. *)
Lemma mutation_in_step st :
  own_table (page st) -> Forall valid_record (expenses st) ->
  Forall (listed (page st)) (expenses st) -> form_listed (page st) ->
  exists st',
    (saveExpenses ;; renderExpenses ;; updateSummary) st = (Normal tt, st') /\
    in_step st' /\ expenses st' = expenses st /\
    form (page st') = form (page st) /\
    filterCategory_value (page st') = filterCategory_value (page st) /\
    categorySelect_options (page st') = categorySelect_options (page st).
Proof.
  intros HT HV HL HF.
  destruct (fits_dec st) as [H|H].
  - rewrite (bind_Normal _ _ _ _ _ (saveExpenses_fits st H)).
    destruct (refresh_in_step (set_stored (Some (serialize (expenses st))) st)
                HT HV HL HF) as (st' & E & HI & H1 & _ & _ & H2 & _ & H3 & H4).
    exists st'. split; [exact E|]. split; [exact HI|].
    split; [exact H1|]. split; [exact H2|]. split; [exact H3 | exact H4].
  - rewrite (bind_Normal _ _ _ _ _ (saveExpenses_full st H)).
    destruct (refresh_in_step
                (reporting "Failed to save data. Storage might be full." st)
                HT HV HL HF) as (st' & E & HI & H1 & _ & _ & H2 & _ & H3 & H4).
    exists st'. split; [exact E|]. split; [exact HI|].
    split; [exact H1|]. split; [exact H2|]. split; [exact H3 | exact H4].
Qed.

Lemma filter_listed p f l :
  Forall (listed p) l -> Forall (listed p) (List.filter f l).
Proof.
  intros H. apply Forall_forall. intros e He. apply filter_In in He as [He _].
  rewrite Forall_forall in H. now apply H.
Qed.

Lemma filter_valid f l :
  Forall valid_record l -> Forall valid_record (List.filter f l).
Proof.
  intros H. apply Forall_forall. intros e He. apply filter_In in He as [He _].
  rewrite Forall_forall in H. now apply H.
Qed.

(** Every event keeps the page in step. *)
Lemma step_in_step ev st : in_step st -> in_step (step ev st).
Proof.
  intros HI. pose proof HI as (HT & HV & HL & HF & Hs & Hu).
  unfold step. destruct ev; simpl handle.
  - apply in_step_form; [assumption | apply HF].
  - apply in_step_form; [assumption | apply HF].
  - unfold modify. cbn [snd].
    destruct (option_text (page st) code) eqn:O; [|assumption].
    apply in_step_form; [assumption | congruence].
  - apply in_step_form; [assumption | apply HF].
  - rewrite bind_modify.
    set (st1 := set_page (with_filter code (page st)) st).
    destruct (renderExpenses_listed st1
                (visible_listed _ _ (filterCategory_value (page st1)) HL))
      as (m & -> & Hd & _).
    split; [exact HT|]. split; [exact HV|]. split; [exact HL|].
    split; [exact HF|]. split; [exact Hd | exact Hu].
  - destruct (accepted (page st)) eqn:A.
    + unfold addExpense.
      rewrite (bind_Normal _ _ _ _ _ (validateInput_accepts st A)).
      cbv beta. change (negb true) with false. cbv iota.
      rewrite bind_get, bind_modify.
      set (st1 := set_expenses _ st).
      assert (HL1 : Forall (listed (page st1)) (expenses st1)).
      { constructor; [apply HF | assumption]. }
      assert (HV1 : Forall valid_record (expenses st1)).
      { constructor; [now apply (accepted_draft_valid now) | assumption]. }
      destruct (mutation_in_step st1 HT HV1 HL1 HF)
        as (st' & E & HI' & _ & _ & _ & H4).
      change (saveExpenses ;; renderExpenses ;; updateSummary ;;
              clearForm today)
        with (saveExpenses ;;
              (renderExpenses ;; (updateSummary ;; clearForm today))).
      assert (E' : (saveExpenses ;;
                    (renderExpenses ;; (updateSummary ;; clearForm today)))
                     st1 = clearForm today st').
      { revert E. unfold bind.
        destruct (saveExpenses st1) as [[[]|?|?] s1]; try discriminate.
        destruct (renderExpenses s1) as [[[]|?|?] s2]; try discriminate.
        destruct (updateSummary s2) as [[[]|?|?] s3]; try discriminate.
        now intros [= ->]. }
      rewrite E'. unfold clearForm, modify. cbn [snd].
      apply in_step_form; [assumption|].
      destruct HI' as (_ & _ & _ & (Hfood & _) & _). exact Hfood.
    + destruct (addExpense_rejects now today st A) as (st' & -> & Hr).
      destruct Hr as (message & _ & ->). cbn [snd].
      now apply in_step_error.
  - unfold deleteExpense. destruct confirmed; [|assumption].
    rewrite bind_modify.
    set (st1 := set_expenses _ st).
    assert (HL1 : Forall (listed (page st1)) (expenses st1)).
    { now apply filter_listed. }
    assert (HV1 : Forall valid_record (expenses st1)).
    { now apply filter_valid. }
    destruct (mutation_in_step st1 HT HV1 HL1 HF) as (st' & -> & HI' & _).
    exact HI'.
  - unfold clearAllExpenses. rewrite bind_get.
    destruct (Nat.eqb _ 0).
    + now apply in_step_error.
    + destruct confirmed; [|assumption].
      rewrite bind_modify.
      set (st1 := set_expenses [] st).
      assert (HL1 : Forall (listed (page st1)) (expenses st1))
        by constructor.
      assert (HV1 : Forall valid_record (expenses st1)) by constructor.
      destruct (mutation_in_step st1 HT HV1 HL1 HF) as (st' & -> & HI' & _).
      exact HI'.
  - now apply in_step_error.
Qed.

Lemma run_in_step evs : forall st, in_step st -> in_step (run evs st).
Proof.
  induction evs as [|ev evs IH]; intros st H; simpl; [assumption|].
  apply IH. now apply step_in_step.
Qed.

(** The start puts the page in step, when the codes of the table are
    ordinary property names, the categories of the form and of the stored
    records are in the table, and the stored records are valid. *)
Lemma startup_in_step today st0 :
  own_table (page st0) -> form_listed (page st0) ->
  listed_slot (page st0) (stored st0) ->
  exists st,
    startup today st0 = (Normal tt, st) /\ in_step st.
Proof.
  intros HT HF HS. unfold startup. rewrite !bind_modify.
  set (st1 := set_page _ _).
  assert (HF1 : form_listed (page st1)) by exact HF.
  assert (HT1 : own_table (page st1)) by exact HT.
  unfold loadExpenses. rewrite bind_get.
  assert (Hload :
    exists st2,
      match stored st1 with
      | Some text =>
          if str_truthy text then
            match JSON.parse text with
            | Some v =>
                match expenses_of_json v with
                | Some l => modify (set_expenses l)
                | None => fun st => (Untyped v, st)
                end
            | None => modify (set_expenses [])
            end
          else ret tt
      | None => ret tt
      end st1 = (Normal tt, st2)
      /\ page st2 = page st1
      /\ Forall (listed (page st1)) (expenses st2)
      /\ Forall valid_record (expenses st2)).
  { change (stored st1) with (stored st0). unfold listed_slot in HS.
    destruct (stored st0) as [text|].
    - destruct (str_truthy text).
      + destruct (JSON.parse text) as [v|].
        * destruct HS as (l & -> & Hl & Hv). eexists.
          split; [reflexivity|]. split; [reflexivity|].
          split; [exact Hl | exact Hv].
        * eexists. split; [reflexivity|]. split; [reflexivity|].
          split; constructor.
      + eexists. split; [reflexivity|]. split; [reflexivity|].
        split; constructor.
    - eexists. split; [reflexivity|]. split; [reflexivity|].
      split; constructor. }
  destruct Hload as (st2 & Hl & Hp & HL & HV).
  rewrite (bind_Normal _ _ _ _ _ Hl).
  rewrite <- Hp in HL, HF1, HT1.
  destruct (refresh_in_step st2 HT1 HV HL HF1) as (st & E & HI & _).
  exists st. now split.
Qed.

End SessionFacts.
(* ================================================================== *)
(** * What the calls leave alone *)
(* ================================================================== *)

Module Frames.

Import JS JSON App Spec Display Strings AppFacts Storage PageFacts
  SessionFacts.
Local Open Scope action_scope.

Lemma leaves_bind {A B C} (f : state -> C) (m : action A)
  (k : A -> action B) :
  leaves f m -> (forall a, leaves f (k a)) -> leaves f (bind m k).
Proof.
  intros Hm Hk st. unfold bind. specialize (Hm st).
  destruct (m st) as [[a|e|v] st']; simpl in *; try assumption.
  now rewrite Hk.
Qed.

Lemma leaves_ret {A C} (f : state -> C) (a : A) : leaves f (ret a).
Proof. intros st. reflexivity. Qed.

Lemma leaves_throw {A C} (f : state -> C) e : leaves f (@throw A e).
Proof. intros st. reflexivity. Qed.

Lemma leaves_part {A C D} (f : state -> C) (g : state -> D) (m : action A) :
  (forall st st', f st = f st' -> g st = g st') -> leaves f m -> leaves g m.
Proof. intros H Hm st. apply H, Hm. Qed.

Lemma renderExpenses_beside_list : leaves beside_list renderExpenses.
Proof.
  intros st. unfold renderExpenses. rewrite bind_get.
  destruct (Nat.eqb _ 0); [reflexivity|].
  destruct (all_some _); reflexivity.
Qed.

Lemma updateSummary_beside_summary : leaves beside_summary updateSummary.
Proof.
  intros st. unfold updateSummary. rewrite bind_get.
  destruct (Nat.eqb _ 0); [reflexivity|].
  destruct (highest _) as [h|]; [|reflexivity].
  destruct (option_text _ _); reflexivity.
Qed.

Lemma beside_list_display st st' :
  beside_list st = beside_list st' -> beside_display st = beside_display st'.
Proof. unfold beside_list, beside_display. congruence. Qed.

Lemma beside_summary_display st st' :
  beside_summary st = beside_summary st' ->
  beside_display st = beside_display st'.
Proof. unfold beside_summary, beside_display. congruence. Qed.

Lemma renderExpenses_beside_display : leaves beside_display renderExpenses.
Proof.
  exact (leaves_part _ _ _ beside_list_display renderExpenses_beside_list).
Qed.

Lemma updateSummary_beside_display : leaves beside_display updateSummary.
Proof.
  exact (leaves_part _ _ _ beside_summary_display
           updateSummary_beside_summary).
Qed.

Lemma clearForm_beside_display today :
  leaves beside_display (clearForm today).
Proof. intros st. reflexivity. Qed.

(** The calls that follow [saveExpenses] in the three mutations. *)
Lemma refresh_beside_display :
  leaves beside_display (renderExpenses ;; updateSummary).
Proof.
  apply leaves_bind; [apply renderExpenses_beside_display|].
  intros _. apply updateSummary_beside_display.
Qed.

Lemma refresh_clear_beside_display today :
  leaves beside_display (renderExpenses ;; updateSummary ;; clearForm today).
Proof.
  apply leaves_bind; [apply renderExpenses_beside_display|]. intros _.
  apply leaves_bind; [apply updateSummary_beside_display|]. intros _.
  apply clearForm_beside_display.
Qed.

(** ** Staying within the records *)

Lemma typed_bind {A B} (m : action A) (k : A -> action B) :
  typed m -> (forall a, typed (k a)) -> typed (bind m k).
Proof.
  intros Hm Hk st v. unfold bind. specialize (Hm st).
  destruct (m st) as [[a|e|w] st']; simpl in *.
  - apply Hk.
  - discriminate.
  - now destruct (Hm w).
Qed.

Lemma typed_modify f : typed (modify f).
Proof. intros st v. discriminate. Qed.

Lemma typed_ret {A} (a : A) : typed (ret a).
Proof. intros st v. discriminate. Qed.

Lemma typed_renderExpenses : typed renderExpenses.
Proof.
  intros st v. unfold renderExpenses. rewrite bind_get.
  destruct (Nat.eqb _ 0); [discriminate|].
  destruct (all_some _); discriminate.
Qed.

Lemma typed_updateSummary : typed updateSummary.
Proof.
  intros st v. unfold updateSummary. rewrite bind_get.
  destruct (Nat.eqb _ 0); [discriminate|].
  destruct (highest _) as [h|]; [|discriminate].
  destruct (option_text _ _); discriminate.
Qed.

Lemma typed_refresh : typed (renderExpenses ;; updateSummary).
Proof.
  apply typed_bind; [apply typed_renderExpenses|].
  intros _. apply typed_updateSummary.
Qed.

End Frames.
(* ================================================================== *)
(** * Facts about the slot *)
(* ================================================================== *)

Module Persistence.

Import JS JSON App Spec Display Strings AppFacts JSONFacts RoundTrip Storage
  PageFacts SessionFacts Frames.
Local Open Scope action_scope.

(** ** Which events write *)

(** An event leaves the list and the slot alone, or it calls
    [saveExpenses] on the list it has changed and nothing after that call
    touches the list, the slot or the message. *)
Lemma step_saves ev st :
  (expenses (step ev st) = expenses st /\ stored (step ev st) = stored st
   /\ quota (step ev st) = quota st)
  \/ exists l,
       quiet ev = false /\
       beside_display (step ev st) =
       beside_display (snd (saveExpenses (set_expenses l st))).
Proof.
  unfold step. destruct ev; simpl handle.
  - now left.
  - now left.
  - left. unfold modify. cbn [snd]. now destruct (option_text _ _).
  - now left.
  - left. rewrite bind_modify.
    pose proof (renderExpenses_beside_display
                  (set_page (with_filter code (page st)) st)) as H.
    unfold beside_display, error_texts in H.
    cbn [page set_page expenses stored quota] in H.
    injection H as H1 H2 H3 _ _ _ _. now repeat split.
  - destruct (accepted (page st)) eqn:A.
    + right. exists (draft now (page st) :: expenses st).
      split; [reflexivity|].
      unfold addExpense.
      rewrite (bind_Normal _ _ _ _ _ (validateInput_accepts st A)).
      cbv beta. change (negb true) with false. cbv iota.
      rewrite bind_get, bind_modify.
      change (set_expenses _ st)
        with (set_expenses (draft now (page st) :: expenses st) st).
      set (st1 := set_expenses _ st).
      unfold bind at 1.
      pose proof (refresh_clear_beside_display today) as Hk.
      destruct (saveExpenses st1) as [[[]|e|v] s1]; try reflexivity.
      apply Hk.
    + left. destruct (addExpense_rejects now today st A) as (st' & -> & Hr).
      destruct Hr as (message & _ & ->). now repeat split.
  - unfold deleteExpense. destruct confirmed; [|now left].
    right.
    exists (List.filter (fun e => strict_neq (id e) id0) (expenses st)).
    split; [reflexivity|]. rewrite bind_modify.
    set (st1 := set_expenses _ st).
    unfold bind at 1.
    destruct (saveExpenses st1) as [[[]|e|v] s1]; try reflexivity.
    apply refresh_beside_display.
  - unfold clearAllExpenses. rewrite bind_get.
    destruct (Nat.eqb _ 0); [now left|].
    destruct confirmed; [|now left].
    right. exists []. split; [reflexivity|]. rewrite bind_modify.
    set (st1 := set_expenses _ st).
    unfold bind at 1.
    destruct (saveExpenses st1) as [[[]|e|v] s1]; try reflexivity.
    apply refresh_beside_display.
  - now left.
Qed.

Lemma step_quota ev st : quota (step ev st) = quota st.
Proof.
  destruct (step_saves ev st) as [(_ & _ & H)|(l & _ & H)]; [exact H|].
  unfold beside_display, error_texts in H.
  injection H as _ _ H _ _ _ _. rewrite H.
  unfold saveExpenses. rewrite bind_get.
  now destruct (N.leb _ _).
Qed.

(** The slot and the message after an event, by whether the text of the
    new list fits. *)
Lemma step_written ev st :
  (expenses (step ev st) = expenses st /\ stored (step ev st) = stored st)
  \/ (quiet ev = false /\ fits (step ev st) /\
      stored (step ev st) = Some (serialize (expenses (step ev st))))
  \/ (quiet ev = false /\ ~ fits (step ev st) /\
      stored (step ev st) = stored st /\
      error_texts (page (step ev st)) = (save_failure, str "block")).
Proof.
  pose proof (step_quota ev st) as Hq.
  destruct (step_saves ev st) as [(H1 & H2 & _)|(l & Hm & H)];
    [now left|right].
  set (st1 := set_expenses l st) in *.
  unfold beside_display, error_texts in H.
  injection H as H1 H2 _ H4 H5 _ _.
  destruct (fits_dec st1) as [F|F].
  - left. rewrite (saveExpenses_fits _ F) in *. cbn [snd] in *.
    split; [assumption|].
    assert (E : expenses (step ev st) = l) by exact H1.
    split.
    + unfold fits in *. now rewrite E, Hq.
    + now rewrite E.
  - right. rewrite (saveExpenses_full _ F) in *. cbn [snd] in *.
    split; [assumption|].
    assert (E : expenses (step ev st) = l) by exact H1.
    split; [|split].
    + unfold fits in *. now rewrite E, Hq.
    + exact H2.
    + unfold error_texts. now rewrite H4, H5.
Qed.

(** ** The start *)

Lemma startup_slot today :
  leaves (fun st => (stored st, quota st)) (startup today).
Proof.
  assert (Hk : leaves (fun st => (stored st, quota st))
                 (renderExpenses ;; updateSummary)).
  { apply (leaves_part beside_display); [|apply refresh_beside_display].
    unfold beside_display. congruence. }
  intros st. unfold startup. rewrite !bind_modify.
  unfold loadExpenses. rewrite bind_get.
  set (st1 := set_page _ _).
  match goal with |- context [bind ?m _ st1] => set (load := m) end.
  transitivity ((fun st => (stored st, quota st)) st1); [|reflexivity].
  refine (leaves_bind (fun st => (stored st, quota st)) load _ _ _ st1);
    [|intros _; exact Hk].
  subst load. destruct (stored st1) as [text|]; [|apply leaves_ret].
  destruct (str_truthy text); [|apply leaves_ret].
  destruct (JSON.parse text) as [v|]; [|intros s; reflexivity].
  destruct (expenses_of_json v) as [l|]; intros s; reflexivity.
Qed.

(** The start leaves the records only on a text that parses to a value
    of another shape. *)
Lemma startup_untyped today st0 v :
  fst (startup today st0) = Untyped v <->
  exists text,
    stored st0 = Some text /\ str_truthy text = true /\
    JSON.parse text = Some v /\ expenses_of_json v = None.
Proof.
  unfold startup. rewrite !bind_modify.
  unfold loadExpenses. rewrite bind_get.
  set (st1 := set_page _ _).
  change (stored st1) with (stored st0).
  assert (Hk : forall s, fst ((renderExpenses ;; updateSummary) s)
                         <> Untyped v).
  { intros s. apply typed_refresh. }
  destruct (stored st0) as [text|].
  - destruct (str_truthy text) eqn:T.
    + destruct (JSON.parse text) as [w|] eqn:P.
      * destruct (expenses_of_json w) as [l|] eqn:J.
        -- rewrite bind_modify. split; [intros H; now apply Hk in H|].
           intros (t & Ht & _ & Hp & Hj). injection Ht as <-.
           rewrite P in Hp. injection Hp as <-. congruence.
        -- unfold bind. cbn [fst]. split.
           ++ intros [= <-]. now exists text.
           ++ intros (t & Ht & _ & Hp & _). injection Ht as <-.
              rewrite P in Hp. now injection Hp as <-.
      * rewrite bind_modify. split; [intros H; now apply Hk in H|].
        intros (t & Ht & _ & Hp & _). injection Ht as <-. congruence.
    + rewrite (bind_Normal _ _ st1 tt st1 eq_refl).
      split; [intros H; now apply Hk in H|].
      intros (t & Ht & H & _). injection Ht as <-. congruence.
  - rewrite (bind_Normal _ _ st1 tt st1 eq_refl).
    split; [intros H; now apply Hk in H|].
    intros (t & H & _). discriminate.
Qed.

(** ** What a reload brings back *)

Lemma persisted_saved st :
  stored st = Some (serialize (expenses st)) ->
  Forall storable (expenses st) -> persisted st.
Proof.
  intros S HF st0 today E. rewrite S in E.
  pose proof (parse_stringify _ (expenses_to_json_wf _ HF)) as P.
  fold (serialize (expenses st)) in P.
  split.
  - intros v H. apply startup_untyped in H as (text & H1 & _ & H2 & H3).
    rewrite E in H1. injection H1 as <-. rewrite P in H2.
    injection H2 as <-. rewrite expenses_of_to_json in H3. discriminate.
  - rewrite startup_expenses, E, serialize_truthy, P.
    now rewrite expenses_of_to_json.
Qed.

Lemma persisted_same st st' :
  stored st' = stored st -> expenses st' = expenses st ->
  persisted st -> persisted st'.
Proof.
  intros S E H st0 today H0. rewrite S in H0. rewrite E. now apply H.
Qed.

Lemma startup_persisted today st0 :
  (forall v, fst (startup today st0) <> Untyped v) ->
  persisted (snd (startup today st0)).
Proof.
  intros HT st1 today1 E.
  pose proof (startup_slot today st0) as S. cbv beta in S.
  injection S as S _. rewrite S in E. split.
  - intros v H. apply startup_untyped in H. rewrite E in H.
    apply (startup_untyped today) in H. now apply HT in H.
  - rewrite !startup_expenses. now rewrite E.
Qed.

Lemma step_persisted ev st :
  persisted st -> fits (step ev st) ->
  Forall storable (expenses (step ev st)) -> persisted (step ev st).
Proof.
  intros HP F HS.
  destruct (step_written ev st) as [(E & S)|[(_ & _ & S)|(_ & N & _)]].
  - revert HP. now apply persisted_same.
  - now apply persisted_saved.
  - contradiction.
Qed.

Lemma run_firstn_S ev evs n st :
  run (firstn (S n) (ev :: evs)) st = run (firstn n evs) (step ev st).
Proof. reflexivity. Qed.

Lemma run_persisted evs : forall st,
  persisted st ->
  (forall n, n < List.length evs ->
     fits (run (firstn (S n) evs) st) /\
     Forall storable (expenses (run (firstn (S n) evs) st))) ->
  persisted (run evs st).
Proof.
  induction evs as [|ev evs IH]; intros st HP H; [assumption|].
  simpl. apply IH.
  - destruct (H 0) as [F S]; [simpl; lia|].
    now apply step_persisted.
  - intros n Hn. rewrite <- run_firstn_S. apply H. simpl. lia.
Qed.

End Persistence.

(* ================================================================== *)
(** * The properties of the specification *)
(* ================================================================== *)

Import JS JSON App Spec Display.
Import Strings Binary64 Objects Sorting AppFacts PageFacts.

(** ** Views *)

Lemma filter_subsequence {A} (f : A -> bool) (l : list A) :
  subsequence (List.filter f l) l.
Proof.
  induction l as [|x l IH]; simpl; [constructor|].
  destruct (f x); now constructor.
Qed.

Lemma subsequence_filter {A} (f : A -> bool) (s l : list A) :
  subsequence s l -> Forall (fun x => f x = true) s ->
  subsequence s (List.filter f l).
Proof.
  induction 1 as [|x s l H IH|x s l H IH]; intros HF; simpl.
  - constructor.
  - destruct (f x); [apply sub_skip|]; now apply IH.
  - inversion HF as [|? ? Hx HF']; subst. rewrite Hx.
    apply sub_keep. now apply IH.
Qed.

(** C9: with the filter ["all"] the visible list is the whole list, in
    order; with any other filter it is the subsequence of the records of
    that category: a subsequence of the list, made of records of the
    category only, that contains every other such subsequence. *)
Theorem C9_visible_is_the_category_subsequence
  (l : list expense) (filter : jsstring) :
  (filter = str "all" -> visible l filter = l) /\
  (filter <> str "all" ->
   subsequence (visible l filter) l /\
   Forall (in_category filter) (visible l filter) /\
   forall s, subsequence s l -> Forall (in_category filter) s ->
             subsequence s (visible l filter)).
Proof.
  unfold visible. split.
  - intros ->. now rewrite str_eqb_refl.
  - intros Hf. apply str_eqb_neq in Hf. rewrite Hf. repeat split.
    + apply filter_subsequence.
    + apply Forall_forall. intros e He. apply filter_In in He as [_ He].
      now apply str_eqb_eq in He.
    + intros s Hs HF. apply subsequence_filter; [assumption|].
      apply Forall_forall. intros e He. rewrite Forall_forall in HF.
      apply str_eqb_eq. now apply HF.
Qed.

(** ** Summary of the empty list *)

(** C8: on the empty list [updateSummary] returns normally and shows the
    total ["0.00"] after the currency sign, the count ["0"] and the
    marker ["-"] for the top category. *)
Theorem C8_summary_of_the_empty_list (st : state) :
  expenses st = [] ->
  exists st',
    updateSummary st = (Normal tt, st') /\
    summary_texts st' = (rupee ++ str "0.00", str "0", str "-") /\
    total (expenses st) = 0%float /\ highest (expenses st) = None.
Proof.
  intros E. unfold updateSummary. rewrite bind_get. rewrite E.
  eexists. split; [reflexivity|]. repeat split.
Qed.

Lemma C8_witness :
  expenses (Examples.fresh_state None) = [] /\
  exists st',
    updateSummary (Examples.fresh_state None) = (Normal tt, st') /\
    summary_texts st' = (rupee ++ str "0.00", str "0", str "-") /\
    total (expenses (Examples.fresh_state None)) = 0%float /\
    highest (expenses (Examples.fresh_state None)) = None.
Proof.
  split; [reflexivity|].
  apply (C8_summary_of_the_empty_list (Examples.fresh_state None)).
  reflexivity.
Defined.

(** ** Validation *)

Lemma rejected_amount a :
  PrimFloat.is_nan a = true \/ PrimFloat.eqb a 0 = true
  \/ PrimFloat.ltb a 0 = true ->
  negb (num_truthy a) || PrimFloat.leb a 0 = true.
Proof.
  intros [H|[H|H]].
  - unfold num_truthy. now rewrite H.
  - unfold num_truthy, PrimFloat.is_zero.
    change PrimFloat.zero with 0%float. rewrite H.
    now rewrite orb_true_r.
  - destruct (ltb_not_nan _ _ H) as [Na N0].
    rewrite ltb_value in H by assumption.
    rewrite leb_value by assumption.
    apply Z.ltb_lt in H. apply orb_true_iff. right. apply Z.leb_le. lia.
Qed.

(** C5: when the amount read from the form is [NaN] (nothing or no
    number was typed), zero or negative, or the description is empty
    after trimming, [addExpense] returns with one of the validation
    messages displayed and nothing else changed: the list and the stored
    snapshot are as they were. *)
Theorem C5_invalid_input_is_rejected
  (st : state) (now : number) (today : jsstring) :
  PrimFloat.is_nan (parseFloat (amountInput_value (page st))) = true
  \/ PrimFloat.eqb (parseFloat (amountInput_value (page st))) 0 = true
  \/ PrimFloat.ltb (parseFloat (amountInput_value (page st))) 0 = true
  \/ trim (descriptionInput_value (page st)) = [] ->
  exists st',
    addExpense now today st = (Normal tt, st') /\
    rejected st st' /\
    expenses st' = expenses st /\ stored st' = stored st.
Proof.
  intros H.
  assert (Ha : accepted (page st) = false).
  { unfold accepted.
    assert (H' : negb (num_truthy (parseFloat (amountInput_value (page st))))
                 || PrimFloat.leb (parseFloat (amountInput_value (page st))) 0
                 = true
                 \/ trim (descriptionInput_value (page st)) = []).
    { destruct H as [H|[H|[H|H]]]; [left|left|left|right; assumption];
        apply rejected_amount; tauto. }
    destruct H' as [-> | ->]; [reflexivity|].
    now rewrite andb_false_r. }
  destruct (addExpense_rejects now today st Ha) as (st' & E & Hr).
  exists st'. split; [assumption|]. split; [assumption|].
  split; apply (rejected_data _ _ Hr).
Qed.

Lemma C5_witness :
  let st := Examples.empty_amount_form (Examples.with_expenses [Examples.lunch]) in
  PrimFloat.is_nan (parseFloat (amountInput_value (page st))) = true /\
  exists st',
    addExpense 1737900120000%float (str "2025-01-27") st = (Normal tt, st') /\
    rejected st st' /\
    expenses st' = expenses st /\ stored st' = stored st.
Proof.
  split; [reflexivity|].
  apply (C5_invalid_input_is_rejected
           (Examples.empty_amount_form (Examples.with_expenses [Examples.lunch]))).
  left. reflexivity.
Defined.

(** ** Deleting *)

Lemma filter_keeps_all l id0 :
  ~ has_id id0 l ->
  List.filter (fun e => strict_neq (id e) id0) l = l.
Proof.
  unfold has_id. induction l as [|e l IH]; intros H; simpl; [reflexivity|].
  unfold strict_neq at 1. destruct (strict_eq (id e) id0) eqn:E; simpl.
  - exfalso. apply H. now left.
  - rewrite IH; [reflexivity|]. intros H'. apply H. now right.
Qed.

Lemma filter_drops_id l id0 :
  ~ has_id id0 (List.filter (fun e => strict_neq (id e) id0) l).
Proof.
  unfold has_id. rewrite Exists_exists. intros (e & He & E).
  apply filter_In in He as [_ He]. unfold strict_neq in He.
  rewrite E in He. discriminate.
Qed.

Lemma filter_drops_one l id0 :
  unique_ids l -> has_id id0 l ->
  S (List.length (List.filter (fun e => strict_neq (id e) id0) l))
  = List.length l.
Proof.
  unfold unique_ids, has_id.
  induction l as [|e l IH]; intros HU HE; [inversion HE|].
  inversion HU as [|? ? HF HU']; subst. simpl.
  unfold strict_neq at 1. destruct (strict_eq (id e) id0) eqn:E; simpl.
  - rewrite filter_keeps_all; [reflexivity|].
    unfold has_id. rewrite Exists_exists. intros (x & Hx & Ex).
    rewrite Forall_forall in HF. specialize (HF x Hx).
    rewrite (strict_eq_trans _ _ _ E (strict_eq_sym _ _ Ex)) in HF.
    discriminate.
  - f_equal. apply IH; [assumption|].
    inversion HE as [? ? H1|? ? H1]; subst; [congruence | assumption].
Qed.

(** *** Counting the records of an id *)

Lemma count_id_filter id0 l :
  List.length (List.filter (fun e => strict_neq (id e) id0) l)
  + count_id id0 l = List.length l.
Proof.
  unfold count_id, strict_neq.
  induction l as [|e l IH]; simpl; [reflexivity|].
  destruct (strict_eq (id e) id0); simpl; lia.
Qed.

Lemma count_id_has id0 l : has_id id0 l <-> 0 < count_id id0 l.
Proof.
  unfold has_id, count_id. induction l as [|e l IH]; simpl.
  - split; [intros H; inversion H | lia].
  - destruct (strict_eq (id e) id0) eqn:E; simpl.
    + split; [lia | intros _; now left].
    + rewrite <- IH. split.
      * intros H. inversion H; subst; [congruence | assumption].
      * intros H. now right.
Qed.

(** The refresh after a deletion returns when the categories of the
    records have their labels. *)
Lemma updateSummary_returns st :
  Forall (listed (page st)) (expenses st) ->
  fst (updateSummary st) = Normal tt.
Proof.
  intros HL. unfold updateSummary. rewrite bind_get.
  destruct (Nat.eqb _ 0); [reflexivity|].
  destruct (highest (expenses st)) as [h|] eqn:H; [|reflexivity].
  pose proof (highest_listed _ _ _ HL H) as Hn.
  destruct (option_text (page st) (fst h)); [reflexivity | congruence].
Qed.

Lemma deleteExpense_returns st id0 :
  Forall (listed (page st)) (expenses st) ->
  fst (deleteExpense id0 true st) = Normal tt.
Proof.
  intros HL. unfold deleteExpense. rewrite bind_modify.
  set (st1 := set_expenses _ st).
  assert (HL1 : Forall (listed (page st1)) (expenses st1)).
  { apply Forall_forall. intros e He. apply filter_In in He as [He _].
    rewrite Forall_forall in HL. now apply HL. }
  assert (Hs : exists s1,
             saveExpenses st1 = (Normal tt, s1) /\
             expenses s1 = expenses st1 /\
             filterCategory_value (page s1) = filterCategory_value (page st1) /\
             categorySelect_options (page s1)
             = categorySelect_options (page st1)).
  { unfold saveExpenses. rewrite bind_get.
    destruct (N.leb _ _); eexists; split; try reflexivity; now repeat split. }
  destruct Hs as (s1 & Es & E1 & E2 & E3).
  rewrite (bind_Normal _ _ _ _ _ Es).
  assert (HL2 : Forall (listed (page s1)) (expenses s1)).
  { rewrite E1. revert HL1. now apply Forall_listed_table. }
  destruct (renderExpenses_listed s1
              (visible_listed _ _ (filterCategory_value (page s1)) HL2))
    as (m & Er & _).
  rewrite (bind_Normal _ _ _ _ _ Er).
  apply updateSummary_returns.
  revert HL2. now apply Forall_listed_table.
Qed.

(** C4, as the code has it: a confirmed [deleteExpense] leaves no record
    of the id, and the list is shorter by the number of records that had
    it: by one when the ids of the list are distinct and the id is
    present.  With an id that is not present the list is as it was.  The
    call is no error: it returns when the categories of the records have
    their labels in the category select (whose codes are plain), as they
    must for the page to show the list at all. *)
Theorem C4_delete_removes_every_record_of_the_id
  (st : state) (id0 : number) :
  ~ has_id id0 (expenses (snd (deleteExpense id0 true st)))
  /\ List.length (expenses (snd (deleteExpense id0 true st)))
     + count_id id0 (expenses st) = List.length (expenses st)
  /\ (unique_ids (expenses st) -> has_id id0 (expenses st) ->
      S (List.length (expenses (snd (deleteExpense id0 true st))))
      = List.length (expenses st))
  /\ (~ has_id id0 (expenses st) ->
      expenses (snd (deleteExpense id0 true st)) = expenses st)
  /\ (plain_table (page st) -> Forall (listed (page st)) (expenses st) ->
      fst (deleteExpense id0 true st) = Normal tt).
Proof.
  rewrite deleteExpense_expenses.
  split; [apply filter_drops_id|]. split; [apply count_id_filter|].
  split; [apply filter_drops_one|]. split; [apply filter_keeps_all|].
  intros _. apply deleteExpense_returns.
Qed.

Lemma C4_witness :
  let st := Examples.with_expenses [Examples.bus; Examples.lunch] in
  let id0 := id Examples.lunch in
  (unique_ids (expenses st) /\ has_id id0 (expenses st) /\
   plain_table (page st) /\ Forall (listed (page st)) (expenses st)) /\
  S (List.length (expenses (snd (deleteExpense id0 true st))))
  = List.length (expenses st) /\
  fst (deleteExpense id0 true st) = Normal tt.
Proof.
  assert (H : let st := Examples.with_expenses [Examples.bus; Examples.lunch] in
              unique_ids (expenses st) /\
              has_id (id Examples.lunch) (expenses st) /\
              plain_table (page st) /\
              Forall (listed (page st)) (expenses st)).
  { split; [repeat constructor|].
    split; [right; left; vm_compute; reflexivity|].
    split; repeat constructor; discriminate. }
  pose proof (C4_delete_removes_every_record_of_the_id
                (Examples.with_expenses [Examples.bus; Examples.lunch])
                (id Examples.lunch)) as (_ & _ & H1 & _ & H2).
  exact (conj H
           (conj (H1 (proj1 H) (proj1 (proj2 H)))
                 (H2 (proj1 (proj2 (proj2 H))) (proj2 (proj2 (proj2 H)))))).
Defined.

(** C4 as stated fails on a list in which an id is repeated: the list
    holds two records with the id of [lunch], and the deletion of that
    id leaves none of them, so that the list is shorter by two. *)
Lemma C4_counterexample :
  let st := Examples.with_expenses Examples.repeated_id in
  let id0 := id Examples.lunch in
  has_id id0 (expenses st) /\
  List.length (expenses st) = 2 /\
  expenses (snd (deleteExpense id0 true st)) = [] /\
  S (List.length (expenses (snd (deleteExpense id0 true st))))
  <> List.length (expenses st).
Proof.
  cbv zeta. rewrite deleteExpense_expenses.
  split; [left; vm_compute; reflexivity|]. split; [reflexivity|].
  assert (E : List.filter
                (fun e => strict_neq (id e) (id Examples.lunch))
                (expenses (Examples.with_expenses Examples.repeated_id)) = [])
    by (vm_compute; reflexivity).
  rewrite E. split; [reflexivity | discriminate].
Qed.

(** ** Adding *)

(** What [addExpense] does with an accepted form: the draft, whose id is
    the clock value, is prepended.  Its id is new exactly when the clock
    value is not the id of a record already in the list. *)
Lemma addExpense_prepends (st : state) (now : number) (today : jsstring) :
  accepted (page st) = true ->
  expenses (snd (addExpense now today st)) = draft now (page st) :: expenses st
  /\ List.length (expenses (snd (addExpense now today st)))
     = S (List.length (expenses st))
  /\ id (draft now (page st)) = now.
Proof.
  intros H. rewrite (addExpense_accepts now today st H). repeat split.
Qed.

(** C3, at the input that breaks it: the list holds one valid record,
    the form is valid, and the clock returns the value it returned when
    that record was created.  The new record is first and the list is
    one longer, but its id is the id of the record already there. *)
Theorem C3_clock_value_already_used :
  let st := Examples.filled_form (Examples.with_expenses [Examples.lunch]) in
  let now := id Examples.lunch in
  let st' := snd (addExpense now (str "2025-01-27") st) in
  accepted (page st) = true /\
  Forall valid_record (expenses st) /\ unique_ids (expenses st) /\
  expenses st' = draft now (page st) :: expenses st /\
  has_id (id (draft now (page st))) (expenses st) /\
  ~ unique_ids (expenses st').
Proof.
  cbv zeta.
  assert (Ha : accepted (page (Examples.filled_form
                                 (Examples.with_expenses [Examples.lunch]))) = true)
    by (vm_compute; reflexivity).
  split; [exact Ha|].
  split; [repeat constructor; discriminate|].
  split; [repeat constructor|].
  split; [now apply addExpense_accepts|].
  split; [left; vm_compute; reflexivity|].
  rewrite (addExpense_accepts _ _ _ Ha). intros HU.
  inversion HU as [|? ? HF _]; subst.
  inversion HF as [|? ? H1 _]; subst.
  vm_compute in H1. discriminate.
Qed.

(** ** The top category *)

Import Totals.

(** C7, as the code has it: on a non-empty list of records with positive
    amounts, whose category codes are ordinary property names, the entry
    [updateSummary] ranks first is a category of the list together with
    its group sum, and no category of the list has a larger group sum.
    On the three records of the example the total is 180, shown as
    ["180.00"], the count is 3 and the top category is ["food"] with
    150. *)
Theorem C7_top_category_has_the_largest_sum :
  (forall l : list expense,
     l <> [] -> Forall positive_amount l ->
     Forall (fun e => own_key (category e)) l ->
     exists c, highest l = Some (c, Sum (group_sum c l)) /\ largest_sum c l)
  /\ (forall r1 r2 r3 : expense,
        let l := Examples.three_records r1 r2 r3 in
        total l = 180%float /\ List.length l = 3%nat /\
        highest l = Some (str "food", Sum 150%float) /\
        group_sum (str "transport") l = 30%float /\
        exists st',
          updateSummary (Examples.with_expenses l) = (Normal tt, st') /\
          summary_texts st' =
          (rupee ++ str "180.00", str "3", [0xD83C; 0xDF54]%N)).
Proof.
  split.
  - intros l Hl HF HO. now apply highest_largest.
  - intros r1 r2 r3. cbv zeta. repeat split.
    eexists. split; vm_compute; reflexivity.
Qed.

Lemma C7_witness :
  let l := Examples.three_records Examples.lunch Examples.lunch Examples.bus in
  l <> [] /\ Forall positive_amount l /\
  Forall (fun e => own_key (category e)) l /\
  exists c, highest l = Some (c, Sum (group_sum c l)) /\ largest_sum c l.
Proof.
  assert (H1 : Examples.three_records Examples.lunch Examples.lunch Examples.bus
               <> []) by discriminate.
  assert (H2 : Forall positive_amount
                 (Examples.three_records Examples.lunch Examples.lunch Examples.bus))
    by (repeat constructor).
  assert (H3 : Forall (fun e => own_key (category e))
                 (Examples.three_records Examples.lunch Examples.lunch Examples.bus))
    by (repeat constructor).
  exact (conj H1 (conj H2 (conj H3
           (proj1 C7_top_category_has_the_largest_sum _ H1 H2 H3)))).
Defined.

(** C7 as stated fails when a category code names a member of
    [Object.prototype]: the list holds a record of category ["food"] of
    amount 5 and one of category ["constructor"] of amount 100.  Line 285
    reads the inherited [constructor], so that the entry of that category
    is a string; the subtraction of line 291 gives [NaN] for it, the sort
    leaves the entries in their order, and ["food"] is ranked first and
    shown, although its sum is the smaller one. *)
Lemma C7_counterexample :
  let l := Examples.inherited_code in
  l <> [] /\ Forall valid_record l /\
  categoryTotals l = [(str "food", Sum 5%float); (str "constructor", Text)] /\
  highest l = Some (str "food", Sum 5%float) /\
  group_sum (str "food") l = 5%float /\
  group_sum (str "constructor") l = 100%float /\
  ~ largest_sum (str "food") l /\
  exists st',
    updateSummary (Examples.with_expenses l) = (Normal tt, st') /\
    summary_texts st' = (rupee ++ str "105.00", str "2", [0xD83C; 0xDF54]%N).
Proof.
  cbv zeta. split; [discriminate|].
  split; [repeat constructor; discriminate|].
  split; [reflexivity|]. split; [reflexivity|].
  split; [reflexivity|]. split; [reflexivity|]. split.
  - intros [_ H]. specialize (H (str "constructor")).
    assert (Hin : In (str "constructor")
                    (categories Examples.inherited_code))
      by (right; left; reflexivity).
    specialize (H Hin). vm_compute in H. discriminate.
  - eexists. split; vm_compute; reflexivity.
Qed.

Lemma updateSummary_texts (st : state) :
  fst (updateSummary st) = Normal tt ->
  summary_texts (snd (updateSummary st)) =
  (rupee ++ toFixed (total (expenses st)) 2,
   Number_toString (number_of_nat (List.length (expenses st))),
   match expenses st with
   | [] => str "-"
   | _ :: _ =>
       match highest (expenses st) with
       | Some h =>
           match option_text (page st) (fst h) with
           | Some categoryName => first_word categoryName
           | None => highestCategory_textContent (page st)
           end
       | None => highestCategory_textContent (page st)
       end
   end).
Proof.
  unfold updateSummary. rewrite bind_get.
  destruct (expenses st) as [|e l] eqn:E; [reflexivity|].
  change (Nat.eqb (List.length (e :: l)) 0) with false. cbv iota.
  destruct (highest (e :: l)) as [h|]; [|reflexivity].
  destruct (option_text (page st) (fst h)); [reflexivity|].
  rewrite bind_modify. discriminate.
Qed.

(** C10, as the code has it: on a non-empty list of records with
    positive amounts whose category codes are neither array indices nor
    names of members of [Object.prototype], the three texts of the
    summary are determined by the list and the category table, and the
    category ranked first has the largest group sum and, among those
    that have it, is the one met first in the list. *)
Theorem C10_first_category_with_the_largest_sum (l : list expense) :
  l <> [] -> Forall positive_amount l ->
  Forall (fun e => own_key (category e)) l ->
  Forall (fun e => array_index (category e) = None) l ->
  (forall st1 st2 : state,
     expenses st1 = l -> expenses st2 = l ->
     categorySelect_options (page st1) = categorySelect_options (page st2) ->
     fst (updateSummary st1) = Normal tt ->
     fst (updateSummary st2) = Normal tt ->
     summary_texts (snd (updateSummary st1))
     = summary_texts (snd (updateSummary st2)))
  /\ exists c, highest l = Some (c, Sum (group_sum c l)) /\ first_largest c l.
Proof.
  intros Hl HF HO HP. split; [|now apply highest_first_largest].
  intros st1 st2 E1 E2 Eo N1 N2.
  rewrite (updateSummary_texts st1 N1), (updateSummary_texts st2 N2).
  rewrite E1, E2. f_equal.
  destruct l as [|e l]; [reflexivity|].
  destruct (highest (e :: l)) as [h|] eqn:Eh.
  - unfold option_text. rewrite Eo.
    destruct (obj_get (categorySelect_options (page st2)) (fst h)) eqn:Eg;
      [reflexivity|].
    exfalso. revert N2. unfold updateSummary. rewrite bind_get, E2.
    change (Nat.eqb (List.length (e :: l)) 0) with false. cbv iota.
    rewrite Eh. unfold option_text. rewrite Eg. rewrite bind_modify.
    discriminate.
  - exfalso. now apply (highest_defined (e :: l)).
Qed.

Lemma C10_witness :
  let l := [Examples.priced Examples.lunch 5 (str "rent");
            Examples.priced Examples.bus 5 (str "food")] in
  (l <> [] /\ Forall positive_amount l /\
   Forall (fun e => own_key (category e)) l /\
   Forall (fun e => array_index (category e) = None) l) /\
  (forall st1 st2 : state,
     expenses st1 = l -> expenses st2 = l ->
     categorySelect_options (page st1) = categorySelect_options (page st2) ->
     fst (updateSummary st1) = Normal tt ->
     fst (updateSummary st2) = Normal tt ->
     summary_texts (snd (updateSummary st1))
     = summary_texts (snd (updateSummary st2)))
  /\ exists c, highest l = Some (c, Sum (group_sum c l)) /\ first_largest c l.
Proof.
  set (l := [Examples.priced Examples.lunch 5 (str "rent");
             Examples.priced Examples.bus 5 (str "food")]).
  assert (H1 : l <> []) by discriminate.
  assert (H2 : Forall positive_amount l) by (repeat constructor).
  assert (H3 : Forall (fun e => own_key (category e)) l)
    by (repeat constructor).
  assert (H4 : Forall (fun e => array_index (category e) = None) l)
    by (repeat constructor).
  exact (conj (conj H1 (conj H2 (conj H3 H4)))
           (C10_first_category_with_the_largest_sum l H1 H2 H3 H4)).
Defined.

(** C10 as stated fails when category codes are array indices: the list
    holds a record of category ["2"] and then one of category ["1"], both
    of amount 5; [Object.entries] lists ["1"] first, the sort keeps it
    there, and ["1"] is ranked first although ["2"] is met first.  It
    fails as well when a category code is ["__proto__"]: the assignment
    of line 285 is dropped, so that in a tie of ["__proto__"], met first,
    with ["food"] the category ["food"] is ranked first; and on a list
    with no other category nothing is ranked, line 293 is skipped, and
    the top category on the page is the one that was there: two pages
    with the same list and the same table show different summaries. *)
Lemma C10_counterexample :
  (let l := Examples.numbered_tie in
   l <> [] /\ Forall positive_amount l /\
   Forall (fun e => own_key (category e)) l /\
   group_sum (str "2") l = group_sum (str "1") l /\
   highest l = Some (str "1", Sum 5%float) /\
   ~ first_largest (str "1") l)
  /\ (let l := Examples.accessor_tie in
      l <> [] /\ Forall positive_amount l /\
      Forall (fun e => array_index (category e) = None) l /\
      group_sum (str "__proto__") l = group_sum (str "food") l /\
      highest l = Some (str "food", Sum 5%float) /\
      ~ first_largest (str "food") l)
  /\ (let st1 := Examples.summarised (str "A")
                   (Examples.with_expenses Examples.accessor_only) in
      let st2 := Examples.summarised (str "B")
                   (Examples.with_expenses Examples.accessor_only) in
      expenses st1 = expenses st2 /\
      categorySelect_options (page st1) = categorySelect_options (page st2) /\
      fst (updateSummary st1) = Normal tt /\
      fst (updateSummary st2) = Normal tt /\
      summary_texts (snd (updateSummary st1))
      <> summary_texts (snd (updateSummary st2))).
Proof.
  split; [|split]; cbv zeta.
  - split; [discriminate|].
    split; [repeat constructor|]. split; [repeat constructor|].
    split; [reflexivity|]. split; [reflexivity|].
    intros (_ & before & e & after & E & Hc & Hb).
    destruct before as [|x before].
    + injection E as <- _. discriminate.
    + injection E as <- E. specialize (Hb _ (or_introl eq_refl)).
      vm_compute in Hb. discriminate.
  - split; [discriminate|].
    split; [repeat constructor|]. split; [repeat constructor|].
    split; [reflexivity|]. split; [reflexivity|].
    intros (_ & before & e & after & E & Hc & Hb).
    destruct before as [|x before].
    + injection E as <- _. discriminate.
    + injection E as <- E. specialize (Hb _ (or_introl eq_refl)).
      vm_compute in Hb. discriminate.
  - split; [reflexivity|]. split; [reflexivity|].
    split; [vm_compute; reflexivity|]. split; [vm_compute; reflexivity|].
    vm_compute. discriminate.
Qed.

(** ** Loading and saving *)

Import JSONFacts RoundTrip Storage.

(** C1, as the code has it: when the slot is absent, holds the empty
    string, or holds a text that [JSON.parse] rejects, [loadExpenses],
    called as the script calls it on the empty list, returns normally
    with the empty list and the slot untouched; the session goes on: the
    next accepted form is added. *)
Theorem C1_load_falls_back_to_the_empty_list (st : state) :
  expenses st = [] ->
  stored st = None \/ stored st = Some []
  \/ (exists text, stored st = Some text /\ malformed text) ->
  exists st',
    loadExpenses st = (Normal tt, st') /\
    expenses st' = [] /\ stored st' = stored st /\
    forall now today,
      accepted (page st') = true ->
      expenses (snd (addExpense now today st')) = [draft now (page st')].
Proof.
  intros E H.
  destruct (loadExpenses_falls_back st E H) as (st' & Hl & E' & S').
  exists st'. repeat split; try assumption.
  intros now today Ha. rewrite (addExpense_accepts now today st' Ha).
  now rewrite E'.
Qed.

Lemma C1_witness :
  let st := Examples.fresh_state (Some (str "{oops")) in
  expenses st = [] /\ malformed (str "{oops") /\
  exists st',
    loadExpenses st = (Normal tt, st') /\
    expenses st' = [] /\ stored st' = stored st /\
    forall now today,
      accepted (page st') = true ->
      expenses (snd (addExpense now today st')) = [draft now (page st')].
Proof.
  assert (Hm : malformed (str "{oops")) by (vm_compute; reflexivity).
  split; [reflexivity|]. split; [exact Hm|].
  apply (C1_load_falls_back_to_the_empty_list
           (Examples.fresh_state (Some (str "{oops"))) eq_refl).
  right. right. exists (str "{oops"). split; [reflexivity | exact Hm].
Defined.

(** C1 as stated fails on a slot whose text is well-formed JSON but no
    list of records: the slot holds [null].  [JSON.parse] returns, the
    handler of line 41 is not entered, and line 40 has bound [expenses]
    to [null]: the load does not end with the empty list, and the script
    goes on with a value that is no array. *)
Lemma C1_counterexample :
  let st := Examples.fresh_state (Some (str "null")) in
  expenses st = [] /\ stored st = Some (str "null") /\
  deserialize (str "null") = None /\
  JSON.parse_text (str "null") = Ok JNull /\
  loadExpenses st = (Untyped JNull, st) /\
  ~ exists st', loadExpenses st = (Normal tt, st') /\ expenses st' = [].
Proof.
  cbv zeta.
  assert (E : loadExpenses (Examples.fresh_state (Some (str "null")))
              = (Untyped JNull, Examples.fresh_state (Some (str "null"))))
    by (vm_compute; reflexivity).
  split; [reflexivity|]. split; [reflexivity|].
  split; [vm_compute; reflexivity|]. split; [vm_compute; reflexivity|].
  split; [exact E|].
  intros (st' & H & _). rewrite E in H. discriminate.
Qed.



(** C6, as the code has it: when the slot is absent or empty, does not
    parse, or parses to records that satisfy the field invariants, every
    record of every state that follows the start by events has a
    positive amount and a non-empty description. *)
Theorem C6_fields_stay_valid_after_a_trusted_load
  (st0 : state) (today : jsstring) (evs : list event) :
  trusted_slot (stored st0) ->
  Forall valid_record (expenses (run evs (snd (startup today st0)))).
Proof.
  intros H. apply run_valid. rewrite startup_expenses.
  unfold trusted_slot in H.
  destruct (stored st0) as [text|]; [|constructor].
  destruct (str_truthy text); [|constructor].
  destruct (JSON.parse text) as [v|]; [|constructor].
  destruct H as (l & -> & Hl). exact Hl.
Qed.

Lemma C6_witness :
  let st0 := Examples.fresh_state (Some Examples.lunch_snapshot) in
  let evs := [TypeAmount (str "3"); TypeDescription (str "bus");
              SelectCategory (str "transport");
              ClickAdd 1737900060000 (str "2025-01-26");
              ClickDelete 1737900000000 true] in
  trusted_slot (stored st0) /\
  Forall valid_record (expenses (run evs (snd (startup (str "2025-01-26") st0)))).
Proof.
  assert (H : trusted_slot
                (stored (Examples.fresh_state (Some Examples.lunch_snapshot)))).
  { exists [Examples.lunch]. split; [vm_compute; reflexivity|].
    repeat constructor. discriminate. }
  exact (conj H (C6_fields_stay_valid_after_a_trusted_load _ _ _ H)).
Defined.

(** C6 as stated fails: the start installs whatever records the slot
    holds.  With a snapshot whose record has the amount -5 and an empty
    description the state after the start is reachable and breaks both
    invariants. *)
Lemma C6_counterexample :
  let st := snd (startup (str "2025-01-27")
                   (Examples.fresh_state (Some Examples.foreign_snapshot))) in
  reachable st /\
  (exists e, expenses st = [e] /\ PrimFloat.ltb 0 (amount e) = false
             /\ description e = []) /\
  ~ Forall valid_record (expenses st).
Proof.
  cbv zeta. split; [|split].
  - apply reach_startup
      with (st0 := Examples.fresh_state (Some Examples.foreign_snapshot))
           (today := str "2025-01-27") (c := Normal tt).
    + vm_compute. reflexivity.
    + intros v. discriminate.
  - eexists. split; [vm_compute; reflexivity|]. split; reflexivity.
  - intros H. rewrite startup_expenses in H.
    vm_compute in H. inversion H as [|? ? [_ Hd] _]. now apply Hd.
Qed.

(* ================================================================== *)
(** * Facts about the list over a session *)
(* ================================================================== *)

Module StoreFacts.

Import Display PageFacts SessionFacts Frames Persistence.
Local Open Scope action_scope.

(** ** Subsequences *)

Lemma subsequence_refl {A} (l : list A) : subsequence l l.
Proof. induction l; now constructor. Qed.

Lemma subsequence_nil {A} (l : list A) : subsequence [] l.
Proof. induction l; now constructor. Qed.

Lemma subsequence_trans {A} (a b c : list A) :
  subsequence a b -> subsequence b c -> subsequence a c.
Proof.
  intros Hab Hbc. revert a Hab.
  induction Hbc as [|x b c _ IH|x b c _ IH]; intros a Hab.
  - assumption.
  - apply sub_skip. now apply IH.
  - inversion Hab as [|? ? ? H|? ? ? H]; subst.
    + apply sub_skip. now apply IH.
    + apply sub_keep. now apply IH.
Qed.



(** ** Events and the list *)

(** The list after an event, by the kind of the event. *)
Lemma step_list ev st :
  expenses (step ev st) =
  match ev with
  | ClickAdd now _ =>
      if accepted (page st) then draft now (page st) :: expenses st
      else expenses st
  | ClickDelete id0 true =>
      List.filter (fun e => strict_neq (id e) id0) (expenses st)
  | ClickClearAll true => []
  | _ => expenses st
  end.
Proof.
  unfold step. destruct ev; simpl handle; try reflexivity.
  - unfold modify. cbn [snd]. now destruct (option_text _ _).
  - rewrite bind_modify.
    now rewrite (keeps_data_expenses _ keeps_data_renderExpenses).
  - apply addExpense_expenses.
  - rewrite deleteExpense_expenses. now destruct confirmed.
  - rewrite clearAllExpenses_expenses. now destruct confirmed.
Qed.

Lemma step_shrinks ev st :
  clock [ev] = [] -> subsequence (expenses (step ev st)) (expenses st).
Proof.
  intros H. rewrite step_list. destruct ev; try apply subsequence_refl.
  - discriminate.
  - destruct confirmed; [apply filter_subsequence | apply subsequence_refl].
  - destruct confirmed; [apply subsequence_nil | apply subsequence_refl].
Qed.

Lemma clock_cons ev evs : clock (ev :: evs) = clock [ev] ++ clock evs.
Proof. unfold clock. simpl. now rewrite app_nil_r. Qed.

(** ** Ids *)

Lemma strict_eq_false_sym a b : strict_eq a b = false -> strict_eq b a = false.
Proof.
  intros H. destruct (strict_eq b a) eqn:E; [|reflexivity].
  apply strict_eq_sym in E. congruence.
Qed.

Lemma unique_cons e l :
  ~ has_id (id e) l -> unique_ids l -> unique_ids (e :: l).
Proof.
  intros H HU. constructor; [|assumption].
  apply Forall_forall. intros x Hx. apply strict_eq_false_sym.
  destruct (strict_eq (id x) (id e)) eqn:E; [|reflexivity].
  exfalso. apply H. apply Exists_exists. now exists x.
Qed.

Lemma unique_filter f l : unique_ids l -> unique_ids (List.filter f l).
Proof.
  unfold unique_ids. induction 1 as [|e l HF _ IH]; simpl; [constructor|].
  destruct (f e); [|assumption].
  constructor; [|assumption].
  apply Forall_forall. intros x Hx. apply filter_In in Hx as [Hx _].
  rewrite Forall_forall in HF. now apply HF.
Qed.

Lemma has_id_filter f id0 l :
  has_id id0 (List.filter f l) -> has_id id0 l.
Proof.
  unfold has_id. rewrite !Exists_exists. intros (e & He & E).
  apply filter_In in He as [He _]. now exists e.
Qed.

(** An event keeps the ids distinct unless it adds a record at a clock
    value that is the id of a record of the list. *)
Lemma step_unique ev st :
  unique_ids (expenses st) ->
  Forall (fun now => ~ has_id now (expenses st)) (clock [ev]) ->
  unique_ids (expenses (step ev st)).
Proof.
  intros HU HC. rewrite step_list. destruct ev; try assumption.
  - destruct (accepted (page st)); [|assumption].
    apply unique_cons; [|assumption].
    simpl in HC. now inversion HC.
  - destruct confirmed; [now apply unique_filter | assumption].
  - destruct confirmed; [constructor | assumption].
Qed.

(** The ids of the list after an event: those before it, and the clock
    value of an addition. *)
Lemma step_has_id ev st id0 :
  has_id id0 (expenses (step ev st)) ->
  has_id id0 (expenses st)
  \/ Exists (fun now => strict_eq now id0 = true) (clock [ev]).
Proof.
  rewrite step_list. destruct ev; try (now left).
  - destruct (accepted (page st)); [|now left].
    intros H. inversion H as [? ? E|? ? H']; subst.
    + right. now left.
    + now left.
  - destruct confirmed; [|now left]. intros H. left.
    revert H. apply has_id_filter.
  - destruct confirmed; [|now left]. intros H. inversion H.
Qed.

(** ** The page of the empty list *)

Lemma visible_nil filter : visible [] filter = [].
Proof. unfold visible. now destruct (str_eqb _ _). Qed.

Lemma refresh_of_nothing st :
  expenses st = [] ->
  exists message,
    (renderExpenses ;; updateSummary) st =
    (Normal tt,
     set_page (with_summary (rupee ++ str "0.00") (str "0") (str "-")
                 (with_list (EmptyState message) (page st))) st).
Proof.
  intros E. unfold bind at 1. unfold renderExpenses. rewrite bind_get.
  rewrite E, visible_nil. cbn [List.length Nat.eqb].
  eexists. unfold modify. unfold updateSummary. rewrite bind_get.
  cbn [expenses set_page]. rewrite E. reflexivity.
Qed.

(** ** The form after an addition *)

(** An addition that returns has cleared the form. *)
Lemma addExpense_returns now today st st' :
  accepted (page st) = true ->
  addExpense now today st = (Normal tt, st') ->
  exists s, st' = set_page (with_form [] [] (str "food") today (page s)) s.
Proof.
  intros A. unfold addExpense.
  rewrite (bind_Normal _ _ _ _ _ (validateInput_accepts st A)).
  cbv beta. change (negb true) with false. cbv iota.
  rewrite bind_get, bind_modify. unfold bind.
  destruct (saveExpenses _) as [[[]|?|?] s1]; try discriminate.
  destruct (renderExpenses s1) as [[[]|?|?] s2]; try discriminate.
  destruct (updateSummary s2) as [[[]|?|?] s3]; try discriminate.
  unfold clearForm, modify. intros [= <-]. now exists s3.
Qed.

End StoreFacts.

(* ================================================================== *)
(** * Facts about the form *)
(* ================================================================== *)

Module FormFacts.

Import Display PageFacts SessionFacts.
Local Open Scope action_scope.

(** ** White space *)

Lemma trimStart_blank s : trimStart s = [] <-> blank s.
Proof.
  unfold blank. induction s as [|c s IH]; simpl.
  - split; [constructor | reflexivity].
  - destruct (is_js_whitespace c) eqn:E.
    + rewrite IH. split; [now constructor|].
      intros H. now inversion H.
    + split; [discriminate|]. intros H. inversion H. congruence.
Qed.

Lemma trimStart_head s c r :
  trimStart s = c :: r -> is_js_whitespace c = false.
Proof.
  induction s as [|d s IH]; simpl; [discriminate|].
  destruct (is_js_whitespace d) eqn:E; [assumption|].
  now intros [= <- _].
Qed.

Lemma trimStart_split s : exists a, s = a ++ trimStart s /\ blank a.
Proof.
  induction s as [|c s (a & E & Ha)]; simpl.
  - exists []. split; [reflexivity | constructor].
  - destruct (is_js_whitespace c) eqn:W.
    + exists (c :: a). split; [simpl; now rewrite <- E | now constructor].
    + exists []. split; [reflexivity | constructor].
Qed.

Lemma blank_rev s : blank s -> blank (rev s).
Proof. unfold blank. apply Forall_rev. Qed.

Lemma trimEnd_split s : exists b, s = trimEnd s ++ b /\ blank b.
Proof.
  unfold trimEnd. destruct (trimStart_split (rev s)) as (a & E & Ha).
  exists (rev a). split; [|now apply blank_rev].
  rewrite <- rev_app_distr, <- E. now rewrite rev_involutive.
Qed.

(** What [trim] removes is white space at both ends, and what it leaves
    neither starts nor ends with white space. *)
Lemma trim_split s :
  exists a b, s = a ++ trim s ++ b /\ blank a /\ blank b.
Proof.
  destruct (trimStart_split s) as (a & E & Ha).
  destruct (trimEnd_split (trimStart s)) as (b & E' & Hb).
  exists a, b. unfold trim. rewrite <- E'. now repeat split.
Qed.

Lemma trim_last s c r :
  rev (trim s) = c :: r -> is_js_whitespace c = false.
Proof.
  unfold trim, trimEnd. rewrite rev_involutive. apply trimStart_head.
Qed.

Lemma trim_first s c r : trim s = c :: r -> is_js_whitespace c = false.
Proof.
  intros H. destruct (trimEnd_split (trimStart s)) as (b & E & _).
  fold (trim s) in E. rewrite H in E. simpl in E.
  now apply trimStart_head in E.
Qed.

Lemma trim_blank s : trim s = [] <-> blank s.
Proof.
  split.
  - intros H. destruct (trim_split s) as (a & b & E & Ha & Hb).
    rewrite H in E. simpl in E. rewrite E. unfold blank in *.
    apply Forall_app. now split.
  - intros H. apply trimStart_blank in H. unfold trim. now rewrite H.
Qed.

Lemma blank_dec s : blank s \/ ~ blank s.
Proof.
  destruct (trim s) eqn:E.
  - left. now apply trim_blank.
  - right. intros H. apply trim_blank in H. congruence.
Qed.

(** ** The amount test *)

Lemma amount_test a :
  negb (num_truthy a) || PrimFloat.leb a 0 = true <->
  PrimFloat.is_nan a = true \/ PrimFloat.eqb a 0 = true
  \/ PrimFloat.ltb a 0 = true.
Proof.
  split; [|apply rejected_amount].
  intros H. apply orb_true_iff in H as [H|H].
  - apply negb_true_iff in H. unfold num_truthy in H.
    apply negb_false_iff, orb_true_iff in H as [H|H]; [now left|].
    right. left. exact H.
  - destruct (leb_not_nan _ _ H) as [Na N0].
    rewrite leb_value in H by assumption. apply Z.leb_le in H.
    right. rewrite eqb_value, ltb_value by assumption.
    destruct (Z.eq_dec (value a) (value 0)) as [E|E].
    + left. now apply Z.eqb_eq.
    + right. apply Z.ltb_lt. lia.
Qed.

Lemma amount_at_fault_test p :
  amount_at_fault p <->
  negb (num_truthy (parseFloat (amountInput_value p)))
  || PrimFloat.leb (parseFloat (amountInput_value p)) 0 = true.
Proof. unfold amount_at_fault. symmetry. apply amount_test. Qed.

(** An amount field with nothing but white space gives no Number. *)
Lemma blank_amount s : blank s -> PrimFloat.is_nan (parseFloat s) = true.
Proof.
  intros H. apply trimStart_blank in H. unfold parseFloat. rewrite H.
  reflexivity.
Qed.

(** ** validateInput, test by test *)

Lemma validateInput_cases st :
  (amount_at_fault (page st) /\
   validateInput st =
   (Normal false, reporting "Please enter a valid amount greater than 0" st))
  \/ (~ amount_at_fault (page st) /\
      blank (descriptionInput_value (page st)) /\
      validateInput st =
      (Normal false, reporting "Please enter a description" st))
  \/ (~ amount_at_fault (page st) /\
      ~ blank (descriptionInput_value (page st)) /\
      dateInput_value (page st) = [] /\
      validateInput st =
      (Normal false, reporting "Please select a date" st))
  \/ (~ amount_at_fault (page st) /\
      ~ blank (descriptionInput_value (page st)) /\
      dateInput_value (page st) <> [] /\
      accepted (page st) = true /\
      validateInput st = (Normal true, st)).
Proof.
  unfold validateInput, accepted. rewrite bind_get.
  destruct (negb (num_truthy _) || PrimFloat.leb _ 0) eqn:A.
  - left. split; [now apply amount_at_fault_test | reflexivity].
  - right.
    assert (HA : ~ amount_at_fault (page st)).
    { intros H. apply amount_at_fault_test in H. congruence. }
    destruct (trim (descriptionInput_value (page st))) as [|c r] eqn:T.
    + left. split; [assumption|]. split; [now apply trim_blank|].
      reflexivity.
    + right.
      assert (HB : ~ blank (descriptionInput_value (page st))).
      { intros H. apply trim_blank in H. congruence. }
      destruct (dateInput_value (page st)) as [|d dt] eqn:D.
      * left. now repeat split.
      * right. repeat split; try assumption. discriminate.
Qed.

End FormFacts.

(* ================================================================== *)
(** * Facts about the amounts on the page *)
(* ================================================================== *)

Module Amounts.

Import Display.
Local Open Scope Z_scope.

(** ** Digits *)

Lemma uint_digits_digits u : forallb is_digit (uint_digits u) = true.
Proof. induction u; simpl; try assumption; reflexivity. Qed.

Lemma decimal_digits_digits z : forallb is_digit (decimal_digits z) = true.
Proof. apply uint_digits_digits. Qed.

Lemma zeros_digits n : forallb is_digit (zeros n) = true.
Proof.
  unfold zeros. induction (Z.to_nat n) as [|k IH]; [reflexivity|].
  simpl. exact IH.
Qed.

Lemma zeros_length n : List.length (zeros n) = Z.to_nat n.
Proof. unfold zeros. apply repeat_length. Qed.

(** Digits with the point before the last two. *)
Lemma two_places ds :
  forallb is_digit ds = true -> (3 <= List.length ds)%nat ->
  exists whole cents,
    firstn (Z.to_nat (Z.of_nat (List.length ds) - 2)) ds ++ str "." ++
    skipn (Z.to_nat (Z.of_nat (List.length ds) - 2)) ds
    = whole ++ str "." ++ cents /\
    whole <> [] /\ forallb is_digit whole = true /\
    List.length cents = 2%nat /\ forallb is_digit cents = true.
Proof.
  intros Hd Hl.
  set (n := Z.to_nat (Z.of_nat (List.length ds) - 2)).
  assert (Hn : n = (List.length ds - 2)%nat) by (unfold n; lia).
  exists (firstn n ds), (skipn n ds).
  rewrite <- (firstn_skipn n ds), forallb_app in Hd.
  apply andb_prop in Hd as [H1 H2].
  split; [reflexivity|]. split; [|split; [exact H1|split; [|exact H2]]].
  - intros E. apply (f_equal (@List.length _)) in E.
    rewrite length_firstn in E. simpl in E. lia.
  - rewrite length_skipn. lia.
Qed.

(** ** Amounts below 10^21 *)

Lemma value_1e21 : value 1e21 = 10 ^ 21 * 2 ^ 1074.
Proof. vm_compute. reflexivity. Qed.

Lemma below_1e21 x s m e :
  Prim2SF x = S754_finite s m e ->
  PrimFloat.ltb (PrimFloat.abs x) 1e21 = true ->
  below_pow10 (fst (exact_fraction m e)) (snd (exact_fraction m e)) 21
  = true.
Proof.
  intros E H.
  pose proof (Prim2SF_valid x) as V. rewrite E in V. simpl in V.
  apply bounded_inv in V as [Hb _].
  destruct (ltb_not_nan _ _ H) as [Na Nb].
  rewrite ltb_value in H by assumption. apply Z.ltb_lt in H.
  rewrite value_1e21 in H.
  unfold value in H. rewrite abs_spec, E in H. simpl SFabs in H.
  unfold SFvalue in H.
  unfold below_pow10, exact_fraction. change (0 <=? 21) with true. cbv iota.
  assert (P : 0 < 2 ^ 1074) by (apply Z.pow_pos_nonneg; lia).
  destruct (0 <=? e) eqn:Ee; simpl fst; simpl snd; apply Z.ltb_lt.
  - apply Z.leb_le in Ee.
    rewrite (Z.pow_add_r 2 e 1074) in H by lia.
    rewrite Z.mul_assoc in H.
    apply (Z.mul_lt_mono_pos_r (2 ^ 1074)); [exact P|].
    rewrite Z.mul_1_l. exact H.
  - apply Z.leb_gt in Ee.
    assert (Q : 0 < 2 ^ (e + 1074)) by (apply Z.pow_pos_nonneg; lia).
    assert (S : 2 ^ 1074 = 2 ^ (- e) * 2 ^ (e + 1074)).
    { rewrite <- Z.pow_add_r by lia. f_equal. lia. }
    rewrite S in H.
    apply (Z.mul_lt_mono_pos_r (2 ^ (e + 1074))); [exact Q|].
    replace (2 ^ (- e) * 10 ^ 21 * 2 ^ (e + 1074))
      with (10 ^ 21 * (2 ^ (- e) * 2 ^ (e + 1074))) by ring.
    exact H.
Qed.

Lemma above_1e21 x s m e :
  Prim2SF x = S754_finite s m e ->
  PrimFloat.leb 1e21 (PrimFloat.abs x) = true ->
  below_pow10 (fst (exact_fraction m e)) (snd (exact_fraction m e)) 21
  = false.
Proof.
  intros E H.
  pose proof (Prim2SF_valid x) as V. rewrite E in V. simpl in V.
  apply bounded_inv in V as [Hb _].
  destruct (leb_not_nan _ _ H) as [Na Nb].
  rewrite leb_value in H by assumption. apply Z.leb_le in H.
  rewrite value_1e21 in H.
  unfold value in H. rewrite abs_spec, E in H. simpl SFabs in H.
  unfold SFvalue in H.
  unfold below_pow10, exact_fraction. change (0 <=? 21) with true. cbv iota.
  assert (P : 0 < 2 ^ 1074) by (apply Z.pow_pos_nonneg; lia).
  destruct (0 <=? e) eqn:Ee; simpl fst; simpl snd; apply Z.ltb_ge.
  - apply Z.leb_le in Ee.
    rewrite (Z.pow_add_r 2 e 1074) in H by lia.
    rewrite Z.mul_assoc in H.
    apply (Z.mul_le_mono_pos_r _ _ (2 ^ 1074)); [exact P|].
    rewrite Z.mul_1_l. exact H.
  - apply Z.leb_gt in Ee.
    assert (Q : 0 < 2 ^ (e + 1074)) by (apply Z.pow_pos_nonneg; lia).
    assert (S : 2 ^ 1074 = 2 ^ (- e) * 2 ^ (e + 1074)).
    { rewrite <- Z.pow_add_r by lia. f_equal. lia. }
    rewrite S in H.
    apply (Z.mul_le_mono_pos_r _ _ (2 ^ (e + 1074))); [exact Q|].
    replace (2 ^ (- e) * 10 ^ 21 * 2 ^ (e + 1074))
      with (10 ^ 21 * (2 ^ (- e) * 2 ^ (e + 1074))) by ring.
    exact H.
Qed.

(** From [10^21] on, and for what is no finite Number, [toFixed] writes
    what [Number_toString] writes. *)
Lemma toFixed_large x :
  PrimFloat.ltb (PrimFloat.abs x) 1e21 = false ->
  toFixed x 2 = Number_toString x.
Proof.
  intros H. unfold toFixed.
  destruct (Prim2SF x) as [s|s| |s m e] eqn:E; try reflexivity.
  - exfalso. rewrite ltb_spec, abs_spec, E in H. discriminate.
  - assert (L : PrimFloat.leb 1e21 (PrimFloat.abs x) = true).
    { assert (Na : PrimFloat.is_nan (PrimFloat.abs x) = false).
      { rewrite is_nan_spec, abs_spec, E. reflexivity. }
      rewrite ltb_value in H by (assumption || reflexivity).
      rewrite leb_value by (assumption || reflexivity).
      apply Z.ltb_ge in H. now apply Z.leb_le. }
    pose proof (above_1e21 x s m e E L) as B.
    destruct (exact_fraction m e) as [num den]. simpl fst in B.
    simpl snd in B. now rewrite B.
Qed.

(** [x.toFixed(2)] for [|x| < 10^21]: a sign, digits, the point and two
    digits. *)
Lemma toFixed_two x :
  PrimFloat.ltb (PrimFloat.abs x) 1e21 = true ->
  exists sign whole cents,
    toFixed x 2 = sign ++ whole ++ str "." ++ cents /\
    (sign = [] \/ sign = str "-") /\
    whole <> [] /\ forallb is_digit whole = true /\
    List.length cents = 2%nat /\ forallb is_digit cents = true.
Proof.
  intros H. unfold toFixed.
  destruct (Prim2SF x) as [s|s| |s m e] eqn:E.
  - exists [], (str "0"), (str "00"). repeat split; try discriminate.
    now left.
  - exfalso. rewrite ltb_spec, abs_spec, E in H. discriminate.
  - exfalso. rewrite ltb_spec, abs_spec, E in H. discriminate.
  - pose proof (below_1e21 x s m e E H) as B.
    destruct (exact_fraction m e) as [num den]. simpl fst in B.
    simpl snd in B. rewrite B. cbv zeta.
    change (0 <? 2) with true. cbv iota.
    change (negb true) with false. cbv iota.
    set (n := (2 * num * 10 ^ 2 + den) / (2 * den)).
    set (ds := if Z.of_nat (List.length (decimal_digits n)) <=? 2
               then zeros (2 + 1 - Z.of_nat (List.length (decimal_digits n)))
                    ++ decimal_digits n
               else decimal_digits n).
    assert (Hd : forallb is_digit ds = true).
    { unfold ds. destruct (_ <=? 2); [|apply decimal_digits_digits].
      rewrite forallb_app, zeros_digits. apply decimal_digits_digits. }
    assert (Hl : (3 <= List.length ds)%nat).
    { unfold ds. destruct (_ <=? 2) eqn:K.
      - apply Z.leb_le in K. rewrite length_app, zeros_length. lia.
      - apply Z.leb_gt in K. lia. }
    destruct (two_places ds Hd Hl) as (whole & cents & Ew & Hw).
    exists (if s then str "-" else []), whole, cents.
    split; [now rewrite Ew|].
    split; [destruct s; [now right | now left] | exact Hw].
Qed.

End Amounts.

(* ================================================================== *)
(** * Facts about a refresh of the page *)
(* ================================================================== *)

Module Refresh.

Import Display PageFacts SessionFacts Frames StoreFacts.
Local Open Scope action_scope.

(** ** The first word of a label *)

Lemma first_word_split s :
  exists rest,
    s = first_word s ++ rest /\ (rest = [] \/ exists r, rest = 32%N :: r).
Proof.
  induction s as [|c s (rest & E & H)]; simpl.
  - exists []. split; [reflexivity | now left].
  - destruct (N.eqb c 32) eqn:C.
    + apply N.eqb_eq in C. subst c. exists (32%N :: s).
      split; [reflexivity|]. right. now exists s.
    + exists rest. split; [simpl; now rewrite <- E | exact H].
Qed.

Lemma first_word_no_space s : ~ In 32%N (first_word s).
Proof.
  induction s as [|c s IH]; simpl; [tauto|].
  destruct (N.eqb c 32) eqn:C; [tauto|].
  apply N.eqb_neq in C. simpl. intros [H|H]; [congruence | now apply IH].
Qed.

(** ** Rendering twice *)

Lemma render_item_table p p' e :
  categorySelect_options p' = categorySelect_options p ->
  render_item p' e = render_item p e.
Proof. intros H. unfold render_item, option_text. now rewrite H. Qed.

Lemma map_render_item_table p p' l :
  categorySelect_options p' = categorySelect_options p ->
  List.map (render_item p') l = List.map (render_item p) l.
Proof.
  intros H. apply map_ext. intros e. now apply render_item_table.
Qed.

(** What [renderExpenses] does is set by the list, the filter and the
    category table. *)
Lemma renderExpenses_reads st :
  renderExpenses st = (Throw TypeError, st)
  \/ exists m,
       renderExpenses st = (Normal tt, set_page (with_list m (page st)) st)
       /\ forall st1,
            expenses st1 = expenses st ->
            filterCategory_value (page st1) = filterCategory_value (page st) ->
            categorySelect_options (page st1)
            = categorySelect_options (page st) ->
            renderExpenses st1
            = (Normal tt, set_page (with_list m (page st1)) st1).
Proof.
  unfold renderExpenses. rewrite bind_get.
  destruct (Nat.eqb _ 0) eqn:E.
  - right. eexists. split; [reflexivity|].
    intros st1 H1 H2 H3. rewrite bind_get, H1, H2, E. reflexivity.
  - destruct (all_some _) as [items|] eqn:A.
    + right. eexists. split; [reflexivity|].
      intros st1 H1 H2 H3. rewrite bind_get, H1, H2, E.
      rewrite (map_render_item_table _ _ _ H3), A. reflexivity.
    + now left.
Qed.

End Refresh.

(* ================================================================== *)
(** * More properties of script.js *)
(* ================================================================== *)

Import Display PageFacts SessionFacts Frames Persistence StoreFacts.

(** ** The list on the page *)

(** X1: when the category of every record that passes the filter has an
    option in the category select (whose codes are plain), [renderExpenses]
    returns, changes nothing but the list on the page, and the list it
    writes shows these records: the empty state when there is none, one
    item for each otherwise, in their order, each with the amount, the
    description, the label, the date and the id of its record.  The
    message of the empty state depends on the filter only. *)
Theorem X1_list_shows_the_visible_records (st : state) :
  plain_table (page st) ->
  Forall (listed (page st))
    (visible (expenses st) (filterCategory_value (page st))) ->
  exists st',
    renderExpenses st = (Normal tt, st') /\
    beside_list st' = beside_list st /\
    shows_list st' /\
    forall message,
      expenseList_innerHTML (page st') = EmptyState message ->
      (message = str "No expenses yet. Add your first expense!"
       /\ filterCategory_value (page st) = str "all")
      \/ (message = str "No expenses in this category"
          /\ filterCategory_value (page st) <> str "all").
Proof.
  intros _ H. destruct (renderExpenses_listed st H) as (m & E & Hd & Hm).
  eexists. split; [exact E|]. split; [reflexivity|]. split.
  - revert Hd. now apply displays_table.
  - exact Hm.
Qed.

Lemma X1_witness :
  let st := Cases.filtered_by "food"
              (Examples.with_expenses [Examples.bus; Examples.lunch]) in
  (plain_table (page st) /\
   Forall (listed (page st))
     (visible (expenses st) (filterCategory_value (page st)))) /\
  exists st',
    renderExpenses st = (Normal tt, st') /\
    beside_list st' = beside_list st /\
    shows_list st' /\
    forall message,
      expenseList_innerHTML (page st') = EmptyState message ->
      (message = str "No expenses yet. Add your first expense!"
       /\ filterCategory_value (page st) = str "all")
      \/ (message = str "No expenses in this category"
          /\ filterCategory_value (page st) <> str "all").
Proof.
  assert (H : let st := Cases.filtered_by "food"
                          (Examples.with_expenses
                             [Examples.bus; Examples.lunch]) in
              plain_table (page st) /\
              Forall (listed (page st))
                (visible (expenses st) (filterCategory_value (page st)))).
  { split; [repeat constructor|]. repeat constructor. discriminate. }
  exact (conj H (X1_list_shows_the_visible_records _ (proj1 H) (proj2 H))).
Defined.

(** X2: when a record that passes the filter has a category without an
    option in the category select (the codes of the records in view being
    plain), [renderExpenses] throws a TypeError before it writes
    anything: the state, the list on the page included, is as it was.  A
    record without a label that the filter hides does no harm (X1). *)
Theorem X2_missing_label_stops_the_rendering (st : state) :
  Forall (fun e => selector_plain (category e))
    (visible (expenses st) (filterCategory_value (page st))) ->
  Exists (fun e => ~ listed (page st) e)
    (visible (expenses st) (filterCategory_value (page st))) ->
  renderExpenses st = (Throw TypeError, st).
Proof.
  intros _ HE. unfold renderExpenses. rewrite bind_get.
  destruct (Nat.eqb _ 0) eqn:E.
  - apply length_zero in E. rewrite E in HE. inversion HE.
  - rewrite all_some_None; [reflexivity|].
    revert HE. apply Exists_impl. intros e He.
    destruct (render_item (page st) e) eqn:R; [|reflexivity].
    exfalso. apply He. apply render_item_listed. congruence.
Qed.

Lemma X2_witness :
  let st := Examples.with_expenses [Examples.lunch; Cases.gift] in
  (Forall (fun e => selector_plain (category e))
     (visible (expenses st) (filterCategory_value (page st))) /\
   Exists (fun e => ~ listed (page st) e)
     (visible (expenses st) (filterCategory_value (page st)))) /\
  renderExpenses st = (Throw TypeError, st).
Proof.
  assert (H : let st := Examples.with_expenses [Examples.lunch; Cases.gift] in
              Forall (fun e => selector_plain (category e))
                (visible (expenses st) (filterCategory_value (page st))) /\
              Exists (fun e => ~ listed (page st) e)
                (visible (expenses st) (filterCategory_value (page st)))).
  { split; [repeat constructor|]. right. left. intros H. now apply H. }
  exact (conj H (X2_missing_label_stops_the_rendering _ (proj1 H) (proj2 H))).
Defined.

(** X3: an addition that puts a record without a label into view is
    stored but not shown.  When the form is valid and a record of the new
    list that passes the filter has a category without an option (the
    codes of the records in view being plain),
    [addExpense] throws a TypeError after [saveExpenses]: the record is in
    the list and, if its text fits, in the slot, while the list on the
    page, the summary and the form are as they were, so that the next
    click adds the same input once more. *)
Theorem X3_unshown_addition_keeps_the_form
  (st : state) (now : number) (today : jsstring) :
  accepted (page st) = true ->
  Forall (fun e => selector_plain (category e))
    (visible (draft now (page st) :: expenses st)
       (filterCategory_value (page st))) ->
  Exists (fun e => ~ listed (page st) e)
    (visible (draft now (page st) :: expenses st)
       (filterCategory_value (page st))) ->
  exists st',
    addExpense now today st = (Throw TypeError, st') /\
    expenses st' = draft now (page st) :: expenses st /\
    (fits st' -> stored st' = Some (serialize (expenses st'))) /\
    form (page st') = form (page st) /\
    expenseList_innerHTML (page st') = expenseList_innerHTML (page st) /\
    summary_texts st' = summary_texts st /\
    forall now' today',
      expenses (snd (addExpense now' today' st')) =
      draft now' (page st) :: draft now (page st) :: expenses st.
Proof.
  intros A _ HE. unfold addExpense at 1.
  rewrite (bind_Normal _ _ _ _ _ (validateInput_accepts st A)).
  cbv beta. change (negb true) with false. cbv iota.
  rewrite bind_get, bind_modify.
  change (set_expenses _ st)
    with (set_expenses (draft now (page st) :: expenses st) st).
  set (st1 := set_expenses _ st).
  assert (Hs : exists s1,
             saveExpenses st1 = (Normal tt, s1) /\
             expenses s1 = expenses st1 /\ quota s1 = quota st1 /\
             (fits st1 -> stored s1 = Some (serialize (expenses st1))) /\
             form (page s1) = form (page st) /\
             filterCategory_value (page s1) = filterCategory_value (page st) /\
             categorySelect_options (page s1)
             = categorySelect_options (page st) /\
             expenseList_innerHTML (page s1)
             = expenseList_innerHTML (page st) /\
             summary_texts s1 = summary_texts st).
  { destruct (fits_dec st1) as [F|F].
    - rewrite (saveExpenses_fits _ F). eexists. split; [reflexivity|].
      now repeat split.
    - rewrite (saveExpenses_full _ F). eexists. split; [reflexivity|].
      repeat split. intros F'. contradiction. }
  destruct Hs as (s1 & Es & H1 & Hq & H2 & H3 & H4 & H5 & H6 & H7).
  rewrite (bind_Normal _ _ _ _ _ Es).
  assert (Hr : renderExpenses s1 = (Throw TypeError, s1)).
  { apply renderExpenses_unlisted. rewrite H1, H4.
    revert HE. apply Exists_impl. intros e He Hl. apply He.
    revert Hl. now apply listed_table. }
  unfold bind at 1. rewrite Hr.
  exists s1. split; [reflexivity|]. split; [exact H1|].
  split; [|split; [exact H3|split; [exact H6|split; [exact H7|]]]].
  - intros F. rewrite H1. apply H2. unfold fits in *.
    now rewrite <- H1, <- Hq.
  - intros now' today'. rewrite addExpense_expenses, H1.
    assert (Ed : forall n, draft n (page s1) = draft n (page st)).
    { intros n. unfold draft. unfold form in H3.
      injection H3 as -> -> -> ->. reflexivity. }
    assert (Ea : accepted (page s1) = accepted (page st)).
    { unfold accepted. unfold form in H3. injection H3 as -> -> _ ->.
      reflexivity. }
    rewrite Ea, A, Ed. reflexivity.
Qed.

Lemma X3_witness :
  let st := Examples.filled_form (Examples.with_expenses [Cases.gift]) in
  (accepted (page st) = true /\
   Forall (fun e => selector_plain (category e))
     (visible (draft 1737900180000 (page st) :: expenses st)
        (filterCategory_value (page st))) /\
   Exists (fun e => ~ listed (page st) e)
     (visible (draft 1737900180000 (page st) :: expenses st)
        (filterCategory_value (page st)))) /\
  exists st',
    addExpense 1737900180000 (str "2025-01-27") st = (Throw TypeError, st') /\
    expenses st' = draft 1737900180000 (page st) :: expenses st /\
    (fits st' -> stored st' = Some (serialize (expenses st'))) /\
    form (page st') = form (page st) /\
    expenseList_innerHTML (page st') = expenseList_innerHTML (page st) /\
    summary_texts st' = summary_texts st /\
    forall now' today',
      expenses (snd (addExpense now' today' st')) =
      draft now' (page st) :: draft 1737900180000 (page st) :: expenses st.
Proof.
  assert (H : let st := Examples.filled_form
                          (Examples.with_expenses [Cases.gift]) in
              accepted (page st) = true /\
              Forall (fun e => selector_plain (category e))
                (visible (draft 1737900180000 (page st) :: expenses st)
                   (filterCategory_value (page st))) /\
              Exists (fun e => ~ listed (page st) e)
                (visible (draft 1737900180000 (page st) :: expenses st)
                   (filterCategory_value (page st)))).
  { split; [vm_compute; reflexivity|]. split; [repeat constructor|].
    right. left. intros H. now apply H. }
  exact (conj H (X3_unshown_addition_keeps_the_form _ _ _
                   (proj1 H) (proj1 (proj2 H)) (proj2 (proj2 H)))).
Defined.

(** ** The summary *)

(** X4: on records with positive amounts whose category codes are
    ordinary property names, when the category ranked first, which has
    the largest group sum, has a plain code and no option in the category
    select, [updateSummary] throws a TypeError after it has written the
    total and the count: these two are those of the list, the top
    category on the page is the old one, and nothing else has changed. *)
Theorem X4_missing_label_leaves_the_old_top_category
  (st : state) (h : jsstring * total_value) :
  Forall positive_amount (expenses st) ->
  Forall (fun e => own_key (category e)) (expenses st) ->
  highest (expenses st) = Some h ->
  selector_plain (fst h) ->
  option_text (page st) (fst h) = None ->
  largest_sum (fst h) (expenses st) /\
  exists st',
    updateSummary st = (Throw TypeError, st') /\
    beside_summary st' = beside_summary st /\
    summary_texts st' =
      (rupee ++ toFixed (total (expenses st)) 2,
       Number_toString (number_of_nat (List.length (expenses st))),
       highestCategory_textContent (page st)).
Proof.
  intros HF HO H _ O.
  assert (Hl : expenses st <> []).
  { intros E. rewrite E in H. discriminate. }
  split.
  - destruct (Totals.highest_largest _ Hl HF HO) as (c & Hc & HS).
    rewrite H in Hc. injection Hc as ->. exact HS.
  - unfold updateSummary. rewrite bind_get.
    apply length_nonzero in Hl. rewrite Hl.
    rewrite H, O. rewrite bind_modify. unfold throw.
    eexists. split; [reflexivity|]. split; reflexivity.
Qed.

Lemma X4_witness :
  let st := Examples.with_expenses [Cases.gift] in
  let h := (str "gifts", Sum 40%float) in
  (Forall positive_amount (expenses st) /\
   Forall (fun e => own_key (category e)) (expenses st) /\
   highest (expenses st) = Some h /\ selector_plain (fst h) /\
   option_text (page st) (fst h) = None) /\
  largest_sum (fst h) (expenses st) /\
  exists st',
    updateSummary st = (Throw TypeError, st') /\
    beside_summary st' = beside_summary st /\
    summary_texts st' =
      (rupee ++ toFixed (total (expenses st)) 2,
       Number_toString (number_of_nat (List.length (expenses st))),
       highestCategory_textContent (page st)).
Proof.
  assert (H : let st := Examples.with_expenses [Cases.gift] in
              let h := (str "gifts", Sum 40%float) in
              Forall positive_amount (expenses st) /\
              Forall (fun e => own_key (category e)) (expenses st) /\
              highest (expenses st) = Some h /\ selector_plain (fst h) /\
              option_text (page st) (fst h) = None).
  { split; [repeat constructor|]. split; [repeat constructor|].
    repeat split; vm_compute; reflexivity. }
  exact (conj H (X4_missing_label_leaves_the_old_top_category _ _
                   (proj1 H) (proj1 (proj2 H)) (proj1 (proj2 (proj2 H)))
                   (proj1 (proj2 (proj2 (proj2 H))))
                   (proj2 (proj2 (proj2 (proj2 H)))))).
Defined.

(** ** The page over a session *)

(** X5: the page follows the list.  When the codes of the category
    select are plain and ordinary property names, the category selected
    in the form, the category [clearForm] selects and the categories of
    the stored records have options in it, and the stored records
    satisfy the field invariants, the start returns, and after every
    sequence of events the list on the page shows the records that pass
    the filter and the summary panel shows the total and the count of the
    whole list and, unless the list is empty, the first word of the label
    of the category ranked first, which has the largest group sum. *)
Theorem X5_page_follows_the_list
  (st0 : state) (today : jsstring) (evs : list event) :
  plain_table (page st0) -> own_table (page st0) ->
  form_listed (page st0) -> listed_slot (page st0) (stored st0) ->
  fst (startup today st0) = Normal tt /\
  shows_list (run evs (snd (startup today st0))) /\
  shows_summary (run evs (snd (startup today st0))).
Proof.
  intros _ HT HF HS.
  destruct (startup_in_step today st0 HT HF HS) as (st & E & HI).
  rewrite E. split; [reflexivity|].
  apply (run_in_step evs) in HI. cbn [snd]. split; apply HI.
Qed.

Lemma X5_witness :
  let st0 := Examples.fresh_state (Some Examples.lunch_snapshot) in
  let today := str "2025-01-27" in
  let evs := [TypeAmount (str "3"); TypeDescription (str "bus");
              SelectCategory (str "transport");
              ClickAdd 1737900060000 (str "2025-01-27");
              ChangeFilter (str "food");
              ClickDelete 1737900000000 true] in
  (plain_table (page st0) /\ own_table (page st0) /\
   form_listed (page st0) /\ listed_slot (page st0) (stored st0)) /\
  fst (startup today st0) = Normal tt /\
  shows_list (run evs (snd (startup today st0))) /\
  shows_summary (run evs (snd (startup today st0))).
Proof.
  assert (H : let st0 := Examples.fresh_state (Some Examples.lunch_snapshot) in
              plain_table (page st0) /\ own_table (page st0) /\
              form_listed (page st0) /\
              listed_slot (page st0) (stored st0)).
  { split; [repeat constructor|]. split; [repeat constructor|].
    split; [split; discriminate|].
    exists [Examples.lunch]. split; [vm_compute; reflexivity|].
    split; repeat constructor; discriminate. }
  exact (conj H (X5_page_follows_the_list _ _ _
                   (proj1 H) (proj1 (proj2 H)) (proj1 (proj2 (proj2 H)))
                   (proj2 (proj2 (proj2 H))))).
Defined.

(** ** The slot *)

(** A list of sample records is storable: the list is evaluated, and
    then each field is checked. *)
Ltac storable_list :=
  match goal with
  | |- Forall storable ?l =>
      let l' := eval vm_compute in l in
      assert (E : l = l') by (vm_compute; reflexivity);
      rewrite E; clear E
  end;
  repeat first [apply Forall_nil | apply Forall_cons | split];
  vm_compute; reflexivity.

(** X6: every event leaves the list and the slot as they were, or it has
    called [saveExpenses] on the list as it is after the event: then the
    slot holds the text of that list if the text fits, and otherwise the
    slot is as it was and the failure message is displayed.  Only the
    add, delete and clear events write. *)
Theorem X6_a_change_is_written_or_reported (ev : event) (st : state) :
  (expenses (step ev st) = expenses st /\ stored (step ev st) = stored st)
  \/ (quiet ev = false /\ fits (step ev st) /\
      stored (step ev st) = Some (serialize (expenses (step ev st))))
  \/ (quiet ev = false /\ ~ fits (step ev st) /\
      stored (step ev st) = stored st /\
      error_texts (page (step ev st)) = (save_failure, str "block")).
Proof. apply step_written. Qed.

(** X7: the start reads the slot and never writes it, whatever the slot
    holds: a text that does not parse is still there after the start.
    Unless the start leaves the records, a reload after it gives the
    same list. *)
Theorem X7_the_start_only_reads_the_slot (st0 : state) (today : jsstring) :
  stored (snd (startup today st0)) = stored st0 /\
  ((exists v, fst (startup today st0) = Untyped v)
   \/ persisted (snd (startup today st0))).
Proof.
  split.
  - pose proof (startup_slot today st0) as H. cbv beta in H.
    now injection H.
  - destruct (fst (startup today st0)) as [[]|e|v] eqn:E.
    + right. apply startup_persisted. intros v. rewrite E. discriminate.
    + right. apply startup_persisted. intros v. rewrite E. discriminate.
    + left. now exists v.
Qed.

(** X8: a reload brings the list back at every point of a session.  When
    the start stays within the records, and after each event the text of
    the list fits into the storage and the records are storable, then
    after the whole sequence the script started on the slot ends with the
    list of the session. *)
Theorem X8_a_reload_restores_the_list
  (st0 : state) (today : jsstring) (evs : list event) :
  (forall v, fst (startup today st0) <> Untyped v) ->
  (forall n, n < List.length evs ->
     fits (run (firstn (S n) evs) (snd (startup today st0))) /\
     Forall storable
       (expenses (run (firstn (S n) evs) (snd (startup today st0))))) ->
  persisted (run evs (snd (startup today st0))).
Proof.
  intros HT H. apply run_persisted; [|exact H].
  now apply startup_persisted.
Qed.

Lemma X8_witness :
  let st0 := Examples.fresh_state (Some Examples.lunch_snapshot) in
  let today := str "2025-01-27" in
  let evs := [TypeAmount (str "3"); TypeDescription (str "bus");
              SelectCategory (str "transport");
              ClickAdd 1737900060000 (str "2025-01-27");
              ClickDelete 1737900000000 true] in
  ((forall v, fst (startup today st0) <> Untyped v) /\
   (forall n, n < List.length evs ->
      fits (run (firstn (S n) evs) (snd (startup today st0))) /\
      Forall storable
        (expenses (run (firstn (S n) evs) (snd (startup today st0)))))) /\
  persisted (run evs (snd (startup today st0))).
Proof.
  assert (H : let st0 := Examples.fresh_state (Some Examples.lunch_snapshot) in
              let today := str "2025-01-27" in
              let evs := [TypeAmount (str "3"); TypeDescription (str "bus");
                          SelectCategory (str "transport");
                          ClickAdd 1737900060000 (str "2025-01-27");
                          ClickDelete 1737900000000 true] in
              (forall v, fst (startup today st0) <> Untyped v) /\
              (forall n, n < List.length evs ->
                 fits (run (firstn (S n) evs) (snd (startup today st0))) /\
                 Forall storable
                   (expenses (run (firstn (S n) evs)
                                (snd (startup today st0)))))).
  { split.
    - intros v. vm_compute. discriminate.
    - intros n Hn.
      do 5 (destruct n as [|n];
            [split; [vm_compute; discriminate | storable_list]|]).
      simpl in Hn. lia. }
  exact (conj H (X8_a_reload_restores_the_list _ _ _ (proj1 H) (proj2 H))).
Defined.

(** ** The list *)

(** X9: a confirmed [deleteExpense] removes every record whose id is
    equal to the given one, whether the ids of the list are distinct or
    not: no such record is left, every other record is kept, the records
    kept are in their old order, and the list is shorter by the number of
    records of that id.  A declined one changes nothing at all. *)
Theorem X9_delete_removes_every_record_of_the_id
  (st : state) (id0 : number) :
  subsequence (expenses (snd (deleteExpense id0 true st))) (expenses st) /\
  ~ has_id id0 (expenses (snd (deleteExpense id0 true st))) /\
  (forall e, In e (expenses st) -> strict_eq (id e) id0 = false ->
             In e (expenses (snd (deleteExpense id0 true st)))) /\
  List.length (expenses (snd (deleteExpense id0 true st)))
  + count_id id0 (expenses st) = List.length (expenses st) /\
  deleteExpense id0 false st = (Normal tt, st).
Proof.
  rewrite deleteExpense_expenses. split; [|split; [|split; [|split]]].
  - apply filter_subsequence.
  - apply filter_drops_id.
  - intros e He E. apply filter_In. split; [assumption|].
    unfold strict_neq. now rewrite E.
  - apply count_id_filter.
  - reflexivity.
Qed.

(** X10: adding a record and deleting it again gives the list back, when
    the clock value is a Number equal to itself and no record of the list
    has it as its id. *)
Theorem X10_add_then_delete_gives_the_list_back
  (st : state) (now : number) (today : jsstring) :
  accepted (page st) = true ->
  strict_eq now now = true ->
  ~ has_id now (expenses st) ->
  expenses (run [ClickAdd now today; ClickDelete now true] st) = expenses st.
Proof.
  intros A E H. unfold run. simpl fold_left.
  rewrite !step_list, A. simpl.
  unfold strict_neq at 1. rewrite E. simpl.
  now apply filter_keeps_all.
Qed.

Lemma X10_witness :
  let st := Examples.filled_form (Examples.with_expenses [Examples.lunch]) in
  let now := 1737900060000%float in
  (accepted (page st) = true /\ strict_eq now now = true /\
   ~ has_id now (expenses st)) /\
  expenses (run [ClickAdd now (str "2025-01-27"); ClickDelete now true] st)
  = expenses st.
Proof.
  assert (H : let st := Examples.filled_form
                          (Examples.with_expenses [Examples.lunch]) in
              let now := 1737900060000%float in
              accepted (page st) = true /\ strict_eq now now = true /\
              ~ has_id now (expenses st)).
  { split; [vm_compute; reflexivity|]. split; [vm_compute; reflexivity|].
    intros H. inversion H as [? ? E|? ? H']; [discriminate E | inversion H']. }
  exact (conj H (X10_add_then_delete_gives_the_list_back _ _ _
                   (proj1 H) (proj1 (proj2 H)) (proj2 (proj2 H)))).
Defined.

(** X11: when the clock value of an addition is the id of records of the
    list, deleting the new record deletes those records with it: after
    the addition and the deletion no record of that id is left, and the
    list is shorter than it was before the addition, by the number of
    records that had the id. *)
Theorem X11_deleting_a_repeated_id_removes_the_old_records
  (st : state) (now : number) (today : jsstring) :
  accepted (page st) = true ->
  has_id now (expenses st) ->
  ~ has_id now
      (expenses (run [ClickAdd now today; ClickDelete now true] st)) /\
  List.length (expenses (run [ClickAdd now today; ClickDelete now true] st))
  + count_id now (expenses st) = List.length (expenses st) /\
  List.length (expenses (run [ClickAdd now today; ClickDelete now true] st))
  < List.length (expenses st).
Proof.
  intros A H. unfold run. simpl fold_left. rewrite !step_list, A.
  assert (E : strict_eq now now = true).
  { apply Exists_exists in H as (e & _ & E).
    exact (strict_eq_trans _ _ _ (strict_eq_sym _ _ E) E). }
  assert (F : List.filter (fun e => strict_neq (id e) now)
                (draft now (page st) :: expenses st)
              = List.filter (fun e => strict_neq (id e) now) (expenses st)).
  { simpl. unfold strict_neq at 1. now rewrite E. }
  rewrite F. pose proof (count_id_filter now (expenses st)) as Hc.
  apply count_id_has in H. split; [apply filter_drops_id|]. lia.
Qed.

Lemma X11_witness :
  let st := Examples.filled_form (Examples.with_expenses [Examples.lunch]) in
  let now := 1737900000000%float in
  let evs := [ClickAdd now (str "2025-01-27"); ClickDelete now true] in
  (accepted (page st) = true /\ has_id now (expenses st)) /\
  ~ has_id now (expenses (run evs st)) /\
  List.length (expenses (run evs st)) + count_id now (expenses st)
  = List.length (expenses st) /\
  List.length (expenses (run evs st)) < List.length (expenses st).
Proof.
  assert (H : let st := Examples.filled_form
                          (Examples.with_expenses [Examples.lunch]) in
              let now := 1737900000000%float in
              accepted (page st) = true /\ has_id now (expenses st)).
  { split; [vm_compute; reflexivity|]. left. vm_compute. reflexivity. }
  exact (conj H (X11_deleting_a_repeated_id_removes_the_old_records _ _
                   (str "2025-01-27") (proj1 H) (proj2 H))).
Defined.

(** X12: [clearAllExpenses] by cases.  On the empty list it displays
    its message and does nothing else, whatever the answer to the dialog
    would be.  On a list with records a declined dialog changes nothing,
    and a confirmed one returns with the empty list, the empty state on
    the page and the summary of no record; the slot then holds the text
    of the empty array when the storage takes two code units.  It returns
    whether the categories of the records have labels or not. *)
Theorem X12_clear_all_by_cases (st : state) (confirmed : bool) :
  (expenses st = [] /\
   clearAllExpenses confirmed st =
   (Normal tt, reporting "No expenses to clear" st))
  \/ (expenses st <> [] /\ confirmed = false /\
      clearAllExpenses confirmed st = (Normal tt, st))
  \/ (expenses st <> [] /\ confirmed = true /\
      exists st' message,
        clearAllExpenses confirmed st = (Normal tt, st') /\
        expenses st' = [] /\
        expenseList_innerHTML (page st') = EmptyState message /\
        summary_texts st' = (rupee ++ str "0.00", str "0", str "-") /\
        form (page st') = form (page st) /\
        ((2 <= quota st)%N -> stored st' = Some (str "[]"))).
Proof.
  unfold clearAllExpenses. rewrite bind_get.
  destruct (Nat.eqb _ 0) eqn:E.
  - left. apply length_zero in E. now split.
  - right. apply length_nonzero in E.
    destruct confirmed; [right | left; now repeat split].
    split; [assumption|]. split; [reflexivity|].
    rewrite bind_modify. set (st1 := set_expenses [] st).
    destruct (fits_dec st1) as [F|F].
    + rewrite (bind_Normal _ _ _ _ _ (saveExpenses_fits _ F)).
      destruct (refresh_of_nothing
                  (set_stored (Some (serialize (expenses st1))) st1) eq_refl)
        as (message & ->).
      eexists. exists message. split; [reflexivity|]. now repeat split.
    + rewrite (bind_Normal _ _ _ _ _ (saveExpenses_full _ F)).
      destruct (refresh_of_nothing
                  (reporting "Failed to save data. Storage might be full."
                     st1) eq_refl)
        as (message & ->).
      eexists. exists message. split; [reflexivity|]. repeat split.
      intros Q. exfalso. apply F. exact Q.
Qed.

(** X13: an addition that returns clears the form, so that a second
    request without new input is turned down.  On a page whose category
    select has the option ["food"] (all codes being plain), after a valid
    form was added and
    [addExpense] has returned, the amount and the description
    are empty, the category is ["food"] and the date is the date of the
    day; a second [addExpense] then only displays the message about the
    amount, and the list has grown by one record, not by two. *)
Theorem X13_a_second_request_is_turned_down
  (st st1 : state) (now now' : number) (today today' : jsstring) :
  plain_codes st ->
  option_text (page st) (str "food") <> None ->
  accepted (page st) = true ->
  addExpense now today st = (Normal tt, st1) ->
  form (page st1) = ([], [], str "food", today) /\
  addExpense now' today' st1 =
    (Normal tt, reporting "Please enter a valid amount greater than 0" st1) /\
  expenses (run [ClickAdd now today; ClickAdd now' today'] st)
  = draft now (page st) :: expenses st.
Proof.
  intros _ _ A E.
  destruct (addExpense_returns _ _ _ _ A E) as (s & Hs).
  assert (R : addExpense now' today' st1 =
              (Normal tt,
               reporting "Please enter a valid amount greater than 0" st1)).
  { rewrite Hs. reflexivity. }
  split; [now rewrite Hs|]. split; [exact R|].
  unfold run. simpl fold_left. unfold step at 2. simpl handle.
  rewrite E. cbn [snd]. unfold step. simpl handle. rewrite R. cbn [snd].
  change (expenses (reporting _ st1)) with (expenses st1).
  pose proof (addExpense_accepts now today st A) as H.
  now rewrite E in H.
Qed.

Lemma X13_witness :
  let st := Examples.filled_form (Examples.with_expenses [Examples.lunch]) in
  let now := 1737900060000%float in
  let now' := 1737900060500%float in
  let today := str "2025-01-27" in
  let st1 := snd (addExpense now today st) in
  (plain_codes st /\
   option_text (page st) (str "food") <> None /\
   accepted (page st) = true /\
   addExpense now today st = (Normal tt, st1)) /\
  form (page st1) = ([], [], str "food", today) /\
  addExpense now' today st1 =
    (Normal tt, reporting "Please enter a valid amount greater than 0" st1) /\
  expenses (run [ClickAdd now today; ClickAdd now' today] st)
  = draft now (page st) :: expenses st.
Proof.
  assert (H : let st := Examples.filled_form
                          (Examples.with_expenses [Examples.lunch]) in
              let now := 1737900060000%float in
              let today := str "2025-01-27" in
              let st1 := snd (addExpense now today st) in
              plain_codes st /\
              option_text (page st) (str "food") <> None /\
              accepted (page st) = true /\
              addExpense now today st = (Normal tt, st1)).
  { split; [repeat constructor|].
    split; [discriminate|]. split; vm_compute; reflexivity. }
  exact (conj H (X13_a_second_request_is_turned_down _ _ _
                   1737900060500%float _ (str "2025-01-27")
                   (proj1 H) (proj1 (proj2 H)) (proj1 (proj2 (proj2 H)))
                   (proj2 (proj2 (proj2 H))))).
Defined.

(** X14: the list after a session is the records added in it followed
    by what is left of the list before it.  For every sequence of events,
    the list splits into a front whose records carry clock values of the
    additions of the sequence, no more of them than there were additions,
    and a rest that is a subsequence of the list before the sequence: no
    event reorders the records, and a sequence without an addition only
    removes records. *)
Theorem X14_new_records_in_front_old_ones_in_order
  (evs : list event) (st : state) :
  exists news kept,
    expenses (run evs st) = news ++ kept /\
    subsequence kept (expenses st) /\
    Forall (fun e => In (id e) (clock evs)) news /\
    List.length news <= List.length (clock evs).
Proof.
  revert st.
  induction evs as [|ev evs IH]; intros st.
  - exists [], (expenses st). repeat split.
    + apply subsequence_refl.
    + constructor.
    + simpl. lia.
  - simpl run. destruct (IH (step ev st)) as (news & kept & E & Hs & HF & Hl).
    rewrite clock_cons.
    assert (Hw : Forall (fun e => In (id e) (clock [ev] ++ clock evs)) news).
    { revert HF. apply Forall_impl. intros e He. apply in_or_app. now right. }
    destruct (clock [ev]) as [|now0 c] eqn:C.
    + exists news, kept. repeat split; try assumption.
      apply (subsequence_trans _ _ _ Hs). now apply step_shrinks.
    + destruct ev; try discriminate. simpl in C. injection C as <- <-.
      rewrite step_list in Hs.
      destruct (accepted (page st)).
      * inversion Hs as [|x s l H|x s l H]; subst.
        -- exists news, kept. repeat split; try assumption. simpl. lia.
        -- exists (news ++ [draft now (page st)]), s. repeat split.
           ++ rewrite E. now rewrite <- app_assoc.
           ++ assumption.
           ++ apply Forall_app. split; [assumption|].
              constructor; [now left | constructor].
           ++ rewrite length_app. simpl. lia.
      * exists news, kept. repeat split; try assumption. simpl. lia.
Qed.

(** ** The form *)

Import FormFacts.

(** X15: [addExpense] reports the first field at fault, in the order
    amount, description, date, and nothing else happens.  An amount field
    that is empty or holds white space only is at fault, and one of four
    cases holds: the amount is no Number, zero or negative, and the
    message about the amount is displayed; the amount is positive, the
    description is white space only, and the message about the
    description is displayed; both are in order, the date is empty, and
    the message about the date is displayed; or the form is accepted and
    the record built from it is put in front of the list. *)
Theorem X15_the_first_field_at_fault_is_reported
  (st : state) (now : number) (today : jsstring) :
  (blank (amountInput_value (page st)) -> amount_at_fault (page st)) /\
  ((amount_at_fault (page st) /\
   addExpense now today st =
   (Normal tt, reporting "Please enter a valid amount greater than 0" st))
  \/ (~ amount_at_fault (page st) /\
      blank (descriptionInput_value (page st)) /\
      addExpense now today st =
      (Normal tt, reporting "Please enter a description" st))
  \/ (~ amount_at_fault (page st) /\
      ~ blank (descriptionInput_value (page st)) /\
      dateInput_value (page st) = [] /\
      addExpense now today st =
      (Normal tt, reporting "Please select a date" st))
  \/ (~ amount_at_fault (page st) /\
      ~ blank (descriptionInput_value (page st)) /\
      dateInput_value (page st) <> [] /\
      expenses (snd (addExpense now today st))
      = draft now (page st) :: expenses st)).
Proof.
  split; [intros H; left; now apply blank_amount|].
  destruct (validateInput_cases st)
    as [(H1 & E)|[(H1 & H2 & E)|[(H1 & H2 & H3 & E)|(H1 & H2 & H3 & A & _)]]].
  - left. split; [assumption|].
    unfold addExpense. now rewrite (bind_Normal _ _ _ _ _ E).
  - right. left. split; [assumption|]. split; [assumption|].
    unfold addExpense. now rewrite (bind_Normal _ _ _ _ _ E).
  - right. right. left. repeat split; try assumption.
    unfold addExpense. now rewrite (bind_Normal _ _ _ _ _ E).
  - right. right. right. repeat split; try assumption.
    now apply addExpense_accepts.
Qed.

(** ** Ids *)

(** X16: the ids stay distinct as long as the clock does not repeat an
    id.  When the ids of the list are distinct, the clock values of the
    additions of a sequence of events differ from each other, and none of
    them is the id of a record of the list, the ids of the list after the
    sequence are distinct. *)
Theorem X16_ids_stay_distinct_under_a_clock_that_moves
  (evs : list event) (st : state) :
  unique_ids (expenses st) ->
  ForallOrdPairs (fun a b => strict_eq a b = false) (clock evs) ->
  Forall (fun now => ~ has_id now (expenses st)) (clock evs) ->
  unique_ids (expenses (run evs st)).
Proof.
  revert st.
  induction evs as [|ev evs IH]; intros st HU HP HC; [assumption|].
  simpl run. rewrite clock_cons in HP, HC.
  apply Forall_app in HC as [HC1 HC2].
  apply IH.
  - now apply step_unique.
  - clear - HP. induction (clock [ev]) as [|a c IHc]; [assumption|].
    apply IHc. simpl in HP. now inversion HP.
  - apply Forall_forall. intros now0 Hn Hh.
    apply step_has_id in Hh as [Hh|Hh].
    + rewrite Forall_forall in HC2. now apply (HC2 now0).
    + apply Exists_exists in Hh as (a & Ha & E).
      clear - HP Ha Hn E.
      induction (clock [ev]) as [|b c IHc]; [destruct Ha|].
      simpl in HP. inversion HP as [|? ? HF HP']; subst.
      destruct Ha as [->|Ha]; [|now apply IHc].
      rewrite Forall_forall in HF.
      specialize (HF now0 (in_or_app _ _ _ (or_intror Hn))). congruence.
Qed.

Lemma X16_witness :
  let st := Examples.filled_form (Examples.with_expenses [Examples.lunch]) in
  let evs := [ClickAdd 1737900060000 (str "2025-01-27");
              TypeAmount (str "3"); TypeDescription (str "bus");
              ClickAdd 1737900120000 (str "2025-01-27");
              ClickDelete 1737900000000 true] in
  (unique_ids (expenses st) /\
   ForallOrdPairs (fun a b => strict_eq a b = false) (clock evs) /\
   Forall (fun now => ~ has_id now (expenses st)) (clock evs)) /\
  unique_ids (expenses (run evs st)).
Proof.
  assert (H : let st := Examples.filled_form
                          (Examples.with_expenses [Examples.lunch]) in
              let evs := [ClickAdd 1737900060000 (str "2025-01-27");
                          TypeAmount (str "3"); TypeDescription (str "bus");
                          ClickAdd 1737900120000 (str "2025-01-27");
                          ClickDelete 1737900000000 true] in
              unique_ids (expenses st) /\
              ForallOrdPairs (fun a b => strict_eq a b = false) (clock evs) /\
              Forall (fun now => ~ has_id now (expenses st)) (clock evs)).
  { cbv zeta. unfold clock. cbn [flat_map app].
    split; [repeat constructor|]. split.
    - repeat constructor.
    - assert (Hn : forall now,
                 strict_eq (id Examples.lunch) now = false ->
                 ~ has_id now [Examples.lunch]).
      { intros now E H. inversion H as [? ? E'|? ? H']; [|inversion H'].
        congruence. }
      apply Forall_cons; [now apply Hn|].
      apply Forall_cons; [now apply Hn | apply Forall_nil]. }
  exact (conj H (X16_ids_stay_distinct_under_a_clock_that_moves _ _
                   (proj1 H) (proj1 (proj2 H)) (proj2 (proj2 H)))).
Defined.

(** ** What the form becomes *)

(** X17: the record of an accepted form.  Its id is the clock value, its
    amount the Number read from the amount field, its category and date
    those of the form, and its description the text of the description
    field without the white space around it: the text is the description
    between two runs of white space, and the description is not empty and
    neither starts nor ends with white space. *)
Theorem X17_the_record_holds_the_trimmed_description
  (st : state) (now : number) (today : jsstring) :
  accepted (page st) = true ->
  exists e before after,
    expenses (snd (addExpense now today st)) = e :: expenses st /\
    id e = now /\
    amount e = parseFloat (amountInput_value (page st)) /\
    category e = categorySelect_value (page st) /\
    date e = dateInput_value (page st) /\
    descriptionInput_value (page st) = before ++ description e ++ after /\
    blank before /\ blank after /\
    description e <> [] /\
    (forall c r, description e = c :: r -> is_js_whitespace c = false) /\
    (forall c r, rev (description e) = c :: r -> is_js_whitespace c = false).
Proof.
  intros A.
  destruct (trim_split (descriptionInput_value (page st)))
    as (a & b & E & Ha & Hb).
  exists (draft now (page st)), a, b.
  split; [now apply addExpense_accepts|].
  do 4 (split; [reflexivity|]).
  split; [exact E|]. split; [exact Ha|]. split; [exact Hb|].
  split; [|split].
  - apply (accepted_draft_valid now) in A. apply A.
  - apply trim_first.
  - apply trim_last.
Qed.

Lemma X17_witness :
  let st := Examples.filled_form (Examples.with_expenses [Examples.lunch]) in
  let now := 1737900060000%float in
  accepted (page st) = true /\
  exists e before after,
    expenses (snd (addExpense now (str "2025-01-27") st))
    = e :: expenses st /\
    id e = now /\
    amount e = parseFloat (amountInput_value (page st)) /\
    category e = categorySelect_value (page st) /\
    date e = dateInput_value (page st) /\
    descriptionInput_value (page st) = before ++ description e ++ after /\
    blank before /\ blank after /\
    description e <> [] /\
    (forall c r, description e = c :: r -> is_js_whitespace c = false) /\
    (forall c r, rev (description e) = c :: r -> is_js_whitespace c = false).
Proof.
  assert (H : accepted
                (page (Examples.filled_form
                         (Examples.with_expenses [Examples.lunch])))
              = true).
  { vm_compute. reflexivity. }
  exact (conj H (X17_the_record_holds_the_trimmed_description _ _ _ H)).
Defined.

(** ** Events that do not touch the list *)

(** X18: typing into the form, picking a category or a date, changing
    the filter and the timer of a message change neither the list, the
    slot nor the summary panel; and all of them but a change of the
    filter leave the list on the page as it is. *)
Theorem X18_quiet_events_leave_the_data (ev : event) (st : state) :
  quiet ev = true ->
  expenses (step ev st) = expenses st /\
  stored (step ev st) = stored st /\
  summary_texts (step ev st) = summary_texts st /\
  ((forall code, ev <> ChangeFilter code) ->
   expenseList_innerHTML (page (step ev st))
   = expenseList_innerHTML (page st)).
Proof.
  intros Q. unfold step.
  destruct ev; try discriminate; simpl handle;
    try (now repeat split).
  - unfold modify. cbn [snd]. destruct (option_text _ _); now repeat split.
  - rewrite bind_modify.
    pose proof (renderExpenses_beside_list
                  (set_page (with_filter code (page st)) st)) as H.
    unfold beside_list, summary_texts in H. cbn [page set_page] in H.
    unfold summary_texts. injection H as H1 H2 _ _ _ _ _ _ _ _ _ H3 H4 H5.
    split; [exact H1|]. split; [exact H2|].
    split; [rewrite H3, H4, H5; reflexivity|].
    intros Hc. now destruct (Hc code).
Qed.

Lemma X18_witness :
  let st := Examples.with_expenses [Examples.bus; Examples.lunch] in
  let ev := ChangeFilter (str "food") in
  quiet ev = true /\
  expenses (step ev st) = expenses st /\
  stored (step ev st) = stored st /\
  summary_texts (step ev st) = summary_texts st /\
  ((forall code, ev <> ChangeFilter code) ->
   expenseList_innerHTML (page (step ev st))
   = expenseList_innerHTML (page st)).
Proof.
  assert (H : quiet (ChangeFilter (str "food")) = true) by reflexivity.
  exact (conj H (X18_quiet_events_leave_the_data _ _ H)).
Defined.

(** ** Amounts on the page *)

Import Amounts.

(** X19: the amount of an item has two fraction digits as long as the
    amount is below [10^21] in absolute value: the text is the currency
    sign, a minus sign for a negative amount, one digit or more, the
    point and two digits.  From [10^21] on, and for an amount that is no
    finite Number, the text is the currency sign and the amount as
    [String] writes it, without a fixed number of digits. *)
Theorem X19_amounts_are_shown_with_two_fraction_digits
  (p : document) (e : expense) (it : item) :
  render_item p e = Some it ->
  (PrimFloat.ltb (PrimFloat.abs (amount e)) 1e21 = true /\
   exists sign whole cents,
     item_amount it = rupee ++ sign ++ whole ++ str "." ++ cents /\
     (sign = [] \/ sign = str "-") /\
     whole <> [] /\ forallb is_digit whole = true /\
     List.length cents = 2 /\ forallb is_digit cents = true)
  \/ (PrimFloat.ltb (PrimFloat.abs (amount e)) 1e21 = false /\
      item_amount it = rupee ++ Number_toString (amount e)).
Proof.
  intros R. apply render_item_of in R as (Ha & _). rewrite Ha.
  destruct (PrimFloat.ltb (PrimFloat.abs (amount e)) 1e21) eqn:L.
  - left. split; [reflexivity|].
    destruct (toFixed_two _ L) as (sign & whole & cents & E & H).
    exists sign, whole, cents. split; [now rewrite E | exact H].
  - right. split; [reflexivity|]. now rewrite (toFixed_large _ L).
Qed.

Lemma X19_witness :
  let p := Examples.blank_page in
  let it := {| item_amount := rupee ++ str "12.50";
               item_description := str "lunch";
               item_category := str "food";
               item_categoryName := [0xD83C; 0xDF54]%N ++ str " Food";
               item_date := str "2025-01-26";
               item_delete := 1737900000000%float |} in
  render_item p Examples.lunch = Some it /\
  ((PrimFloat.ltb (PrimFloat.abs (amount Examples.lunch)) 1e21 = true /\
    exists sign whole cents,
      item_amount it = rupee ++ sign ++ whole ++ str "." ++ cents /\
      (sign = [] \/ sign = str "-") /\
      whole <> [] /\ forallb is_digit whole = true /\
      List.length cents = 2 /\ forallb is_digit cents = true)
   \/ (PrimFloat.ltb (PrimFloat.abs (amount Examples.lunch)) 1e21 = false /\
       item_amount it = rupee ++ Number_toString (amount Examples.lunch))).
Proof.
  assert (H : render_item Examples.blank_page Examples.lunch
              = Some {| item_amount := rupee ++ str "12.50";
                        item_description := str "lunch";
                        item_category := str "food";
                        item_categoryName :=
                          [0xD83C; 0xDF54]%N ++ str " Food";
                        item_date := str "2025-01-26";
                        item_delete := 1737900000000%float |}).
  { vm_compute. reflexivity. }
  exact (conj H (X19_amounts_are_shown_with_two_fraction_digits _ _ _ H)).
Defined.

(** ** A refresh of the page *)

Import Refresh.

(** X20: the top category on the page is the label of the category
    ranked first, up to its first space.  When [updateSummary] returns on
    a list with records, whose amounts are positive and whose category
    codes are ordinary property names (all codes being plain), the
    category ranked first is a category of the list with the largest
    group sum, it has a label in the category select, and the text is the
    part of the label before its first space: the label is the text
    followed by nothing or by a space and more, and the text has no
    space. *)
Theorem X20_top_category_text_is_the_first_word_of_the_label
  (st st' : state) :
  plain_codes st ->
  Forall positive_amount (expenses st) ->
  Forall (fun e => own_key (category e)) (expenses st) ->
  expenses st <> [] ->
  updateSummary st = (Normal tt, st') ->
  exists h label rest,
    highest (expenses st) = Some h /\
    largest_sum (fst h) (expenses st) /\
    option_text (page st) (fst h) = Some label /\
    label = highestCategory_textContent (page st') ++ rest /\
    (rest = [] \/ exists r, rest = 32%N :: r) /\
    ~ In 32%N (highestCategory_textContent (page st')).
Proof.
  intros _ HF HO Hl.
  destruct (Totals.highest_largest _ Hl HF HO) as (c & H & HS).
  unfold updateSummary. rewrite bind_get.
  apply length_nonzero in Hl. rewrite Hl, H. cbn [fst].
  destruct (option_text (page st) c) as [label|] eqn:O.
  - intros [= <-]. cbn [page set_page highestCategory_textContent
                        with_summary].
    destruct (first_word_split label) as (rest & E & Hr).
    exists (c, Sum (group_sum c (expenses st))), label, rest.
    split; [reflexivity|]. split; [exact HS|]. split; [exact O|].
    split; [exact E|]. split; [exact Hr | apply first_word_no_space].
  - rewrite bind_modify. discriminate.
Qed.

Lemma X20_witness :
  let st := Examples.with_expenses [Examples.bus; Examples.lunch] in
  let st' := snd (updateSummary st) in
  (plain_codes st /\ Forall positive_amount (expenses st) /\
   Forall (fun e => own_key (category e)) (expenses st) /\
   expenses st <> [] /\ updateSummary st = (Normal tt, st')) /\
  exists h label rest,
    highest (expenses st) = Some h /\
    largest_sum (fst h) (expenses st) /\
    option_text (page st) (fst h) = Some label /\
    label = highestCategory_textContent (page st') ++ rest /\
    (rest = [] \/ exists r, rest = 32%N :: r) /\
    ~ In 32%N (highestCategory_textContent (page st')).
Proof.
  assert (H : let st := Examples.with_expenses
                          [Examples.bus; Examples.lunch] in
              let st' := snd (updateSummary st) in
              plain_codes st /\ Forall positive_amount (expenses st) /\
              Forall (fun e => own_key (category e)) (expenses st) /\
              expenses st <> [] /\ updateSummary st = (Normal tt, st')).
  { split; [repeat constructor|]. split; [repeat constructor|].
    split; [repeat constructor|].
    split; [discriminate | vm_compute; reflexivity]. }
  exact (conj H (X20_top_category_text_is_the_first_word_of_the_label _ _
                   (proj1 H) (proj1 (proj2 H)) (proj1 (proj2 (proj2 H)))
                   (proj1 (proj2 (proj2 (proj2 H))))
                   (proj2 (proj2 (proj2 (proj2 H)))))).
Defined.

(** X21: the page is recomputed, not accumulated.  [renderExpenses] run
    again on the state it has left completes in the same way and leaves
    that state, and so does [updateSummary]: the list on the page and the
    summary are set by the list, the filter and the category select
    alone, also when the call ends in a TypeError. *)
Theorem X21_refreshing_twice_is_refreshing_once (st : state) :
  renderExpenses (snd (renderExpenses st)) = renderExpenses st /\
  updateSummary (snd (updateSummary st)) = updateSummary st.
Proof.
  split.
  - destruct (renderExpenses_reads st) as [E|(m & E & H)].
    + rewrite E. cbn [snd]. exact E.
    + rewrite E. cbn [snd]. now rewrite H.
  - remember (updateSummary st) as r eqn:R.
    unfold updateSummary in R. rewrite bind_get in R.
    destruct (Nat.eqb (List.length (expenses st)) 0) eqn:E.
    + subst r. unfold updateSummary. rewrite bind_get.
      cbn [snd modify expenses set_page]. rewrite E. reflexivity.
    + destruct (highest (expenses st)) as [h|] eqn:H.
      * destruct (option_text (page st) (fst h)) eqn:O.
        -- subst r. unfold updateSummary. rewrite bind_get.
           cbn [snd modify expenses set_page]. rewrite E, H.
           unfold option_text in *.
           cbn [page set_page categorySelect_options with_summary].
           rewrite O. reflexivity.
        -- subst r. rewrite bind_modify. unfold throw. cbn [snd].
           unfold updateSummary. rewrite bind_get.
           cbn [snd modify expenses set_page]. rewrite E, H.
           unfold option_text in *.
           cbn [page set_page categorySelect_options with_summary].
           rewrite O. reflexivity.
      * subst r. unfold updateSummary. rewrite bind_get.
        cbn [snd modify expenses set_page]. rewrite E, H. reflexivity.
Qed.
